(** * Misago read tracker: [misago/readtracker/threadstracker.py]

    A shallow embedding of the thread read tracker and the properties of its
    annotation paths ([make_read_aware], [make_threads_read_aware],
    [make_thread_read_aware], [make_posts_read_aware]) and of its write path
    ([read_thread], [sync_record], [count_read_replies]).

    Python objects that the tracker mutates in place (threads) live in an
    object store and are passed by reference; the database tables of the user
    ([categoriesread_set], [threadread_set], the posts) are components of the
    state; every storage query, signal and collaborator call is appended to a
    log, so that "no storage access" and "exactly once" can be stated.
    Timestamps are integers. *)

From stdpp Require Import base gmap list strings pretty.
From Stdlib Require Import ZArith Lia.

Local Open Scope Z_scope.

(** ** Data model *)

(** [request.user]: Django's [AnonymousUser] answers [is_anonymous()] with
    [True], a member with [False]; [is_authenticated()] is the opposite. *)
Record User := {
  user_is_anonymous : bool;
  reads_cutoff : Z }.

Definition is_anonymous (user : User) : bool := user_is_anonymous user.
Definition is_authenticated (user : User) : bool := negb (user_is_anonymous user).

(** The category object handed to [make_threads_read_aware(user, threads,
    category)], already read-annotated by the categories tracker. *)
Record Category := {
  category_is_read : bool;
  category_last_read_on : option Z }.

(** A row of [CategoryRead] for the user. *)
Record CategoryRead := {
  cr_category_id : Z;
  cr_last_read_on : Z }.

(** A row of [ThreadRead] for the user. *)
Record ThreadRead := {
  tr_category_id : Z;
  tr_thread_id : Z;
  tr_read_replies : Z;
  tr_last_read_on : Z }.

(** A [ThreadRead] model instance: the row's primary key (its position in the
    table, rows are never deleted here) and the fields loaded from it. *)
Record ThreadReadObj := {
  tr_pk : nat;
  tr_row : ThreadRead }.

(** A thread object.  The first four fields are model fields; the others are
    the attributes the tracker injects, [None] while an attribute is not set. *)
Record Thread := {
  pk : Z;
  category_id : Z;
  last_post_on : Z;
  replies : Z;
  is_read : option bool;
  is_new : option bool;
  unread_replies : option Z;
  last_read_on : option Z;
  read_record : option (option ThreadReadObj) }.

Definition set_is_read (v : bool) (t : Thread) : Thread :=
  {| pk := pk t; category_id := category_id t; last_post_on := last_post_on t;
     replies := replies t; is_read := Some v; is_new := is_new t;
     unread_replies := unread_replies t; last_read_on := last_read_on t;
     read_record := read_record t |}.

Definition set_is_new (v : bool) (t : Thread) : Thread :=
  {| pk := pk t; category_id := category_id t; last_post_on := last_post_on t;
     replies := replies t; is_read := is_read t; is_new := Some v;
     unread_replies := unread_replies t; last_read_on := last_read_on t;
     read_record := read_record t |}.

Definition set_unread_replies (v : Z) (t : Thread) : Thread :=
  {| pk := pk t; category_id := category_id t; last_post_on := last_post_on t;
     replies := replies t; is_read := is_read t; is_new := is_new t;
     unread_replies := Some v; last_read_on := last_read_on t;
     read_record := read_record t |}.

Definition set_last_read_on (v : Z) (t : Thread) : Thread :=
  {| pk := pk t; category_id := category_id t; last_post_on := last_post_on t;
     replies := replies t; is_read := is_read t; is_new := is_new t;
     unread_replies := unread_replies t; last_read_on := Some v;
     read_record := read_record t |}.

Definition set_read_record (v : option ThreadReadObj) (t : Thread) : Thread :=
  {| pk := pk t; category_id := category_id t; last_post_on := last_post_on t;
     replies := replies t; is_read := is_read t; is_new := is_new t;
     unread_replies := unread_replies t; last_read_on := last_read_on t;
     read_record := Some v |}.

(** A post: two model fields, the thread it belongs to, and the injected
    [is_read] attribute. *)
Record Post := {
  post_thread_id : Z;
  posted_on : Z;
  is_moderated : bool;
  post_is_read : option bool }.

Definition set_post_is_read (v : bool) (p : Post) : Post :=
  {| post_thread_id := post_thread_id p; posted_on := posted_on p;
     is_moderated := is_moderated p; post_is_read := Some v |}.

(** ** Effects *)

(** What the tracker does to the outside world, in the order it does it. *)
Inductive Event :=
  | CategoryReadFilter (categories : list Z)
  | CategoryReadGet (category : Z)
  | ThreadReadFilter (threads : list Z)
  | ThreadReadGet (thread : Z)
  | PostCount (thread : Z) (last_reply_date : Z)
  | ThreadReadSave (record : ThreadReadObj)
  | ThreadReadCreate (row : ThreadRead)
  | StartRecord (category : Z)
  | CategorySyncRecord (category : Z)
  | SignalThreadTracked (thread : Z)
  | SignalThreadRead (thread : Z)
  | ReadUserNotifications (triggers : list string) (atomic : bool).

(** Queries and writes against the database, as opposed to signals and to
    clearing notifications. *)
Definition is_storage_access (e : Event) : bool :=
  match e with
  | CategoryReadFilter _ | CategoryReadGet _ | ThreadReadFilter _
  | ThreadReadGet _ | PostCount _ _ | ThreadReadSave _ | ThreadReadCreate _
  | StartRecord _ | CategorySyncRecord _ => true
  | SignalThreadTracked _ | SignalThreadRead _ | ReadUserNotifications _ _ => false
  end.

Definition is_thread_read_lookup (e : Event) : bool :=
  match e with
  | ThreadReadFilter _ | ThreadReadGet _ => true
  | _ => false
  end.

Definition is_notification_clear (e : Event) : bool :=
  match e with
  | ReadUserNotifications _ _ => true
  | _ => false
  end.

(** The exceptions that can leave the tracker.  [InvalidReference] is the
    model's own: a reference that names no object, which Python cannot build. *)
Inductive Exn :=
  | AttributeError (attr : string)
  | ValueError (msg : string)
  | CategoryReadDoesNotExist
  | ThreadReadDoesNotExist
  | MultipleObjectsReturned
  | DatabaseError
  | InvalidReference.

Inductive Result (A : Type) :=
  | Ok (a : A)
  | Raise (e : Exn).
Arguments Ok {A} a.
Arguments Raise {A} e.

Record State := {
  objects : gmap nat Thread;
  categoriesread_set : list CategoryRead;
  threadread_set : list ThreadRead;
  post_set : list Post;
  clock : Z;
  log : list Event }.

Definition with_objects (o : gmap nat Thread) (s : State) : State :=
  {| objects := o; categoriesread_set := categoriesread_set s;
     threadread_set := threadread_set s; post_set := post_set s;
     clock := clock s; log := log s |}.

Definition with_categoriesread (c : list CategoryRead) (s : State) : State :=
  {| objects := objects s; categoriesread_set := c;
     threadread_set := threadread_set s; post_set := post_set s;
     clock := clock s; log := log s |}.

Definition with_threadread (r : list ThreadRead) (s : State) : State :=
  {| objects := objects s; categoriesread_set := categoriesread_set s;
     threadread_set := r; post_set := post_set s;
     clock := clock s; log := log s |}.

Definition with_log (l : list Event) (s : State) : State :=
  {| objects := objects s; categoriesread_set := categoriesread_set s;
     threadread_set := threadread_set s; post_set := post_set s;
     clock := clock s; log := l |}.

(** A computation: runs from a state, returns a value or raises, and leaves a
    state (what an exception leaves behind is kept, as in Python). *)
Definition M (A : Type) : Type := State → Result A * State.

Definition ret {A} (a : A) : M A := λ s, (Ok a, s).

Definition bind {A B} (m : M A) (f : A → M B) : M B :=
  λ s, match m s with
       | (Ok a, s') => f a s'
       | (Raise e, s') => (Raise e, s')
       end.

Definition raise {A} (e : Exn) : M A := λ s, (Raise e, s).

(** [try: m except e: h]. *)
Definition try_except {A} (m : M A) (catches : Exn → bool) (h : M A) : M A :=
  λ s, match m s with
       | (Raise e, s') => if catches e then h s' else (Raise e, s')
       | r => r
       end.

#[global] Instance M_ret : MRet M := @ret.
#[global] Instance M_bind : MBind M := λ A B f m, bind m f.

Definition emit (e : Event) : M unit :=
  λ s, (Ok tt, with_log (log s ++ [e]) s).

Definition get_state : M State := λ s, (Ok s, s).

Definition put_threadread_set (rows : list ThreadRead) : M unit :=
  λ s, (Ok tt, with_threadread rows s).

Definition put_categoriesread_set (rows : list CategoryRead) : M unit :=
  λ s, (Ok tt, with_categoriesread rows s).

(** [for x in xs: body(x)]. *)
Fixpoint for_each {A} (xs : list A) (body : A → M unit) : M unit :=
  match xs with
  | [] => ret tt
  | x :: xs' => body x;; for_each xs' body
  end.

(** A loop that builds a local value ([threads_dict], [categories]). *)
Fixpoint for_fold {A B} (xs : list A) (acc : B) (body : B → A → M B) : M B :=
  match xs with
  | [] => ret acc
  | x :: xs' => acc' ← body acc x; for_fold xs' acc' body
  end.

(** Reading a thread object through its reference. *)
Definition deref (thread : nat) : M Thread :=
  λ s, match objects s !! thread with
       | Some t => (Ok t, s)
       | None => (Raise InvalidReference, s)
       end.

(** [thread.attr = v]: the object is changed in place, for every holder of
    the reference. *)
Definition setattr (thread : nat) (set : Thread → Thread) : M unit :=
  λ s, (Ok tt, with_objects (alter set thread (objects s)) s).

(** Reading an injected attribute raises [AttributeError] when it is not set. *)
Definition getattr {A} (name : string) (attr : Thread → option A)
    (thread : nat) : M A :=
  t ← deref thread;
  match attr t with
  | Some v => ret v
  | None => raise (AttributeError name)
  end.

(** ** Storage *)

(** [user.categoriesread_set.filter(category__in=categories)]. *)
Definition categoriesread_filter (categories : list Z) : M (list CategoryRead) :=
  emit (CategoryReadFilter categories);;
  s ← get_state;
  ret (filter (λ r, cr_category_id r ∈ categories) (categoriesread_set s)).

(** [user.categoriesread_set.get(category_id=...)]. *)
Definition categoriesread_get (category : Z) : M CategoryRead :=
  emit (CategoryReadGet category);;
  s ← get_state;
  match filter (λ r, cr_category_id r = category) (categoriesread_set s) with
  | [] => raise CategoryReadDoesNotExist
  | [r] => ret r
  | _ => raise MultipleObjectsReturned
  end.

(** The rows of [ThreadRead] as model instances, in primary-key order. *)
Definition threadread_objects (rows : list ThreadRead) : list ThreadReadObj :=
  imap (λ i r, {| tr_pk := i; tr_row := r |}) rows.

(** [user.threadread_set.filter(thread__in=threads)]. *)
Definition threadread_filter (threads : list Z) : M (list ThreadReadObj) :=
  emit (ThreadReadFilter threads);;
  s ← get_state;
  ret (filter (λ r, tr_thread_id (tr_row r) ∈ threads)
         (threadread_objects (threadread_set s))).

(** [user.threadread_set.get(thread=thread)]. *)
Definition threadread_get (thread : Z) : M ThreadReadObj :=
  emit (ThreadReadGet thread);;
  s ← get_state;
  match filter (λ r, tr_thread_id (tr_row r) = thread)
          (threadread_objects (threadread_set s)) with
  | [] => raise ThreadReadDoesNotExist
  | [r] => ret r
  | _ => raise MultipleObjectsReturned
  end.

(** [record.save(update_fields=['read_replies', 'last_read_on'])]: an UPDATE of
    the two columns of the row with the record's primary key; Django raises
    [DatabaseError] when it touches no row. *)
Definition threadread_save (record : ThreadReadObj) : M unit :=
  emit (ThreadReadSave record);;
  s ← get_state;
  match threadread_set s !! tr_pk record with
  | Some row =>
      put_threadread_set
        (<[tr_pk record :=
             {| tr_category_id := tr_category_id row;
                tr_thread_id := tr_thread_id row;
                tr_read_replies := tr_read_replies (tr_row record);
                tr_last_read_on := tr_last_read_on (tr_row record) |}]>
           (threadread_set s))
  | None => raise DatabaseError
  end.

(** [user.threadread_set.create(...)]. *)
Definition threadread_create (row : ThreadRead) : M unit :=
  emit (ThreadReadCreate row);;
  s ← get_state;
  put_threadread_set (threadread_set s ++ [row]).

(** [thread.post_set.filter(posted_on__lte=d).filter(is_moderated=False).count()]. *)
Definition post_count (thread : Z) (last_reply_date : Z) : M Z :=
  emit (PostCount thread last_reply_date);;
  s ← get_state;
  ret (Z.of_nat (length
    (filter (λ p, is_moderated p = false)
       (filter (λ p, posted_on p ≤ last_reply_date)
          (filter (λ p, post_thread_id p = thread) (post_set s)))))).

(** [@atomic]: what the body wrote to the tables is undone when it raises. *)
Definition atomic {A} (m : M A) : M A :=
  λ s, match m s with
       | (Raise e, s') =>
           (Raise e, with_threadread (threadread_set s)
                       (with_categoriesread (categoriesread_set s) s'))
       | r => r
       end.

(** ** [misago.readtracker.dates] *)

Module dates.

(** Modelled from the spec: [misago/readtracker/dates.py] is not among the
    sources.  "Returns false (untracked) when [content_date <=
    user.reads_cutoff].  If a [cutoff] timestamp is supplied, also returns
    false when [content_date <= cutoff].  Otherwise true." *)
Definition is_date_tracked (content_date : Z) (user : User)
    (cutoff : option Z) : bool :=
  if content_date <=? reads_cutoff user then false
  else match cutoff with
       | Some c => if content_date <=? c then false else true
       | None => true
       end.

End dates.

(** ** The tracker *)

(** What [make_read_aware] is handed: one thread, or something iterable. *)
Inductive Target :=
  | OneThread (thread : nat)
  | Threads (threads : list nat).

Section threadstracker.

(** The date policy of [misago.readtracker.dates], whose source is not at
    hand: the tracker is verified for any policy. *)
Variable is_date_tracked : Z → User → option Z → bool.

(** What [categoriestracker.start_record(user, category)] and
    [categoriestracker.sync_record(user, category)] leave in the user's
    [CategoryRead] table; their sources are not at hand either, and the
    tracker is verified whatever they write there. *)
Variable start_record_rows : User → Z → list CategoryRead → list CategoryRead.
Variable sync_record_rows : User → Z → State → list CategoryRead.

Definition categoriestracker_start_record (user : User) (category : Z) : M unit :=
  emit (StartRecord category);;
  s ← get_state;
  put_categoriesread_set (start_record_rows user category (categoriesread_set s)).

Definition categoriestracker_sync_record (user : User) (category : Z) : M unit :=
  emit (CategorySyncRecord category);;
  s ← get_state;
  put_categoriesread_set (sync_record_rows user category s).

Definition read_user_notifications (user : User) (triggers : list string)
    (atomic : bool) : M unit :=
  emit (ReadUserNotifications triggers atomic).

Definition make_read (threads : list nat) : M unit :=
  for_each threads (λ thread,
    setattr thread (set_unread_replies 0);;
    setattr thread (set_is_read true);;
    setattr thread (set_is_new false)).

Definition make_threads_dict_read_aware (user : User)
    (threads_dict : gmap Z nat) : M unit :=
  records ← threadread_filter (elements (dom threads_dict));
  for_each records (λ record,
    match threads_dict !! tr_thread_id (tr_row record) with
    | Some thread =>
        t ← deref thread;
        setattr thread (set_is_new false);;
        setattr thread
          (set_is_read (tr_last_read_on (tr_row record) >=? last_post_on t));;
        if tr_last_read_on (tr_row record) >=? last_post_on t then
          setattr thread (set_unread_replies 0)
        else
          setattr thread
            (set_unread_replies (replies t - tr_read_replies (tr_row record)));;
          if replies t - tr_read_replies (tr_row record) <? 1 then
            setattr thread (set_unread_replies 1)
          else mret tt
    | None => mret tt
    end).

(** The body of the loops of [make_category_threads_read_aware] and of
    [make_categories_threads_read_aware], which differ in the cutoff only. *)
Definition annotate_from_cutoff (user : User) (cutoff : option Z)
    (threads_dict : gmap Z nat) (thread : nat) : M (gmap Z nat) :=
  t ← deref thread;
  setattr thread
    (set_is_read (negb (is_date_tracked (last_post_on t) user cutoff)));;
  setattr thread (set_is_new true);;
  if negb (is_date_tracked (last_post_on t) user cutoff) then
    setattr thread (set_unread_replies 0);;
    mret threads_dict
  else
    setattr thread (set_unread_replies (replies t));;
    mret (<[pk t := thread]> threads_dict).

Definition make_category_threads_read_aware (user : User)
    (category : Category) (threads : list nat) : M unit :=
  if category_is_read category then make_read threads
  else
    threads_dict ← for_fold threads ∅ (λ threads_dict thread,
      annotate_from_cutoff user (category_last_read_on category)
        threads_dict thread);
    if bool_decide (threads_dict = ∅) then mret tt
    else make_threads_dict_read_aware user threads_dict.

Definition fetch_categories_cutoffs_for_threads (user : User)
    (threads : list nat) : M (gmap Z Z) :=
  categories ← for_fold threads [] (λ categories thread,
    t ← deref thread;
    if bool_decide (category_id t ∈ categories) then mret categories
    else mret (categories ++ [category_id t]));
  records ← categoriesread_filter categories;
  mret (foldl (λ categories_dict record,
                 <[cr_category_id record := cr_last_read_on record]>
                   categories_dict) ∅ records).

Definition make_categories_threads_read_aware (user : User)
    (threads : list nat) : M unit :=
  categories_cutoffs ← fetch_categories_cutoffs_for_threads user threads;
  threads_dict ← for_fold threads ∅ (λ threads_dict thread,
    t ← deref thread;
    annotate_from_cutoff user (categories_cutoffs !! category_id t)
      threads_dict thread);
  if bool_decide (threads_dict = ∅) then mret tt
  else make_threads_dict_read_aware user threads_dict.

Definition make_threads_read_aware (user : User) (threads : list nat)
    (category : option Category) : M unit :=
  match threads with
  | [] => mret tt
  | _ =>
      if is_anonymous user then make_read threads
      else match category with
           | Some category =>
               make_category_threads_read_aware user category threads
           | None => make_categories_threads_read_aware user threads
           end
  end.

Definition make_thread_read_aware (user : User) (thread : nat) : M unit :=
  setattr thread (set_is_read true);;
  setattr thread (set_is_new false);;
  setattr thread (set_read_record None);;
  (if is_anonymous user then
     s ← get_state;
     setattr thread (set_last_read_on (clock s))
   else setattr thread (set_last_read_on (reads_cutoff user)));;
  t ← deref thread;
  if is_authenticated user && is_date_tracked (last_post_on t) user None then
    setattr thread (set_is_read false);;
    setattr thread (set_is_new true);;
    try_except
      (category_record ← categoriesread_get (category_id t);
       if last_post_on t >? cr_last_read_on category_record then
         try_except
           (thread_record ← threadread_get (pk t);
            setattr thread
              (set_last_read_on (tr_last_read_on (tr_row thread_record)));;
            setattr thread (set_is_new false);;
            (if last_post_on t <=? tr_last_read_on (tr_row thread_record) then
               setattr thread (set_is_read true)
             else mret tt);;
            setattr thread (set_read_record (Some thread_record)))
           (λ e, match e with ThreadReadDoesNotExist => true | _ => false end)
           (mret tt)
       else
         setattr thread (set_is_read true);;
         setattr thread (set_is_new false))
      (λ e, match e with CategoryReadDoesNotExist => true | _ => false end)
      (categoriestracker_start_record user (category_id t))
  else mret tt.

Definition make_read_aware (user : User) (target : Target) : M unit :=
  match target with
  | Threads threads => make_threads_read_aware user threads None
  | OneThread thread => make_thread_read_aware user thread
  end.

(** The posts are values: a post's [is_read] depends on the post's own
    [posted_on] only, so a post listed twice gets the same mark twice.  The
    marks as the source makes them, in place, and with them what a call
    that raises leaves behind, are [make_posts_read_aware_in_place]. *)
Definition make_posts_read_aware (user : User) (thread : nat)
    (posts : list Post) : M (list Post) :=
  is_thread_read ←
    try_except (getattr "is_read" is_read thread)
      (λ e, match e with AttributeError _ => true | _ => false end)
      (raise (ValueError
         "thread passed make_posts_read_aware should be read aware too via make_thread_read_aware"));
  if is_thread_read : bool then
    mret (set_post_is_read true <$> posts)
  else
    for_fold posts [] (λ marked post,
      if is_date_tracked (posted_on post) user None then
        thread_last_read_on ← getattr "last_read_on" last_read_on thread;
        mret (marked ++ [set_post_is_read
                         (posted_on post <=? thread_last_read_on) post])
      else mret (marked ++ [set_post_is_read true post])).

Definition count_read_replies (user : User) (thread : nat)
    (last_read_reply : Post) : M Z :=
  t ← deref thread;
  count ← post_count (pk t) (posted_on last_read_reply);
  mret (count - 1).

Definition sync_record (user : User) (thread : nat)
    (last_read_reply : Post) : M unit :=
  atomic (
    t ← deref thread;
    read_replies ← count_read_replies user thread last_read_reply;
    read_record ← getattr "read_record" read_record thread;
    notification_triggers ←
      match read_record with
      | Some record =>
          setattr thread (set_read_record (Some
            {| tr_pk := tr_pk record;
               tr_row :=
                 {| tr_category_id := tr_category_id (tr_row record);
                    tr_thread_id := tr_thread_id (tr_row record);
                    tr_read_replies := read_replies;
                    tr_last_read_on := posted_on last_read_reply |} |}));;
          threadread_save
            {| tr_pk := tr_pk record;
               tr_row :=
                 {| tr_category_id := tr_category_id (tr_row record);
                    tr_thread_id := tr_thread_id (tr_row record);
                    tr_read_replies := read_replies;
                    tr_last_read_on := posted_on last_read_reply |} |};;
          mret ["read_thread_" +:+ pretty (pk t)]
      | None =>
          threadread_create
            {| tr_category_id := category_id t;
               tr_thread_id := pk t;
               tr_read_replies := read_replies;
               tr_last_read_on := posted_on last_read_reply |};;
          emit (SignalThreadTracked (pk t));;
          mret (["read_thread_" +:+ pretty (pk t)]
                  ++ ["see_thread_" +:+ pretty (pk t)])
      end;
    (if posted_on last_read_reply =? last_post_on t then
       emit (SignalThreadRead (pk t));;
       categoriestracker_sync_record user (category_id t)
     else mret tt);;
    read_user_notifications user notification_triggers false).

Definition read_thread (user : User) (thread : nat)
    (last_read_reply : Post) : M unit :=
  thread_is_read ← getattr "is_read" is_read thread;
  if negb thread_is_read then
    thread_last_read_on ← getattr "last_read_on" last_read_on thread;
    if thread_last_read_on <? posted_on last_read_reply then
      sync_record user thread last_read_reply
    else mret tt
  else mret tt.

End threadstracker.

(** ** Vocabulary of the properties *)

#[global] Instance ThreadRead_eq_dec : EqDecision ThreadRead.
Proof. solve_decision. Defined.
#[global] Instance ThreadReadObj_eq_dec : EqDecision ThreadReadObj.
Proof. solve_decision. Defined.
#[global] Instance Event_eq_dec : EqDecision Event.
Proof. solve_decision. Defined.

(** How many times an event occurs in a log. *)
Definition occurrences (e : Event) (events : list Event) : nat :=
  length (filter (λ e', e' = e) events).

(** The posts of a thread that are not moderated and were posted no later
    than a date. *)
Definition visible_posts_upto (s : State) (thread : Z) (date : Z) : list Post :=
  filter (λ p, post_thread_id p = thread ∧ is_moderated p = false
               ∧ posted_on p ≤ date) (post_set s).

(** The record [sync_record] writes back when one is attached to the thread. *)
Definition advanced_record (record : ThreadReadObj) (read_replies : Z)
    (last_read_reply : Post) : ThreadReadObj :=
  {| tr_pk := tr_pk record;
     tr_row := {| tr_category_id := tr_category_id (tr_row record);
                  tr_thread_id := tr_thread_id (tr_row record);
                  tr_read_replies := read_replies;
                  tr_last_read_on := posted_on last_read_reply |} |}.

(** The row [sync_record] creates when none is attached. *)
Definition created_row (t : Thread) (read_replies : Z)
    (last_read_reply : Post) : ThreadRead :=
  {| tr_category_id := category_id t;
     tr_thread_id := pk t;
     tr_read_replies := read_replies;
     tr_last_read_on := posted_on last_read_reply |}.

(** What the refinement pass makes of a thread for which [record] matches. *)
Definition refine (record : ThreadReadObj) (t : Thread) : Thread :=
  let read := tr_last_read_on (tr_row record) >=? last_post_on t in
  set_unread_replies
    (if read then 0 else Z.max 1 (replies t - tr_read_replies (tr_row record)))
    (set_is_read read (set_is_new false t)).

(** What the category-level pass makes of a thread, for a given cutoff. *)
Definition provisional (tracked : bool) (t : Thread) : Thread :=
  set_unread_replies (if tracked then replies t else 0)
    (set_is_new true (set_is_read (negb tracked) t)).

(** The stored record the refinement pass ends on for a thread id: the last
    one in iteration order (the only one, when records are unique). *)
Definition matching_record (s : State) (thread : Z) : option ThreadReadObj :=
  last (filter (λ r, tr_thread_id (tr_row r) = thread)
          (threadread_objects (threadread_set s))).

(** A [threads_dict] as the tracker builds it: every key is the [pk] of the
    thread object it refers to. *)
Definition keyed_by_pk (threads_dict : gmap Z nat) (s : State) : Prop :=
  ∀ k thread, threads_dict !! k = Some thread →
    ∃ t, objects s !! thread = Some t ∧ pk t = k.

(** The read-state invariant of an annotated thread. *)
Definition read_state_consistent (t : Thread) : Prop :=
  ∃ read unread,
    is_read t = Some read ∧ unread_replies t = Some unread
    ∧ (read = true → unread = 0)
    ∧ (read = false → 1 ≤ replies t → 1 ≤ unread).

(** What [make_read] makes of a thread. *)
Definition marked_read (t : Thread) : Thread :=
  set_is_new false (set_is_read true (set_unread_replies 0 t)).

(** One step of the loop of [make_threads_dict_read_aware], on the state. *)
Definition refine_step (threads_dict : gmap Z nat) (s : State)
    (record : ThreadReadObj) : State :=
  match threads_dict !! tr_thread_id (tr_row record) with
  | Some thread => with_objects (alter (refine record) thread (objects s)) s
  | None => s
  end.

(** Every reference held by a [threads_dict] names an object. *)
Definition refs_valid (threads_dict : gmap Z nat) (s : State) : Prop :=
  ∀ k thread, threads_dict !! k = Some thread → is_Some (objects s !! thread).

(** Whether the date policy tracks a thread, for the cutoff that applies. *)
Definition tracked (is_date_tracked : Z → User → option Z → bool)
    (user : User) (cutoff_of : Thread → option Z) (t : Thread) : bool :=
  is_date_tracked (last_post_on t) user (cutoff_of t).

(** One step of the loop of the category-level pass, on [threads_dict] and
    the state. *)
Definition provisional_step (is_date_tracked : Z → User → option Z → bool)
    (user : User) (cutoff_of : Thread → option Z)
    (acc : gmap Z nat * State) (thread : nat) : gmap Z nat * State :=
  match objects acc.2 !! thread with
  | Some t =>
      (if tracked is_date_tracked user cutoff_of t
       then <[pk t := thread]> acc.1 else acc.1,
       with_objects
         (alter (provisional (tracked is_date_tracked user cutoff_of t))
            thread (objects acc.2)) acc.2)
  | None => acc
  end.

(** The mark [make_posts_read_aware] gives a post of an unread thread whose
    watermark is [thread_last_read_on]: read when the date policy does not
    track the post, or when the post is not later than the watermark. *)
Definition mark_post (is_date_tracked : Z → User → option Z → bool)
    (user : User) (thread_last_read_on : Z) (post : Post) : Post :=
  set_post_is_read
    (negb (is_date_tracked (posted_on post) user None)
     || (posted_on post <=? thread_last_read_on)) post.

(** The usage error of [make_posts_read_aware]. *)
Definition not_read_aware : Exn :=
  ValueError
    "thread passed make_posts_read_aware should be read aware too via make_thread_read_aware".

(** No stored [ThreadRead] row lost ground: every row of [before] is still
    there in [after], for the same thread, with a [last_read_on] that is equal
    or later. *)
Definition rows_never_regress (before after : list ThreadRead) : Prop :=
  ∀ i row, before !! i = Some row →
    ∃ row', after !! i = Some row'
      ∧ tr_thread_id row' = tr_thread_id row
      ∧ tr_last_read_on row ≤ tr_last_read_on row'.

(** The thread's annotation agrees with the store: the row of the record
    attached to it is stored, and the thread's [last_read_on] is that row's. *)
Definition annotation_consistent (s : State) (thread : nat) : Prop :=
  ∀ t record,
    objects s !! thread = Some t →
    read_record t = Some (Some record) →
    ∃ row, threadread_set s !! tr_pk record = Some row
      ∧ last_read_on t = Some (tr_last_read_on row).

(** A thread read reply after reply, each time as a request does it: the
    thread is annotated with [make_thread_read_aware], then [read_thread] is
    called; the state is carried on however a call ends. *)
Fixpoint read_in_turn (is_date_tracked : Z → User → option Z → bool)
    (start_record_rows : User → Z → list CategoryRead → list CategoryRead)
    (sync_record_rows : User → Z → State → list CategoryRead)
    (user : User) (thread : nat) (replies : list Post) (s : State) : State :=
  match replies with
  | [] => s
  | reply :: replies =>
      read_in_turn is_date_tracked start_record_rows sync_record_rows user
        thread replies
        (read_thread sync_record_rows user thread reply
           (make_thread_read_aware is_date_tracked start_record_rows
              user thread s).2).2
  end.

(** The watermarks stored for a thread: the [last_read_on] of the
    [ThreadRead] rows that [user.threadread_set] holds for it, in primary-key
    order. *)
Definition thread_watermarks (s : State) (thread : Z) : list Z :=
  (λ r, tr_last_read_on (tr_row r))
    <$> filter (λ r, tr_thread_id (tr_row r) = thread)
          (threadread_objects (threadread_set s)).

(** A store kept as the tracker expects it for a thread: exactly one
    [CategoryRead] for the thread's category and at most one [ThreadRead]
    for the thread. *)
Definition well_kept (s : State) (category thread : Z) : Prop :=
  (∃ category_record,
     filter (λ r, cr_category_id r = category) (categoriesread_set s)
     = [category_record])
  ∧ Nat.le (length (thread_watermarks s thread)) 1.

(** [categoriestracker.sync_record] updates the one row of a category and
    leaves it the one row. *)
Definition cascade_keeps_category
    (sync_record_rows : User → Z → State → list CategoryRead)
    (user : User) (category : Z) : Prop :=
  ∀ s,
    (∃ category_record,
       filter (λ r, cr_category_id r = category) (categoriesread_set s)
       = [category_record]) →
    ∃ category_record,
      filter (λ r, cr_category_id r = category)
        (sync_record_rows user category s)
      = [category_record].

(** The thread's stored watermark did not move back: if there was one
    before, there is exactly one after, equal or later. *)
Definition watermark_never_decreased (before after : list Z) : Prop :=
  ∀ w, w ∈ before → ∃ w', after = [w'] ∧ w ≤ w'.

(** ** Vocabulary of the further properties *)

(** One step of the first loop of [fetch_categories_cutoffs_for_threads], on
    the [categories] list and the state. *)
Definition collect_category (acc : list Z * State) (thread : nat) :
    list Z * State :=
  match objects acc.2 !! thread with
  | Some t =>
      (if bool_decide (category_id t ∈ acc.1) then acc.1
       else acc.1 ++ [category_id t], acc.2)
  | None => acc
  end.

(** The stored watermark the batch path ends on for a category: the last
    matching row in iteration order (the only one, when rows are unique). *)
Definition stored_category_cutoff (s : State) (category : Z) : option Z :=
  cr_last_read_on
    <$> last (filter (λ r, cr_category_id r = category) (categoriesread_set s)).

(** The cutoff the batch path applies to a thread: the known category's
    [last_read_on], or else the stored watermark of the thread's category. *)
Definition batch_cutoff (s : State) (category : option Category)
    (t : Thread) : option Z :=
  match category with
  | Some category => category_last_read_on category
  | None => stored_category_cutoff s (category_id t)
  end.

(** What batch annotation makes of a thread for a member, when the known
    category (if any) is not read: the category-level pass, then the
    refinement by the stored record if the thread came out unread. *)
Definition batch_annotated (is_date_tracked : Z → User → option Z → bool)
    (user : User) (s : State) (category : option Category) (t : Thread) :
    Thread :=
  if is_date_tracked (last_post_on t) user (batch_cutoff s category t) then
    match matching_record s (pk t) with
    | Some record => refine record t
    | None => provisional true t
    end
  else provisional false t.

(** Two states of a thread object that differ in [is_read], [is_new] and
    [unread_replies] at most. *)
Definition same_but_read_state (t t' : Thread) : Prop :=
  pk t' = pk t ∧ category_id t' = category_id t
  ∧ last_post_on t' = last_post_on t ∧ replies t' = replies t
  ∧ last_read_on t' = last_read_on t ∧ read_record t' = read_record t.

(** The threads of a batch have distinct primary keys. *)
Definition distinct_pks (threads : list nat) (s : State) : Prop :=
  ∀ thread1 thread2 t1 t2,
    thread1 ∈ threads → thread2 ∈ threads →
    objects s !! thread1 = Some t1 → objects s !! thread2 = Some t2 →
    pk t1 = pk t2 → thread1 = thread2.

(** A thread object carrying every attribute the single-thread path gives:
    [is_read], [is_new], [last_read_on] and [read_record]. *)
Definition fully_annotated (t : Thread) : Prop :=
  is_Some (is_read t) ∧ is_Some (is_new t)
  ∧ is_Some (last_read_on t) ∧ is_Some (read_record t).

(** Two posts that differ in the injected [is_read] at most. *)
Definition same_post (p p' : Post) : Prop :=
  post_thread_id p' = post_thread_id p ∧ posted_on p' = posted_on p
  ∧ is_moderated p' = is_moderated p.

(** ** The posts as objects

    [make_posts_read_aware] marks the post objects it is given in place, so
    the marks it has made when it raises stay.  Here the post objects live in
    a store of their own and [posts] are references into it; the thread is
    read through the tracker's state, which the call does not change.  On
    the paths that return, the marks are those [make_posts_read_aware]
    returns. *)

Section posts_in_place.

Variable is_date_tracked : Z → User → option Z → bool.

(** [for post in posts: post.is_read = True]. *)
Fixpoint mark_posts_read (posts : list nat) (post_objects : gmap nat Post) :
    gmap nat Post :=
  match posts with
  | [] => post_objects
  | post :: posts' =>
      mark_posts_read posts' (alter (set_post_is_read true) post post_objects)
  end.

(** The loop over the posts of an unread thread: [thread.last_read_on] is
    read for a tracked post only, and an exception leaves the loop with the
    posts marked so far. *)
Fixpoint mark_posts (user : User) (thread : nat) (s : State)
    (posts : list nat) (post_objects : gmap nat Post) :
    Result unit * gmap nat Post :=
  match posts with
  | [] => (Ok tt, post_objects)
  | post :: posts' =>
      match post_objects !! post with
      | None => (Raise InvalidReference, post_objects)
      | Some p =>
          if is_date_tracked (posted_on p) user None then
            match (getattr "last_read_on" last_read_on thread s).1 with
            | Ok thread_last_read_on =>
                mark_posts user thread s posts'
                  (alter (set_post_is_read
                            (posted_on p <=? thread_last_read_on))
                     post post_objects)
            | Raise e => (Raise e, post_objects)
            end
          else
            mark_posts user thread s posts'
              (alter (set_post_is_read true) post post_objects)
      end
  end.

Definition make_posts_read_aware_in_place (user : User) (thread : nat)
    (posts : list nat) (s : State) (post_objects : gmap nat Post) :
    Result unit * gmap nat Post :=
  match (try_except (getattr "is_read" is_read thread)
           (λ e, match e with AttributeError _ => true | _ => false end)
           (raise (ValueError
              "thread passed make_posts_read_aware should be read aware too via make_thread_read_aware"))
           s).1 with
  | Raise e => (Raise e, post_objects)
  | Ok is_thread_read =>
      if is_thread_read : bool then (Ok tt, mark_posts_read posts post_objects)
      else mark_posts user thread s posts post_objects
  end.

End posts_in_place.

(** The post objects behind a list of references, in order. *)
Definition listed (post_objects : gmap nat Post) (posts : list nat) :
    list Post :=
  omap (λ post, post_objects !! post) posts.

(** A reference to a post that the date policy does not track. *)
Definition untracked (is_date_tracked : Z → User → option Z → bool)
    (user : User) (post_objects : gmap nat Post) (post : nat) : Prop :=
  ∃ p, post_objects !! post = Some p
       ∧ is_date_tracked (posted_on p) user None = false.

(** * The forms: [misago/forums/forms.py] and [misago/users/forms/modusers.py]

    The [clean] methods of the forum forms and of the ban form.  A form's
    [cleaned_data] is a dictionary from field names to values; a method
    returns a value or raises. *)

Module forms.

(** The message handed to [ValidationError]: a translated text, or
    [ungettext(singular, plural, count) % {..: count}]. *)
Inductive Message :=
  | Text (message : string)
  | Plural (singular plural : string) (count : Z).

Inductive FormExn :=
  | ValidationError (message : Message)
  | KeyError (key : string)
  | AttributeError (attr : string)
  | OverflowError.

Inductive Outcome (A : Type) :=
  | Returns (a : A)
  | Raises (e : FormExn).
Arguments Returns {A} a.
Arguments Raises {A} e.

#[global] Instance Outcome_ret : MRet Outcome := @Returns.
#[global] Instance Outcome_bind : MBind Outcome :=
  λ A B f m, match m with
             | Returns a => f a
             | Raises e => Raises e
             end.

(** The fields of a [Forum] that the [clean] methods read.  [forum_pk] is
    [None] for an instance that is not saved yet. *)
Record Forum := {
  forum_pk : option Z;
  level : Z;
  role : string;
  special_role : option string }.

(** A value of [cleaned_data]. *)
Inductive Value :=
  | VNone
  | VStr (s : string)
  | VInt (n : Z)
  | VBool (b : bool)
  | VForum (f : Forum).

#[global] Instance Forum_eq_dec : EqDecision Forum.
Proof. solve_decision. Defined.
#[global] Instance Value_eq_dec : EqDecision Value.
Proof. solve_decision. Defined.

(** Python's truth value: [None], the empty string, [0] and [False] are
    false; a model instance is true. *)
Definition truthy (v : Value) : bool :=
  match v with
  | VNone => false
  | VStr s => negb (bool_decide (s = ""))
  | VInt n => negb (n =? 0)
  | VBool b => b
  | VForum _ => true
  end.

(** [data.get(key)]. *)
Definition get (data : gmap string Value) (key : string) : Value :=
  default VNone (data !! key).

(** [data[key]]. *)
Definition item (data : gmap string Value) (key : string) : Outcome Value :=
  match data !! key with
  | Some v => Returns v
  | None => Raises (KeyError key)
  end.

(** The value as a forum, for reading the attribute [attr] of it: anything
    but a forum has no such attribute. *)
Definition as_forum (attr : string) (v : Value) : Outcome Forum :=
  match v with
  | VForum f => Returns f
  | _ => Raises (AttributeError attr)
  end.

(** [for x in xs: body(x)]. *)
Fixpoint for_all {A} (xs : list A) (body : A → Outcome unit) : Outcome unit :=
  match xs with
  | [] => Returns tt
  | x :: xs' => body x;; for_all xs' body
  end.

End forms.

(** ** [ForumFormBase] *)

Module ForumFormBase.
Import forms.

(** The fields of the form [ForumFormFactory] builds: those of [Meta.fields]
    and the three the factory adds.  They are the keys [cleaned_data] can
    have. *)
Definition fields : list string :=
  ["role"; "name"; "description"; "redirect_url"; "css_class"; "is_closed";
   "prune_started_after"; "prune_replied_after"; "archive_pruned_in";
   "new_parent"; "copy_permissions"].

Section clean.

(** [Forum.set_name] and [Forum.set_description], of the forum model. *)
Variable set_name : Value → Forum → Forum.
Variable set_description : Value → Forum → Forum.

(** [ForumFormBase.clean]: the outcome, and the form's instance as the call
    leaves it. *)
Definition clean (instance : Forum) (cleaned_data : gmap string Value) :
    Outcome (gmap string Value) * Forum :=
  let data := cleaned_data in
  let instance := set_name (get data "name") instance in
  let instance := set_description (get data "description") instance in
  (role ← item data "role";
   (if negb (bool_decide (role = VStr "category")) then
      new_parent ← item data "new_parent";
      new_parent ← as_forum "level" new_parent;
      if negb (truthy (VInt (level new_parent))) then
        Raises (ValidationError
                  (Text "Only categories can have no parent category."))
      else mret tt
    else mret tt);;
   role ← item data "role";
   (if bool_decide (role = VStr "redirect") then
      if negb (truthy (get data "redirect")) then
        Raises (ValidationError
                  (Text "This forum is redirect, yet you haven't specified URL to which it should redirect after click."))
      else mret tt
    else mret tt);;
   mret data,
   instance).

End clean.

End ForumFormBase.

(** ** [DeleteForumFormBase] *)

Module DeleteForumFormBase.
Import forms.

Section clean.

(** [Forum.has_child] of the forum model and [get_children] of the tree. *)
Variable has_child : Forum → Forum → bool.
Variable get_children : Forum → list Forum.

Definition clean (instance : Forum) (cleaned_data : gmap string Value) :
    Outcome (gmap string Value) :=
  let data := cleaned_data in
  (if truthy (get data "move_threads_to") then
     move_threads_to ← item data "move_threads_to";
     move_threads_to ← as_forum "pk" move_threads_to;
     if bool_decide (forum_pk move_threads_to = forum_pk instance) then
       Raises (ValidationError
                 (Text "You are trying to move this forum threads to itself."))
     else if bool_decide (role move_threads_to = "category") then
       Raises (ValidationError (Text "Threads can't be moved to category."))
     else if bool_decide (role move_threads_to = "redirect") then
       Raises (ValidationError (Text "Threads can't be moved to redirect."))
     else
       let moving_to_child := has_child instance move_threads_to in
       if moving_to_child && negb (truthy (get data "move_children_to")) then
         Raises (ValidationError
                   (Text "You are trying to move this forum threads to a child forum that will be deleted together with this forum."))
       else mret tt
   else mret tt);;
  (if truthy (get data "move_children_to") then
     move_children_to ← item data "move_children_to";
     move_children_to ← as_forum "special_role" move_children_to;
     if bool_decide (special_role move_children_to = Some "root_category") then
       for_all (get_children instance) (λ child,
         if negb (bool_decide (role child = "category")) then
           Raises (ValidationError
                     (Text "One or more child forums in forum are not categories and thus cannot be made root categories."))
         else mret tt)
     else mret tt
   else mret tt);;
  mret data.

End clean.

End DeleteForumFormBase.

(** ** [BanForm] *)

Module BanForm.
Import forms.

(** A [date] is its proleptic Gregorian ordinal, from [date.min] (day 1) to
    [date.max] (9999-12-31, day 3652059).  A [datetime] is a number of
    microseconds counted from the start of day 0, so that [.date()] is the
    day the instant falls in. *)
Definition date_min : Z := 1.
Definition date_max : Z := 3652059.
Definition microseconds_per_day : Z := 86400000000.

Definition date (t : Z) : Z := t / microseconds_per_day.

(** [timedelta(days=n)]: [OverflowError] beyond 999999999 days either way. *)
Definition timedelta (days : Z) : Outcome Z :=
  if Z.abs days >? 999999999 then Raises OverflowError
  else Returns (days * microseconds_per_day).

(** [datetime + timedelta]: [OverflowError] when the sum leaves the years 1
    to 9999. *)
Definition datetime_add (t delta : Z) : Outcome Z :=
  if (date (t + delta) <? date_min) || (date (t + delta) >? date_max)
  then Raises OverflowError
  else Returns (t + delta).

(** [BanForm.clean_valid_until], with [self.user.acl_['max_ban_length']],
    [timezone.now()] and [self.cleaned_data['valid_until']] ([None] or a
    date).  In [not data or data > (now + max_ban_length).date()] the sum is
    computed only when there is a date. *)
Definition clean_valid_until (acl_max_ban_length : Z) (now : Z)
    (data : option Z) : Outcome (option Z) :=
  if negb (acl_max_ban_length =? 0) then
    max_ban_length ← timedelta acl_max_ban_length;
    too_long ←
      match data with
      | None => mret true
      | Some d =>
          limit ← datetime_add now max_ban_length;
          mret (d >? date limit)
      end;
    if too_long : bool then
      Raises (ValidationError
                (Plural "You can't set bans longer than %(days)s day."
                        "You can't set bans longer than %(days)s days."
                        acl_max_ban_length))
    else Returns data
  else
    if match data with
       | None => false
       | Some d => d <? date now
       end
    then Raises (ValidationError (Text "Expiration date is in past."))
    else Returns data.

End BanForm.

(** ** Sample data

    A member and a guest, a thread in category 1 with three visible posts and a
    moderated one, and stand-ins for the two calls into the categories
    tracker. *)

Module sample.

Definition member : User := {| user_is_anonymous := false; reads_cutoff := 0 |}.
Definition guest : User := {| user_is_anonymous := true; reads_cutoff := 0 |}.

(** A member whose tracking horizon is later than thread 7's last post. *)
Definition late_member : User := {| user_is_anonymous := false; reads_cutoff := 20 |}.

Definition start_rows (user : User) (category : Z)
    (rows : list CategoryRead) : list CategoryRead :=
  rows ++ [{| cr_category_id := category; cr_last_read_on := reads_cutoff user |}].

Definition sync_rows (user : User) (category : Z) (s : State) :
    list CategoryRead :=
  categoriesread_set s.

Definition fresh_thread (pk category_id last_post_on replies : Z) : Thread :=
  {| pk := pk; category_id := category_id; last_post_on := last_post_on;
     replies := replies; is_read := None; is_new := None;
     unread_replies := None; last_read_on := None; read_record := None |}.

Definition post (thread posted_on : Z) (is_moderated : bool) : Post :=
  {| post_thread_id := thread; posted_on := posted_on;
     is_moderated := is_moderated; post_is_read := None |}.

Definition posts : list Post :=
  [post 7 4 false; post 7 6 false; post 7 8 true; post 7 10 false; post 9 5 true].

Definition row7 : ThreadRead :=
  {| tr_category_id := 1; tr_thread_id := 7; tr_read_replies := 0;
     tr_last_read_on := 4 |}.

(** Thread 7 as [make_thread_read_aware] leaves it for [member] when [row7]
    is stored and the category was read up to 2. *)
Definition tracked_thread : Thread :=
  {| pk := 7; category_id := 1; last_post_on := 10; replies := 2;
     is_read := Some false; is_new := Some false; unread_replies := None;
     last_read_on := Some 4;
     read_record := Some (Some {| tr_pk := 0; tr_row := row7 |}) |}.

(** Thread 7 as [make_thread_read_aware] leaves it when no row is stored. *)
Definition new_thread : Thread :=
  {| pk := 7; category_id := 1; last_post_on := 10; replies := 2;
     is_read := Some false; is_new := Some true; unread_replies := None;
     last_read_on := Some 0; read_record := Some None |}.

Definition store (threads : list Thread) (category_rows : list CategoryRead)
    (thread_rows : list ThreadRead) : State :=
  {| objects := list_to_map (imap (λ i t, (i, t)) threads);
     categoriesread_set := category_rows;
     threadread_set := thread_rows;
     post_set := posts;
     clock := 100;
     log := [] |}.

(** Thread 7 as batch annotation leaves it for [member] when nothing is
    stored: unread, and without [last_read_on] or [read_record]. *)
Definition batch_thread : Thread :=
  {| pk := 7; category_id := 1; last_post_on := 10; replies := 10;
     is_read := Some false; is_new := Some true; unread_replies := Some 10;
     last_read_on := None; read_record := None |}.

Definition row7_three_read : ThreadRead :=
  {| tr_category_id := 1; tr_thread_id := 7; tr_read_replies := 3;
     tr_last_read_on := 4 |}.

Definition category1_read_to_20 : list CategoryRead :=
  [{| cr_category_id := 1; cr_last_read_on := 20 |}].

Definition category1_read_to_2 : list CategoryRead :=
  [{| cr_category_id := 1; cr_last_read_on := 2 |}].

End sample.

(** ** Sample post objects

    A post older than the member's tracking horizon, then the posts of
    thread 7 at 6 and at 10; and a [ThreadRead] of thread 7 read up to 8. *)

Module sample_posts.

Definition old_post : Post := sample.post 7 (-1) false.

Definition post_objects : gmap nat Post :=
  <[0%nat := old_post]>
    (<[1%nat := sample.post 7 6 false]>
       (<[2%nat := sample.post 7 10 false]> ∅)).

Definition row7_read_to_8 : ThreadRead :=
  {| tr_category_id := 1; tr_thread_id := 7; tr_read_replies := 1;
     tr_last_read_on := 8 |}.

End sample_posts.

(** ** Sample data for the forms

    The root category, a category under it, two forums under that, and
    cleaned data for three forms. *)

Module sample_forms.
Import forms.

Definition keep : Value → Forum → Forum := λ _ forum, forum.

Definition root : Forum :=
  {| forum_pk := Some 1; level := 0; role := "category";
     special_role := Some "root_category" |}.

Definition category : Forum :=
  {| forum_pk := Some 2; level := 1; role := "category";
     special_role := None |}.

Definition forum : Forum :=
  {| forum_pk := Some 3; level := 2; role := "forum"; special_role := None |}.

Definition other_forum : Forum :=
  {| forum_pk := Some 4; level := 2; role := "forum"; special_role := None |}.

(** A forum put under [category]. *)
Definition forum_data : gmap string Value :=
  <["role" := VStr "forum"]> (<["new_parent" := VForum category]> ∅).

(** A redirect put under [category], with its URL. *)
Definition redirect_data : gmap string Value :=
  <["role" := VStr "redirect"]>
    (<["redirect_url" := VStr "http://example.com/"]>
       (<["new_parent" := VForum category]> ∅)).

(** The threads of a deleted forum go to [other_forum]. *)
Definition delete_data : gmap string Value :=
  <["move_threads_to" := VForum other_forum]> ∅.

End sample_forms.

(** * Properties *)

#[local] Set Warnings "-clear-no-such-hyp".

Ltac msimpl :=
  cbv beta iota zeta delta
    [mbind M_bind bind mret M_ret ret raise emit get_state setattr
     put_threadread_set put_categoriesread_set deref getattr try_except
     atomic post_count threadread_save threadread_create threadread_get
     threadread_filter categoriesread_get categoriesread_filter
     categoriestracker_start_record categoriestracker_sync_record
     read_user_notifications
     with_objects with_log with_threadread with_categoriesread];
  cbn [objects categoriesread_set threadread_set post_set clock log
       tr_pk tr_row tr_category_id tr_thread_id tr_read_replies tr_last_read_on].

Ltac tsimpl :=
  msimpl;
  rewrite ?lookup_alter_eq;
  cbn [fmap option_fmap option_map pk category_id last_post_on replies
       is_read is_new unread_replies last_read_on read_record set_is_read
       set_is_new set_unread_replies set_last_read_on set_read_record].

Ltac filter_events :=
  repeat first
    [ rewrite filter_nil
    | rewrite filter_cons_True by done
    | rewrite filter_cons_False by done ].

(** ** Running computations *)

Lemma bind_run {A B} (m : M A) (f : A → M B) s a s1 :
  m s = (Ok a, s1) → (m ≫= f) s = f a s1.
Proof. intros H. unfold mbind, M_bind, bind. by rewrite H. Qed.

Lemma for_each_run {A} (I : State → Prop) (xs : list A)
    (body : A → M unit) (step : State → A → State) :
  (∀ x s, x ∈ xs → I s → body x s = (Ok tt, step s x) ∧ I (step s x)) →
  ∀ s, I s → for_each xs body s = (Ok tt, foldl step s xs) ∧ I (foldl step s xs).
Proof.
  induction xs as [|x xs IH]; intros Hbody s Hs; [done|].
  cbn [for_each foldl]. msimpl.
  destruct (Hbody x s) as [-> Hs']; [left|done|].
  apply IH; [|done]. intros y s' Hy. apply Hbody. by right.
Qed.

Lemma for_fold_run {A B} (I : State → Prop) (xs : list A)
    (body : B → A → M B) (step : B * State → A → B * State) :
  (∀ x b s, x ∈ xs → I s →
     body b x s = (Ok (step (b, s) x).1, (step (b, s) x).2)
     ∧ I (step (b, s) x).2) →
  ∀ b s, I s →
    for_fold xs b body s
      = (Ok (foldl step (b, s) xs).1, (foldl step (b, s) xs).2)
    ∧ I (foldl step (b, s) xs).2.
Proof.
  induction xs as [|x xs IH]; intros Hbody b s Hs; [done|].
  cbn [for_fold foldl]. msimpl.
  destruct (Hbody x b s) as [-> Hs']; [left|done|].
  destruct (step (b, s) x) as [b' s'] eqn:Hstep. cbn [fst snd] in *.
  apply IH; [|done]. intros y b'' s'' Hy. apply Hbody. by right.
Qed.

Lemma alter_alter (f g : Thread → Thread) (thread : nat) (o : gmap nat Thread) :
  alter f thread (alter g thread o) = alter (λ x, f (g x)) thread o.
Proof.
  apply map_eq. intros l. destruct (decide (thread = l)) as [<-|].
  - rewrite !lookup_alter_eq. by destruct (o !! thread).
  - by rewrite !lookup_alter_ne.
Qed.

(** ** The write path *)

Lemma post_count_visible s thread date :
  length (filter (λ p, is_moderated p = false)
            (filter (λ p, posted_on p ≤ date)
               (filter (λ p, post_thread_id p = thread) (post_set s))))
  = length (visible_posts_upto s thread date).
Proof.
  unfold visible_posts_upto. induction (post_set s) as [|p ps IH]; [done|].
  rewrite !filter_cons.
  repeat (case_decide; rewrite ?filter_cons; cbn [length]);
    try (exfalso; tauto); congruence.
Qed.

Section write_path.

Variable sync_record_rows : User → Z → State → list CategoryRead.

(** What one completed [sync_record] leaves: the rows, the objects and the
    events, in the order of the source. *)
Lemma sync_record_run user thread reply s t attached :
  objects s !! thread = Some t →
  read_record t = Some attached →
  (∀ record, attached = Some record →
     is_Some (threadread_set s !! tr_pk record)) →
  let n := Z.of_nat (length (visible_posts_upto s (pk t) (posted_on reply))) - 1 in
  ∃ s', sync_record sync_record_rows user thread reply s = (Ok tt, s')
    ∧ objects s' =
        match attached with
        | Some record =>
            alter (set_read_record (Some (advanced_record record n reply)))
              thread (objects s)
        | None => objects s
        end
    ∧ post_set s' = post_set s
    ∧ threadread_set s' =
        match attached with
        | Some record =>
            match threadread_set s !! tr_pk record with
            | Some row =>
                <[tr_pk record :=
                    {| tr_category_id := tr_category_id row;
                       tr_thread_id := tr_thread_id row;
                       tr_read_replies := n;
                       tr_last_read_on := posted_on reply |}]> (threadread_set s)
            | None => threadread_set s
            end
        | None => threadread_set s ++ [created_row t n reply]
        end
    ∧ log s' = log s
        ++ [PostCount (pk t) (posted_on reply)]
        ++ match attached with
           | Some record => [ThreadReadSave (advanced_record record n reply)]
           | None => [ThreadReadCreate (created_row t n reply);
                      SignalThreadTracked (pk t)]
           end
        ++ (if posted_on reply =? last_post_on t
            then [SignalThreadRead (pk t); CategorySyncRecord (category_id t)]
            else [])
        ++ [ReadUserNotifications
              (["read_thread_" +:+ pretty (pk t)]
                 ++ match attached with
                    | Some _ => []
                    | None => ["see_thread_" +:+ pretty (pk t)]
                    end) false].
Proof.
  intros Ht Hr Hrow n. unfold sync_record, count_read_replies.
  repeat (progress (msimpl; rewrite ?Ht, ?Hr)). rewrite post_count_visible.
  fold n. destruct attached as [record|].
  - destruct (Hrow record eq_refl) as [row Hrow'].
    msimpl. rewrite Hrow'. msimpl.
    destruct (posted_on reply =? last_post_on t); msimpl;
      eexists; (split; [reflexivity|]); cbn; rewrite <- ?app_assoc; auto.
  - destruct (posted_on reply =? last_post_on t); msimpl;
      eexists; (split; [reflexivity|]); cbn; rewrite <- ?app_assoc; auto.
Qed.

(** C5 (as amended). Every [sync_record] that completes, that is on a thread
    that carries [read_record] and whose attached record, if any, still has
    its row, clears notifications once, for a trigger list that holds
    ["read_thread_<pk>"]; the list holds ["see_thread_<pk>"], and the
    thread-tracked signal is sent, exactly when no [ThreadRead] record is
    attached to the thread object (the creation branch), whatever the store
    holds for the thread; the thread-read signal is sent and the category
    tracker's [sync_record] is called once when
    [last_read_reply.posted_on == thread.last_post_on], and not at all
    otherwise. *)
Theorem sync_record_triggers_and_signals user thread reply s t attached :
  objects s !! thread = Some t →
  read_record t = Some attached →
  (∀ record, attached = Some record →
     is_Some (threadread_set s !! tr_pk record)) →
  ∃ s' events triggers,
    sync_record sync_record_rows user thread reply s = (Ok tt, s')
    ∧ log s' = log s ++ events
    ∧ filter (λ e, is_notification_clear e = true) events
        = [ReadUserNotifications triggers false]
    ∧ "read_thread_" +:+ pretty (pk t) ∈ triggers
    ∧ ("see_thread_" +:+ pretty (pk t) ∈ triggers ↔ attached = None)
    ∧ (SignalThreadTracked (pk t) ∈ events ↔ attached = None)
    ∧ occurrences (SignalThreadRead (pk t)) events
        = (if decide (posted_on reply = last_post_on t) then 1 else 0)%nat
    ∧ occurrences (CategorySyncRecord (category_id t)) events
        = (if decide (posted_on reply = last_post_on t) then 1 else 0)%nat.
Proof.
  intros Ht Hr Hrow.
  destruct (sync_record_run user thread reply s t attached Ht Hr Hrow)
    as (s' & Hrun & _ & _ & _ & Hlog).
  assert (Hkeys : "see_thread_" +:+ pretty (pk t)
                    ≠ "read_thread_" +:+ pretty (pk t)) by done.
  unfold occurrences.
  destruct attached as [record|];
    destruct (Z.eqb_spec (posted_on reply) (last_post_on t)) as [Heq|Hne];
    destruct (decide (posted_on reply = last_post_on t)); try done;
    (eexists s', _, _; split; [exact Hrun|]; split; [exact Hlog|]);
    cbn [app]; filter_events;
    (split; [reflexivity|]);
    repeat (first [split; [set_solver|] | split; [done|]]); done.
Qed.

(** C10. [sync_record] stores as [read_replies] the number of posts of the
    thread that are not moderated and were posted no later than
    [last_read_reply], minus one, with no lower bound: [-1] when there is no
    such post.  The row is the attached record's, or else the created one. *)
Theorem sync_record_stores_read_replies user thread reply s t attached :
  objects s !! thread = Some t →
  read_record t = Some attached →
  (∀ record, attached = Some record →
     is_Some (threadread_set s !! tr_pk record)) →
  ∃ s' row,
    sync_record sync_record_rows user thread reply s = (Ok tt, s')
    ∧ threadread_set s'
        !! match attached with
           | Some record => tr_pk record
           | None => length (threadread_set s)
           end = Some row
    ∧ tr_read_replies row
        = Z.of_nat (length (visible_posts_upto s (pk t) (posted_on reply))) - 1
    ∧ (visible_posts_upto s (pk t) (posted_on reply) = [] →
       tr_read_replies row = -1).
Proof.
  intros Ht Hr Hrow.
  destruct (sync_record_run user thread reply s t attached Ht Hr Hrow)
    as (s' & Hrun & _ & _ & Hrows & _).
  exists s'. destruct attached as [record|].
  - destruct (Hrow record eq_refl) as [row Hrow']. rewrite Hrow' in Hrows.
    eexists. split; [exact Hrun|]. rewrite Hrows. split.
    + apply list_lookup_insert_eq. by eapply lookup_lt_Some.
    + cbn. split; [done|]. by intros ->.
  - eexists. split; [exact Hrun|]. rewrite Hrows. split.
    + by rewrite lookup_app_r, Nat.sub_diag.
    + cbn. split; [done|]. by intros ->.
Qed.

End write_path.

(** ** The batch path *)

Section batch.

Variable is_date_tracked : Z → User → option Z → bool.

Lemma refine_consistent r t : read_state_consistent (refine r t).
Proof.
  unfold read_state_consistent, refine. eexists _, _.
  cbn. split; [reflexivity|]. split; [reflexivity|].
  destruct (tr_last_read_on (tr_row r) >=? last_post_on t); split; intros; lia.
Qed.

Lemma make_threads_dict_read_aware_run user threads_dict s :
  refs_valid threads_dict s →
  make_threads_dict_read_aware user threads_dict s
  = (Ok tt,
     foldl (refine_step threads_dict)
       (with_log (log s ++ [ThreadReadFilter (elements (dom threads_dict))]) s)
       (filter (λ r, tr_thread_id (tr_row r) ∈ elements (dom threads_dict))
          (threadread_objects (threadread_set s)))).
Proof.
  intros Hvalid. unfold make_threads_dict_read_aware. msimpl.
  match goal with |- for_each ?xs ?body ?s0 = _ =>
    apply (for_each_run (refs_valid threads_dict) xs body
             (refine_step threads_dict)); [|exact Hvalid]
  end.
  intros r s' _ Hs'. unfold refine_step.
  destruct (threads_dict !! tr_thread_id (tr_row r)) as [thread|] eqn:Hd;
    [|by msimpl].
  destruct (Hs' _ _ Hd) as [t Ht]. msimpl. rewrite Ht.
  assert (Hvalid' : refs_valid threads_dict
            (with_objects (alter (refine r) thread (objects s')) s')).
  { intros k l Hk. cbn. apply lookup_alter_is_Some. by eapply Hs'. }
  split; [|exact Hvalid'].
  unfold with_objects.
  destruct (tr_last_read_on (tr_row r) >=? last_post_on t) eqn:E1;
    [|destruct (replies t - tr_read_replies (tr_row r) <? 1) eqn:E2];
    msimpl; rewrite !alter_alter; do 2 f_equal;
    apply alter_ext; intros x Hx; rewrite Ht in Hx; injection Hx as <-;
    unfold refine; rewrite E1; cbn;
    unfold set_unread_replies; cbn; repeat f_equal; lia.
Qed.

(** The refinement pass leaves every object as it was or as [refine] made it. *)
Lemma refine_loop_cases threads_dict (Q : Thread → Prop) records :
  (∀ r t, Q (refine r t)) →
  ∀ s thread t',
    objects (foldl (refine_step threads_dict) s records) !! thread = Some t' →
    objects s !! thread = Some t' ∨ Q t'.
Proof.
  intros HQ. induction records as [|r records IH]; intros s thread t' Hl;
    [by left|].
  cbn [foldl] in Hl. apply IH in Hl as [Hl|Hl]; [|by right].
  unfold refine_step in Hl.
  destruct (threads_dict !! tr_thread_id (tr_row r)) as [l|]; [|by left].
  cbn in Hl. apply lookup_alter_Some in Hl as [(-> & x & Hx & ->)|[_ Hl]];
    [right; apply HQ|by left].
Qed.

Lemma refine_loop_frame threads_dict records : ∀ s,
  let s' := foldl (refine_step threads_dict) s records in
  log s' = log s ∧ categoriesread_set s' = categoriesread_set s
  ∧ threadread_set s' = threadread_set s ∧ post_set s' = post_set s
  ∧ dom (objects s') = dom (objects s)
  ∧ ∀ thread, (∀ k, threads_dict !! k ≠ Some thread) →
      objects s' !! thread = objects s !! thread.
Proof.
  induction records as [|r records IH]; intros s; [done|].
  cbn [foldl]. cbn zeta in *.
  destruct (IH (refine_step threads_dict s r))
    as (Hlog & Hcat & Hrows & Hposts & Hdom & Hfr).
  rewrite Hlog, Hcat, Hrows, Hposts, Hdom.
  assert (Hstep : ∀ thread, (∀ k, threads_dict !! k ≠ Some thread) →
            objects (refine_step threads_dict s r) !! thread
            = objects s !! thread).
  { intros thread Hnot. unfold refine_step.
    destruct (threads_dict !! tr_thread_id (tr_row r)) as [l|] eqn:Hd; [|done].
    cbn. apply lookup_alter_ne. intros ->. by eapply Hnot. }
  unfold refine_step at 1 2 3 4 5.
  destruct (threads_dict !! tr_thread_id (tr_row r)) as [l|] eqn:Hd; cbn;
    repeat (split; [done || apply dom_alter_L|]);
    intros thread Hnot; rewrite Hfr by done; by apply Hstep.
Qed.

Lemma refine_loop_last threads_dict s :
  keyed_by_pk threads_dict s →
  ∀ records k thread t,
    threads_dict !! k = Some thread →
    objects s !! thread = Some t →
    objects (foldl (refine_step threads_dict) s records) !! thread
    = Some match last (filter (λ r, tr_thread_id (tr_row r) = k) records) with
           | Some r => refine r t
           | None => t
           end.
Proof.
  intros Hkeyed records. induction records as [|r records IH] using rev_ind;
    intros k thread t Hk Ht; [done|].
  rewrite foldl_app, filter_app. cbn [foldl].
  specialize (IH k thread t Hk Ht).
  assert (Hpk : pk t = k).
  { destruct (Hkeyed _ _ Hk) as (t0 & Ht0 & <-). congruence. }
  unfold refine_step at 1.
  destruct (threads_dict !! tr_thread_id (tr_row r)) as [l|] eqn:Hd.
  - cbn [objects with_objects]. destruct (decide (l = thread)) as [->|Hne].
    + assert (tr_thread_id (tr_row r) = k) as Hr.
      { destruct (Hkeyed _ _ Hd) as (t0 & Ht0 & <-). congruence. }
      rewrite lookup_alter_eq, IH. rewrite filter_cons_True by done.
      rewrite filter_nil, last_snoc. cbn.
      by destruct (last _).
    + rewrite lookup_alter_ne by done. rewrite IH.
      rewrite filter_cons_False, filter_nil, app_nil_r; [done|].
      intros Hr. rewrite Hr in Hd. congruence.
  - rewrite IH. rewrite filter_cons_False, filter_nil, app_nil_r; [done|].
    intros Hr. rewrite Hr in Hd. congruence.
Qed.

Lemma filter_key_in (k : Z) (keys : list Z) (records : list ThreadReadObj) :
  k ∈ keys →
  filter (λ r, tr_thread_id (tr_row r) = k)
    (filter (λ r, tr_thread_id (tr_row r) ∈ keys) records)
  = filter (λ r, tr_thread_id (tr_row r) = k) records.
Proof.
  intros Hk. induction records as [|r records IH]; [done|].
  rewrite !filter_cons. destruct (decide (tr_thread_id (tr_row r) ∈ keys)).
  - rewrite filter_cons. by rewrite IH.
  - rewrite IH. destruct (decide (tr_thread_id (tr_row r) = k)); [|done].
    congruence.
Qed.

(** C4. The refinement pass: a thread of [threads_dict] for which a
    [ThreadRead] record matches ends not new, read exactly when
    [record.last_read_on >= thread.last_post_on], with [unread_replies] 0 when
    read and [max(1, thread.replies - record.read_replies)] when unread; a
    thread for which none matches keeps the state it came with. *)
Theorem make_threads_dict_read_aware_refines user threads_dict s :
  keyed_by_pk threads_dict s →
  ∃ s',
    make_threads_dict_read_aware user threads_dict s = (Ok tt, s')
    ∧ ∀ k thread t,
        threads_dict !! k = Some thread →
        objects s !! thread = Some t →
        match matching_record s k with
        | Some record =>
            ∃ t', objects s' !! thread = Some t'
              ∧ is_new t' = Some false
              ∧ is_read t'
                  = Some (tr_last_read_on (tr_row record) >=? last_post_on t)
              ∧ unread_replies t'
                  = Some (if tr_last_read_on (tr_row record) >=? last_post_on t
                          then 0
                          else Z.max 1 (replies t
                                          - tr_read_replies (tr_row record)))
        | None => objects s' !! thread = Some t
        end.
Proof.
  intros Hkeyed. eexists. split.
  { apply make_threads_dict_read_aware_run. intros k l Hk.
    destruct (Hkeyed _ _ Hk) as (t & -> & _). by eexists. }
  intros k thread t Hk Ht.
  rewrite (refine_loop_last threads_dict
             (with_log (log s ++ [ThreadReadFilter (elements (dom threads_dict))]) s)
             Hkeyed _ k thread t Hk Ht).
  rewrite filter_key_in.
  2:{ apply elem_of_elements, elem_of_dom. by eexists. }
  unfold matching_record.
  destruct (last _) as [record|]; [|done].
  eexists. split; [reflexivity|]. done.
Qed.

(** *** The category-level pass *)

Lemma provisional_again b b' t : provisional b (provisional b' t) = provisional b t.
Proof. reflexivity. Qed.

Lemma annotate_from_cutoff_run user cutoff threads_dict thread s t :
  objects s !! thread = Some t →
  annotate_from_cutoff is_date_tracked user cutoff threads_dict thread s
  = (Ok (if is_date_tracked (last_post_on t) user cutoff
         then <[pk t := thread]> threads_dict else threads_dict),
     with_objects
       (alter (provisional (is_date_tracked (last_post_on t) user cutoff))
          thread (objects s)) s).
Proof.
  intros Ht. unfold annotate_from_cutoff. msimpl. rewrite Ht.
  destruct (is_date_tracked (last_post_on t) user cutoff) eqn:E;
    cbn [negb]; msimpl; rewrite !alter_alter; do 2 f_equal;
    apply alter_ext; intros x Hx; rewrite Ht in Hx; by injection Hx as <-.
Qed.

Section category_pass.

Variable user : User.
Variable cutoff_of : Thread → option Z.
Hypothesis cutoff_of_provisional :
  ∀ b t, cutoff_of (provisional b t) = cutoff_of t.

Lemma tracked_provisional b t : tracked is_date_tracked user cutoff_of (provisional b t) = tracked is_date_tracked user cutoff_of t.
Proof. unfold tracked. by rewrite cutoff_of_provisional. Qed.

Lemma provisional_loop threads : ∀ d s,
  let acc := foldl (provisional_step is_date_tracked user cutoff_of) (d, s) threads in
  log acc.2 = log s ∧ categoriesread_set acc.2 = categoriesread_set s
  ∧ threadread_set acc.2 = threadread_set s ∧ post_set acc.2 = post_set s
  ∧ clock acc.2 = clock s
  ∧ (∀ thread,
       objects acc.2 !! thread
       = (λ t, if decide (thread ∈ threads)
               then provisional (tracked is_date_tracked user cutoff_of t) t else t) <$> objects s !! thread)
  ∧ (∀ k thread,
       acc.1 !! k = Some thread →
       d !! k = Some thread
       ∨ thread ∈ threads
         ∧ ∃ t, objects s !! thread = Some t ∧ pk t = k ∧ tracked is_date_tracked user cutoff_of t = true).
Proof.
  induction threads as [|l threads IH]; intros d s; cbn zeta.
  - cbn [foldl fst snd]. repeat (split; [done|]). split; [|by left].
    intros thread. destruct (objects s !! thread); [|done].
    cbn. by rewrite decide_False by set_solver.
  - cbn [foldl].
    destruct (IH ((provisional_step is_date_tracked user cutoff_of) (d, s) l).1 ((provisional_step is_date_tracked user cutoff_of) (d, s) l).2)
      as (Hlog & Hcat & Hrows & Hposts & Hclock & Hobj & Hdict).
    rewrite <- surjective_pairing in *.
    rewrite Hlog, Hcat, Hrows, Hposts, Hclock.
    unfold provisional_step at 1 2 3 4 5. cbn [fst snd].
    destruct (objects s !! l) as [t|] eqn:Ht; cbn [log categoriesread_set
      threadread_set post_set clock with_objects];
      repeat (split; [done|]).
    + split.
      * intros thread. rewrite Hobj. unfold provisional_step. cbn [fst snd].
        rewrite Ht. cbn [snd objects with_objects].
        destruct (decide (l = thread)) as [<-|Hne].
        -- rewrite lookup_alter_eq, Ht. cbn.
           rewrite (decide_True (P := l ∈ l :: threads)) by set_solver.
           f_equal. case_decide; [|done].
           by rewrite tracked_provisional, provisional_again.
        -- rewrite lookup_alter_ne by done.
           destruct (objects s !! thread); [|done]. cbn. f_equal.
           destruct (decide (thread ∈ threads));
             [rewrite decide_True by set_solver|
              rewrite decide_False by set_solver]; done.
      * intros k thread Hk. apply Hdict in Hk as [Hk|(Hin & t' & Ht' & Hpk & Htr)].
        -- unfold provisional_step in Hk. cbn [fst snd] in Hk. rewrite Ht in Hk.
           cbn [fst] in Hk. destruct (tracked is_date_tracked user cutoff_of t) eqn:Etr; [|by left].
           apply lookup_insert_Some in Hk as [[<- <-]|[_ Hk]]; [|by left].
           right. split; [set_solver|]. by exists t.
        -- right. split; [set_solver|].
           unfold provisional_step in Ht'. cbn [fst snd] in Ht'.
           rewrite Ht in Ht'. cbn [snd objects with_objects] in Ht'.
           apply lookup_alter_Some in Ht' as [(<- & x & Hx & ->)|[_ Ht']].
           ++ exists x. split; [done|]. split; [done|].
              by rewrite tracked_provisional in Htr.
           ++ by exists t'.
    + split.
      * intros thread. rewrite Hobj. unfold provisional_step. cbn [fst snd].
        rewrite Ht. cbn [snd].
        destruct (objects s !! thread) eqn:Hth; [|done]. cbn. f_equal.
        assert (thread ≠ l) by congruence.
        destruct (decide (thread ∈ threads));
          [rewrite decide_True by set_solver|
           rewrite decide_False by set_solver]; done.
      * intros k thread Hk. apply Hdict in Hk as [Hk|(Hin & t' & Ht' & Hpk & Htr)].
        -- unfold provisional_step in Hk. cbn [fst snd] in Hk. rewrite Ht in Hk.
           by left.
        -- right. split; [set_solver|].
           unfold provisional_step in Ht'. cbn [fst snd] in Ht'.
           rewrite Ht in Ht'. by exists t'.
Qed.

(** The [threads_dict] the category-level pass builds is keyed by the [pk] of
    the threads it refers to, as the refinement pass expects. *)
Lemma provisional_loop_keyed threads s :
  keyed_by_pk
    (foldl (provisional_step is_date_tracked user cutoff_of) (∅, s) threads).1
    (foldl (provisional_step is_date_tracked user cutoff_of) (∅, s) threads).2.
Proof.
  destruct (provisional_loop threads ∅ s) as (_ & _ & _ & _ & _ & Hobj & Hdict).
  intros k thread Hk.
  apply Hdict in Hk as [Hk|(Hin & t & Ht & Hpk & _)];
    [by rewrite lookup_empty in Hk|].
  eexists. rewrite Hobj, Ht. cbn. by rewrite decide_True.
Qed.

End category_pass.

(** The category-level pass followed by the refinement pass, for both
    callers: [body] is the loop body of either. *)
Lemma category_pass_run user cutoff_of
    (body : gmap Z nat → nat → M (gmap Z nat)) threads s :
  (∀ b t, cutoff_of (provisional b t) = cutoff_of t) →
  (∀ d thread s t, objects s !! thread = Some t →
     body d thread s
     = (Ok (provisional_step is_date_tracked user cutoff_of (d, s) thread).1,
        (provisional_step is_date_tracked user cutoff_of (d, s) thread).2)) →
  (∀ thread, thread ∈ threads → is_Some (objects s !! thread)) →
  ∃ s',
    (threads_dict ← for_fold threads ∅ body;
     if bool_decide (threads_dict = ∅) then mret tt
     else make_threads_dict_read_aware user threads_dict) s = (Ok tt, s')
    ∧ categoriesread_set s' = categoriesread_set s
    ∧ threadread_set s' = threadread_set s
    ∧ Forall (λ e, is_thread_read_lookup e = true) (drop (length (log s)) (log s'))
    ∧ ∀ thread t, thread ∈ threads → objects s !! thread = Some t →
        ∃ t', objects s' !! thread = Some t'
          ∧ read_state_consistent t'
          ∧ (tracked is_date_tracked user cutoff_of t = false → t' = provisional false t).
Proof.
  intros Hcut Hbody Hvalid.
  destruct (for_fold_run (λ s', dom (objects s') = dom (objects s)) threads
              body (provisional_step is_date_tracked user cutoff_of)) with (b := (∅ : gmap Z nat)) (s := s)
    as [Hrun _]; [|done|].
  { intros l d s1 Hl Hdom.
    assert (is_Some (objects s1 !! l)) as [t Ht].
    { apply elem_of_dom. rewrite Hdom. apply elem_of_dom. by apply Hvalid. }
    split; [by eapply Hbody|].
    unfold provisional_step. cbn [fst snd]. rewrite Ht. cbn.
    by rewrite dom_alter_L. }
  pose proof (provisional_loop user cutoff_of Hcut threads ∅ s) as Hloop.
  cbn zeta in Hloop.
  destruct (foldl (provisional_step is_date_tracked user cutoff_of) (∅, s) threads)
    as [d s1] eqn:Hfold. cbn [fst snd] in *.
  destruct Hloop as (Hlog & Hcat & Hrows & Hposts & Hclock & Hobj & Hdict).
  assert (Hd : ∀ k thread, d !! k = Some thread →
            ∃ t, thread ∈ threads ∧ objects s !! thread = Some t ∧ pk t = k
                 ∧ tracked is_date_tracked user cutoff_of t = true).
  { intros k thread Hk. apply Hdict in Hk as [Hk|(Hin & t & Ht & Hpk & Htr)];
      [by rewrite lookup_empty in Hk|]. by exists t. }
  assert (Hprov : ∀ thread t, thread ∈ threads → objects s !! thread = Some t →
            objects s1 !! thread = Some (provisional (tracked is_date_tracked user cutoff_of t) t)).
  { intros thread t Hin Ht. rewrite Hobj, Ht. cbn. by rewrite decide_True. }
  assert (Hcons : ∀ b t, read_state_consistent (provisional b t)).
  { intros b t. unfold read_state_consistent. eexists _, _.
    split; [reflexivity|]. split; [reflexivity|].
    destruct b; cbn; split; intros; (done || lia). }
  msimpl. rewrite Hrun. case_bool_decide as Hempty.
  - exists s1. split; [done|]. split; [done|]. split; [done|].
    split; [rewrite Hlog, drop_all; constructor|].
    intros thread t Hin Ht. eexists. split; [by apply Hprov|].
    split; [apply Hcons|]. by intros ->.
  - rewrite make_threads_dict_read_aware_run.
    2:{ intros k thread Hk. destruct (Hd _ _ Hk) as (t & Hin & Ht & _).
        rewrite (Hprov _ _ Hin Ht). by eexists. }
    eexists. split; [reflexivity|].
    match goal with |- context [foldl (refine_step d) ?s0 ?rs] =>
      pose proof (refine_loop_frame d rs s0) as Hframe;
      pose proof (refine_loop_cases d read_state_consistent rs
                    refine_consistent s0) as Hcases
    end.
    cbn zeta in Hframe.
    destruct Hframe as (Hlog' & Hcat' & Hrows' & _ & Hdom' & Hfr).
    rewrite Hcat', Hrows', Hlog'. cbn [log categoriesread_set threadread_set with_log].
    split; [done|]. split; [done|]. split.
    { rewrite Hlog, drop_app_length. by repeat constructor. }
    intros thread t Hin Ht.
    assert (is_Some (objects (foldl (refine_step d)
              (with_log (log s1 ++ [ThreadReadFilter (elements (dom d))]) s1)
              (filter (λ r, tr_thread_id (tr_row r) ∈ elements (dom d))
                 (threadread_objects (threadread_set s1)))) !! thread))
      as [t' Ht'].
    { apply elem_of_dom. rewrite Hdom'. apply elem_of_dom.
      cbn. rewrite (Hprov _ _ Hin Ht). by eexists. }
    exists t'. split; [done|]. split.
    + destruct (Hcases _ _ Ht') as [Hsame|HQ]; [|done].
      cbn in Hsame. rewrite (Hprov _ _ Hin Ht) in Hsame.
      injection Hsame as <-. apply Hcons.
    + intros Htr. rewrite Hfr in Ht'.
      * cbn in Ht'. rewrite (Hprov _ _ Hin Ht), Htr in Ht'. congruence.
      * intros k Hk. destruct (Hd _ _ Hk) as (t0 & _ & Ht0 & _ & Htr0).
        congruence.
Qed.

(** *** The batch entry point *)

Lemma make_read_run threads : ∀ s,
  ∃ s', make_read threads s = (Ok tt, s')
    ∧ log s' = log s ∧ categoriesread_set s' = categoriesread_set s
    ∧ threadread_set s' = threadread_set s
    ∧ ∀ thread,
        objects s' !! thread
        = (λ t, if decide (thread ∈ threads) then marked_read t else t)
            <$> objects s !! thread.
Proof.
  unfold make_read. induction threads as [|l threads IH]; intros s.
  - exists s. cbn. repeat (split; [done|]). intros thread.
    destruct (objects s !! thread); [|done]. cbn.
    by rewrite decide_False by set_solver.
  - cbn [for_each]. msimpl. rewrite !alter_alter.
    match goal with |- context [for_each threads _ ?s0] =>
      destruct (IH s0) as (s' & Hrun & Hlog & Hcat & Hrows & Hobj) end.
    exists s'. split; [exact Hrun|]. cbn in Hlog, Hcat, Hrows, Hobj.
    repeat (split; [done|]). intros thread. rewrite Hobj.
    destruct (decide (l = thread)) as [<-|Hne].
    + rewrite lookup_alter_eq. destruct (objects s !! l); [|done]. cbn.
      rewrite (decide_True (P := l ∈ l :: threads)) by set_solver.
      by case_decide.
    + rewrite lookup_alter_ne by done.
      destruct (objects s !! thread); [|done]. cbn. f_equal.
      destruct (decide (thread ∈ threads));
        [rewrite decide_True by set_solver|
         rewrite decide_False by set_solver]; done.
Qed.

Lemma fetch_categories_cutoffs_for_threads_run user threads s :
  (∀ thread, thread ∈ threads → is_Some (objects s !! thread)) →
  ∃ cutoffs categories,
    fetch_categories_cutoffs_for_threads user threads s
    = (Ok cutoffs, with_log (log s ++ [CategoryReadFilter categories]) s).
Proof.
  intros Hvalid. unfold fetch_categories_cutoffs_for_threads.
  match goal with |- context [for_fold threads ?b0 ?body] =>
    destruct (for_fold_run (λ s', s' = s) threads body
                (λ acc thread,
                   match objects acc.2 !! thread with
                   | Some t =>
                       (if bool_decide (category_id t ∈ acc.1) then acc.1
                        else acc.1 ++ [category_id t], acc.2)
                   | None => acc
                   end)) with (b := b0) (s := s) as [Hrun Hs]; [|done|]
  end.
  { intros l b s1 Hl ->. destruct (Hvalid l Hl) as [t Ht]. cbn [fst snd].
    rewrite Ht. cbn [fst snd]. split; [|done]. msimpl. rewrite Ht.
    by case_bool_decide. }
  rewrite (bind_run _ _ _ _ _ Hrun), Hs. msimpl. by eexists _, _.
Qed.

Lemma make_threads_read_aware_run user threads category s :
  (∀ thread, thread ∈ threads → is_Some (objects s !! thread)) →
  ∃ s',
    make_threads_read_aware is_date_tracked user threads category s = (Ok tt, s')
    ∧ threadread_set s' = threadread_set s
    ∧ categoriesread_set s' = categoriesread_set s
    ∧ (is_anonymous user = true → log s' = log s)
    ∧ ∀ thread t, thread ∈ threads → objects s !! thread = Some t →
        ∃ t', objects s' !! thread = Some t'
          ∧ read_state_consistent t'
          ∧ (is_anonymous user = true → t' = marked_read t)
          ∧ ((∀ cutoff, is_date_tracked (last_post_on t) user cutoff = false) →
             is_read t' = Some true ∧ unread_replies t' = Some 0).
Proof.
  intros Hvalid.
  assert (Hmake_read : ∃ s',
    make_read threads s = (Ok tt, s')
    ∧ threadread_set s' = threadread_set s
    ∧ categoriesread_set s' = categoriesread_set s
    ∧ (is_anonymous user = true → log s' = log s)
    ∧ ∀ thread t, thread ∈ threads → objects s !! thread = Some t →
        ∃ t', objects s' !! thread = Some t'
          ∧ read_state_consistent t'
          ∧ (is_anonymous user = true → t' = marked_read t)
          ∧ ((∀ cutoff, is_date_tracked (last_post_on t) user cutoff = false) →
             is_read t' = Some true ∧ unread_replies t' = Some 0)).
  { destruct (make_read_run threads s) as (s' & Hrun & Hlog & Hcat & Hrows & Hobj).
    exists s'. repeat (split; [done|]). intros thread t Hin Ht.
    exists (marked_read t). split; [by rewrite Hobj, Ht; cbn; rewrite decide_True|].
    split; [|done]. unfold read_state_consistent. eexists _, _.
    split; [reflexivity|]. split; [reflexivity|]. done. }
  unfold make_threads_read_aware. destruct threads as [|l0 threads'] eqn:Hthreads.
  { exists s. repeat (split; [done|]). intros thread t Hin. set_solver. }
  rewrite <- Hthreads in *. clear Hthreads l0 threads'.
  destruct (is_anonymous user) eqn:Hanon; [exact Hmake_read|].
  destruct category as [category|].
  - unfold make_category_threads_read_aware.
    destruct (category_is_read category); [exact Hmake_read|].
    destruct (category_pass_run user (λ _, category_last_read_on category)
                (λ threads_dict thread,
                   annotate_from_cutoff is_date_tracked user
                     (category_last_read_on category) threads_dict thread)
                threads s) as (s' & Hrun & Hcat & Hrows & _ & Hobj);
      [done| |done|].
    { intros d thread s1 t Ht. rewrite (annotate_from_cutoff_run _ _ _ _ _ t Ht).
      unfold provisional_step, tracked. cbn [fst snd]. by rewrite Ht. }
    exists s'. split; [exact Hrun|]. repeat (split; [done|]).
    intros thread t Hin Ht. destruct (Hobj thread t Hin Ht) as (t' & Ht' & Hc & Hun).
    exists t'. repeat (split; [done|]). intros Hnot.
    rewrite Hun by apply Hnot. done.
  - unfold make_categories_threads_read_aware.
    destruct (fetch_categories_cutoffs_for_threads_run user threads s Hvalid)
      as (cutoffs & categories & Hfetch).
    msimpl. rewrite Hfetch.
    destruct (category_pass_run user (λ t, cutoffs !! category_id t)
                (λ threads_dict thread,
                   t ← deref thread;
                   annotate_from_cutoff is_date_tracked user
                     (cutoffs !! category_id t) threads_dict thread)
                threads (with_log (log s ++ [CategoryReadFilter categories]) s))
      as (s' & Hrun & Hcat & Hrows & _ & Hobj); [done| |done|].
    { intros d thread s1 t Ht. msimpl. rewrite Ht.
      rewrite (annotate_from_cutoff_run _ _ _ _ _ t Ht).
      unfold provisional_step, tracked. cbn [fst snd]. by rewrite Ht. }
    exists s'. split; [exact Hrun|]. repeat (split; [done|]).
    intros thread t Hin Ht. destruct (Hobj thread t Hin Ht) as (t' & Ht' & Hc & Hun).
    exists t'. repeat (split; [done|]). intros Hnot.
    rewrite Hun by apply Hnot. done.
Qed.

End batch.

(** ** The single-thread path *)

Section single.

Variable is_date_tracked : Z → User → option Z → bool.
Variable start_record_rows : User → Z → list CategoryRead → list CategoryRead.

(** A thread that is not tracked (anonymous user, or content the date policy
    rejects) is marked read and not new, and nothing else happens. *)
Lemma make_thread_read_aware_untracked user thread s t :
  objects s !! thread = Some t →
  is_authenticated user && is_date_tracked (last_post_on t) user None = false →
  ∃ s' t',
    make_thread_read_aware is_date_tracked start_record_rows user thread s
    = (Ok tt, s')
    ∧ log s' = log s
    ∧ categoriesread_set s' = categoriesread_set s
    ∧ threadread_set s' = threadread_set s
    ∧ objects s' !! thread = Some t'
    ∧ is_read t' = Some true ∧ is_new t' = Some false
    ∧ unread_replies t' = unread_replies t.
Proof.
  intros Ht Hun. unfold make_thread_read_aware, is_authenticated, is_anonymous in *.
  destruct (user_is_anonymous user); cbn [negb andb] in *; tsimpl; rewrite Ht;
    tsimpl; rewrite ?Hun; tsimpl;
    (eexists _, _; split; [reflexivity|]; cbn;
     rewrite !lookup_alter_eq, Ht; cbn; done).
Qed.

(** C6. For an authenticated user and a thread the date policy tracks: when
    no [CategoryRead] exists for the thread's category,
    [categoriestracker.start_record] is called for it and the thread is left
    unread and new; when one exists and the thread's last post is not later
    than its [last_read_on], the thread is left read and not new, and no
    [ThreadRead] lookup is made. *)
Theorem make_thread_read_aware_category_watermark user thread s t :
  objects s !! thread = Some t →
  is_authenticated user = true →
  is_date_tracked (last_post_on t) user None = true →
  (filter (λ r, cr_category_id r = category_id t) (categoriesread_set s) = [] →
   ∃ s' t',
     make_thread_read_aware is_date_tracked start_record_rows user thread s
     = (Ok tt, s')
     ∧ log s' = log s ++ [CategoryReadGet (category_id t);
                          StartRecord (category_id t)]
     ∧ categoriesread_set s'
         = start_record_rows user (category_id t) (categoriesread_set s)
     ∧ objects s' !! thread = Some t'
     ∧ is_read t' = Some false ∧ is_new t' = Some true)
  ∧ (∀ category_record,
       filter (λ r, cr_category_id r = category_id t) (categoriesread_set s)
         = [category_record] →
       last_post_on t ≤ cr_last_read_on category_record →
       ∃ s' t' events,
         make_thread_read_aware is_date_tracked start_record_rows user thread s
         = (Ok tt, s')
         ∧ log s' = log s ++ events
         ∧ Forall (λ e, is_thread_read_lookup e = false) events
         ∧ objects s' !! thread = Some t'
         ∧ is_read t' = Some true ∧ is_new t' = Some false).
Proof.
  intros Ht Hu Hd. unfold make_thread_read_aware, is_authenticated, is_anonymous in *.
  destruct (user_is_anonymous user); [done|]. cbn [negb andb].
  split.
  - intros Hc. tsimpl. rewrite Ht. tsimpl. rewrite Hd. tsimpl. rewrite Hc. tsimpl.
    eexists _, _. split; [reflexivity|]. cbn.
    rewrite !lookup_alter_eq, Ht, <- app_assoc. cbn. done.
  - intros cr Hc Hle. tsimpl. rewrite Ht. tsimpl. rewrite Hd. tsimpl.
    rewrite Hc. tsimpl.
    replace (last_post_on t >? cr_last_read_on cr) with false by lia.
    tsimpl. eexists _, _, _. split; [reflexivity|]. cbn.
    rewrite !lookup_alter_eq, Ht. cbn. split; [reflexivity|].
    split; [by repeat constructor|]. done.
Qed.

End single.

(** ** Posts *)

Section posts.

Variable is_date_tracked : Z → User → option Z → bool.

Lemma posts_loop_run user thread s t w posts : ∀ marked,
  objects s !! thread = Some t →
  last_read_on t = Some w →
  for_fold posts marked (λ marked post,
    if is_date_tracked (posted_on post) user None then
      thread_last_read_on ← getattr "last_read_on" last_read_on thread;
      mret (marked ++ [set_post_is_read
                       (posted_on post <=? thread_last_read_on) post])
    else mret (marked ++ [set_post_is_read true post])) s
  = (Ok (marked ++ (mark_post is_date_tracked user w <$> posts)), s).
Proof.
  induction posts as [|p posts IH]; intros marked Ht Hw.
  - cbn. by rewrite app_nil_r.
  - cbn [for_fold fmap list_fmap]. unfold mark_post at 1.
    destruct (is_date_tracked (posted_on p) user None) eqn:E.
    + rewrite (bind_run _ _ s
                 (marked ++ [set_post_is_read (posted_on p <=? w) p]) s)
        by (by msimpl; rewrite Ht, Hw).
      rewrite IH by done. cbn [negb orb]. by rewrite <- app_assoc.
    + rewrite (bind_run _ _ s (marked ++ [set_post_is_read true p]) s)
        by reflexivity.
      rewrite IH by done. cbn [negb orb]. by rewrite <- app_assoc.
Qed.

(** Without [last_read_on], the loop over the posts of an unread thread
    returns or raises [AttributeError], never the usage error. *)
Lemma posts_loop_no_value_error user thread s t posts : ∀ marked,
  objects s !! thread = Some t →
  ∀ msg s',
    for_fold posts marked (λ marked post,
      if is_date_tracked (posted_on post) user None then
        thread_last_read_on ← getattr "last_read_on" last_read_on thread;
        mret (marked ++ [set_post_is_read
                         (posted_on post <=? thread_last_read_on) post])
      else mret (marked ++ [set_post_is_read true post])) s
    ≠ (Raise (ValueError msg), s').
Proof.
  induction posts as [|p posts IH]; intros marked Ht msg s'; [done|].
  cbn [for_fold].
  destruct (is_date_tracked (posted_on p) user None) eqn:E.
  - destruct (last_read_on t) as [w|] eqn:Hw.
    + rewrite (bind_run _ _ s
                 (marked ++ [set_post_is_read (posted_on p <=? w) p]) s)
        by (by msimpl; rewrite Ht, Hw).
      by apply IH.
    + msimpl. by rewrite Ht, Hw.
  - rewrite (bind_run _ _ s (marked ++ [set_post_is_read true p]) s)
      by reflexivity.
    by apply IH.
Qed.

(** C8 (as amended). [make_posts_read_aware] raises its usage error exactly
    when the thread carries no [is_read]; when [thread.is_read] is true it
    returns with every post marked read; when [thread.is_read] is false and
    [thread.last_read_on] is set, it returns with each post marked read
    exactly when the date policy does not track the post or the post is not
    later than [thread.last_read_on]. *)
Theorem make_posts_read_aware_marks user thread posts s t :
  objects s !! thread = Some t →
  ((∃ msg s', make_posts_read_aware is_date_tracked user thread posts s
              = (Raise (ValueError msg), s'))
   ↔ is_read t = None)
  ∧ (is_read t = None →
     make_posts_read_aware is_date_tracked user thread posts s
     = (Raise not_read_aware, s))
  ∧ (is_read t = Some true →
     make_posts_read_aware is_date_tracked user thread posts s
     = (Ok (set_post_is_read true <$> posts), s))
  ∧ (∀ w, is_read t = Some false → last_read_on t = Some w →
     make_posts_read_aware is_date_tracked user thread posts s
     = (Ok (mark_post is_date_tracked user w <$> posts), s)).
Proof.
  intros Ht.
  assert (Hnone : is_read t = None →
            make_posts_read_aware is_date_tracked user thread posts s
            = (Raise not_read_aware, s)).
  { intros Hr. unfold make_posts_read_aware. msimpl. by rewrite Ht, Hr. }
  assert (Htrue : is_read t = Some true →
            make_posts_read_aware is_date_tracked user thread posts s
            = (Ok (set_post_is_read true <$> posts), s)).
  { intros Hr. unfold make_posts_read_aware. msimpl. by rewrite Ht, Hr. }
  assert (Hget : ∀ b, is_read t = Some b →
            try_except (getattr "is_read" is_read thread)
              (λ e, match e with AttributeError _ => true | _ => false end)
              (raise (ValueError
                 "thread passed make_posts_read_aware should be read aware too via make_thread_read_aware")) s
            = (Ok b, s)).
  { intros b Hr. msimpl. by rewrite Ht, Hr. }
  split; [|split; [done|split; [done|]]].
  - split; [|intros Hr; rewrite Hnone by done; by eexists _, _].
    intros (msg & s' & Hrun). destruct (is_read t) as [[]|] eqn:Hr; [| |done].
    + by rewrite Htrue in Hrun.
    + exfalso. revert Hrun. unfold make_posts_read_aware.
      rewrite (bind_run _ _ _ _ _ (Hget false eq_refl)).
      by apply posts_loop_no_value_error with (t := t).
  - intros w Hr Hw. unfold make_posts_read_aware.
    rewrite (bind_run _ _ _ _ _ (Hget false Hr)).
    by rewrite (posts_loop_run user thread s t w posts []).
Qed.

End posts.

(** ** Advancing the watermark *)

Create HintDb rows.

Section advance.

Variable is_date_tracked : Z → User → option Z → bool.
Variable start_record_rows : User → Z → list CategoryRead → list CategoryRead.
Variable sync_record_rows : User → Z → State → list CategoryRead.

Lemma threadread_objects_elem rows record :
  record ∈ threadread_objects rows → rows !! tr_pk record = Some (tr_row record).
Proof.
  unfold threadread_objects. intros Hin.
  apply elem_of_lookup_imap in Hin as (i & row & -> & Hrow). done.
Qed.

Lemma filter_singleton_elem {A} (P : A → Prop) `{∀ x, Decision (P x)}
    (l : list A) x :
  filter P l = [x] → P x ∧ x ∈ l.
Proof.
  intros Hf. apply (list_elem_of_filter P). rewrite Hf. by left.
Qed.

(** However [make_thread_read_aware] ends, it writes no [ThreadRead] row and
    leaves the thread's annotation in agreement with the store. *)
Lemma make_thread_read_aware_consistent user thread s :
  threadread_set
    (make_thread_read_aware is_date_tracked start_record_rows user thread s).2
  = threadread_set s
  ∧ annotation_consistent
      (make_thread_read_aware is_date_tracked start_record_rows user thread s).2
      thread.
Proof.
  unfold make_thread_read_aware, annotation_consistent.
  unfold is_anonymous, is_authenticated.
  destruct (objects s !! thread) as [t|] eqn:Ht.
  - assert (Hfin : ∀ (f : Thread → Thread) t0 record,
              alter f thread (objects s) !! thread = Some t0 →
              read_record t0 = Some (Some record) →
              read_record (f t) = Some None → False).
    { intros f t0 record Ht0 Hrec Hf. rewrite lookup_alter_eq, Ht in Ht0.
      injection Ht0 as <-. congruence. }
    destruct (user_is_anonymous user); cbn [negb andb]; tsimpl; rewrite ?Ht;
      tsimpl.
    { rewrite !alter_alter. cbn [snd threadread_set objects].
      split; [done|]. intros t0 record Ht0 Hrec. exfalso.
      by eapply (Hfin _ _ _ Ht0 Hrec). }
    destruct (is_date_tracked (last_post_on t) user None); tsimpl.
    2:{ rewrite !alter_alter. cbn [snd threadread_set objects].
        split; [done|]. intros t0 record Ht0 Hrec. exfalso.
        by eapply (Hfin _ _ _ Ht0 Hrec). }
    destruct (filter (λ r, cr_category_id r = category_id t)
                (categoriesread_set s)) as [|cr [|cr' crs]] eqn:Hc; tsimpl;
      rewrite ?alter_alter; cbn [snd threadread_set objects];
      try (split; [done|]; intros t0 record Ht0 Hrec; exfalso;
           by eapply (Hfin _ _ _ Ht0 Hrec)).
    destruct (last_post_on t >? cr_last_read_on cr); tsimpl;
      rewrite ?alter_alter; cbn [snd threadread_set objects];
      try (split; [done|]; intros t0 record Ht0 Hrec; exfalso;
           by eapply (Hfin _ _ _ Ht0 Hrec)).
    destruct (filter (λ r, tr_thread_id (tr_row r) = pk t)
                (threadread_objects (threadread_set s)))
      as [|obj [|obj' objs]] eqn:Hf; tsimpl;
      rewrite ?alter_alter; cbn [snd threadread_set objects];
      try (split; [done|]; intros t0 record Ht0 Hrec; exfalso;
           by eapply (Hfin _ _ _ Ht0 Hrec)).
    apply filter_singleton_elem in Hf as [_ Hobj%threadread_objects_elem].
    destruct (last_post_on t <=? tr_last_read_on (tr_row obj)); tsimpl;
      rewrite ?alter_alter; cbn [snd threadread_set objects];
      (split; [done|]); intros t0 record Ht0 Hrec;
      rewrite lookup_alter_eq, Ht in Ht0; injection Ht0 as <-;
      cbn in Hrec; injection Hrec as <-; by exists (tr_row obj).
  - destruct (user_is_anonymous user); tsimpl; rewrite Ht; cbn;
      (split; [done|]); intros t0 record Ht0;
      by rewrite !lookup_alter_eq, Ht in Ht0.
Qed.

Lemma rows_never_regress_refl rows : rows_never_regress rows rows.
Proof. intros i row Hrow. by exists row. Qed.

Lemma rows_never_regress_create rows row :
  rows_never_regress rows (rows ++ [row]).
Proof.
  intros i row' Hrow. exists row'. split; [|done].
  by apply lookup_app_l_Some.
Qed.

Lemma rows_never_regress_save rows i row row' :
  rows !! i = Some row →
  tr_thread_id row' = tr_thread_id row →
  tr_last_read_on row ≤ tr_last_read_on row' →
  rows_never_regress rows (<[i := row']> rows).
Proof.
  intros Hrow Htid Hle j old Hold. destruct (decide (i = j)) as [<-|Hne].
  - exists row'. rewrite list_lookup_insert_eq by (by eapply lookup_lt_Some).
    split; [done|]. by replace old with row by congruence.
  - exists old. by rewrite list_lookup_insert_ne.
Qed.

#[local] Hint Resolve rows_never_regress_refl rows_never_regress_create : rows.

(** However [read_thread] ends on a thread whose annotation agrees with the
    store, no stored row loses ground. *)
Lemma read_thread_rows user thread reply s :
  annotation_consistent s thread →
  rows_never_regress (threadread_set s)
    (threadread_set (read_thread sync_record_rows user thread reply s).2).
Proof.
  intros Hcons. unfold read_thread, sync_record, count_read_replies.
  destruct (objects s !! thread) as [t|] eqn:Ht;
    [|msimpl; rewrite Ht; cbn [snd]; by auto with rows].
  destruct (is_read t) as [[]|] eqn:Hr;
    repeat (progress (msimpl; cbn [negb]; rewrite ?Ht, ?Hr));
    try (cbn [snd threadread_set]; by auto with rows).
  destruct (last_read_on t) as [w|] eqn:Hw;
    repeat (progress (msimpl; cbn [negb]; rewrite ?Ht, ?Hw));
    try (cbn [snd threadread_set]; by auto with rows).
  destruct (Z.ltb_spec w (posted_on reply)) as [Hlt|Hge];
    repeat (progress (msimpl; cbn [negb]; rewrite ?Ht));
    try (cbn [snd threadread_set]; by auto with rows).
  destruct (read_record t) as [[record|]|] eqn:Hrec; msimpl; try (cbn [snd threadread_set]; by auto with rows).
  - destruct (Hcons t record Ht Hrec) as (row & Hrow & Hlast).
    rewrite Hrow. msimpl.
    assert (tr_last_read_on row = w) as Hroww by congruence.
    destruct (posted_on reply =? last_post_on t); msimpl; cbn [snd];
      (eapply rows_never_regress_save; [exact Hrow|done|cbn; lia]).
  - destruct (posted_on reply =? last_post_on t); msimpl; cbn [snd];
      try (cbn [snd threadread_set]; by auto with rows).
Qed.

Lemma read_thread_after_annotation_rows user thread reply s :
  rows_never_regress (threadread_set s)
    (threadread_set
       (read_thread sync_record_rows user thread reply
          (make_thread_read_aware is_date_tracked start_record_rows
             user thread s).2).2).
Proof.
  destruct (make_thread_read_aware_consistent user thread s) as [Hrows Hcons].
  rewrite <- Hrows at 1. by apply read_thread_rows.
Qed.

Lemma rows_never_regress_trans rows1 rows2 rows3 :
  rows_never_regress rows1 rows2 → rows_never_regress rows2 rows3 →
  rows_never_regress rows1 rows3.
Proof.
  intros H12 H23 i row Hrow.
  destruct (H12 i row Hrow) as (row2 & Hrow2 & Htid2 & Hle2).
  destruct (H23 i row2 Hrow2) as (row3 & Hrow3 & Htid3 & Hle3).
  exists row3. split; [done|]. split; [congruence|lia].
Qed.

(** In any store, over any sequence of replies read in turn, no stored
    [ThreadRead] row moves back: every row is still there afterwards, for
    the same thread, with a [last_read_on] equal to or later than before,
    however the calls end. *)
Lemma read_in_turn_rows user thread replies : ∀ s,
  rows_never_regress (threadread_set s)
    (threadread_set
       (read_in_turn is_date_tracked start_record_rows sync_record_rows
          user thread replies s)).
Proof.
  induction replies as [|reply replies IH]; intros s; cbn [read_in_turn].
  - apply rows_never_regress_refl.
  - eapply rows_never_regress_trans; [|apply IH].
    apply read_thread_after_annotation_rows.
Qed.

(** *** Reading the same reply again *)

Lemma threadread_objects_app rows row :
  threadread_objects (rows ++ [row])
  = threadread_objects rows ++ [{| tr_pk := length rows; tr_row := row |}].
Proof.
  unfold threadread_objects. rewrite imap_app. cbn. do 3 f_equal. lia.
Qed.

Lemma threadread_objects_insert rows i row :
  threadread_objects (<[i := row]> rows)
  = <[i := {| tr_pk := i; tr_row := row |}]> (threadread_objects rows).
Proof.
  unfold threadread_objects. apply list_eq. intros j.
  rewrite list_lookup_imap. destruct (decide (i = j)) as [<-|Hne].
  - destruct (decide (i < length rows)%nat) as [Hlt|Hge].
    + rewrite !list_lookup_insert_eq by (by rewrite ?length_imap). done.
    + rewrite !list_insert_ge by (rewrite ?length_imap; lia).
      by rewrite list_lookup_imap.
  - rewrite !list_lookup_insert_ne by done. by rewrite list_lookup_imap.
Qed.

Lemma filter_insert_singleton {A} (P : A → Prop) `{∀ x, Decision (P x)}
    (xs : list A) : ∀ i x x',
  filter P xs = [x] → xs !! i = Some x → P x' →
  filter P (<[i := x']> xs) = [x'].
Proof.
  induction xs as [|a xs IH]; intros i x x' Hf Hi Hx'; [done|].
  rewrite filter_cons in Hf. destruct i as [|i]; cbn in Hi.
  - injection Hi as ->. cbn -[filter]. rewrite filter_cons_True by done.
    destruct (decide (P x)) as [HP|HP]; [by injection Hf as ->|].
    exfalso. apply HP. by apply (filter_singleton_elem P xs x).
  - cbn -[filter]. destruct (decide (P a)) as [HP|HP].
    + exfalso. injection Hf as -> Hnil.
      assert (x ∈ filter P xs) as Hin.
      { apply list_elem_of_filter. split; [done|]. by eapply list_elem_of_lookup_2. }
      rewrite Hnil in Hin. by apply not_elem_of_nil in Hin.
    + rewrite filter_cons_False by done. by eapply IH.
Qed.

(** Under its guard, [read_thread] is [sync_record]. *)
Lemma read_thread_advances user thread reply s t w :
  objects s !! thread = Some t →
  is_read t = Some false → last_read_on t = Some w → w < posted_on reply →
  read_thread sync_record_rows user thread reply s
  = sync_record sync_record_rows user thread reply s.
Proof.
  intros Ht Hr Hw Hlt. unfold read_thread.
  repeat (progress (msimpl; cbn [negb]; rewrite ?Ht, ?Hr, ?Hw)).
  by replace (w <? posted_on reply) with true by lia.
Qed.

(** Without its guard, [read_thread] does nothing at all. *)
Lemma read_thread_guarded user thread reply s t read w :
  objects s !! thread = Some t →
  is_read t = Some read → last_read_on t = Some w →
  read = true ∨ posted_on reply ≤ w →
  read_thread sync_record_rows user thread reply s = (Ok tt, s).
Proof.
  intros Ht Hr Hw Hguard. unfold read_thread.
  repeat (progress (msimpl; cbn [negb]; rewrite ?Ht, ?Hr, ?Hw)).
  destruct read; cbn [negb]; [done|].
  repeat (progress (msimpl; cbn [negb]; rewrite ?Ht, ?Hr, ?Hw)).
  destruct Hguard as [|Hle]; [done|].
  by replace (w <? posted_on reply) with false by lia.
Qed.

(** Once the store holds, for the thread, the one record that a completed
    [sync_record] left, and a [CategoryRead] for its category, annotating the
    thread anew makes [read_thread] with the same reply do nothing. *)
Lemma read_thread_noop_after_annotation user thread reply s t category_record record :
  objects s !! thread = Some t →
  filter (λ r, cr_category_id r = category_id t) (categoriesread_set s)
    = [category_record] →
  filter (λ r, tr_thread_id (tr_row r) = pk t)
    (threadread_objects (threadread_set s)) = [record] →
  tr_last_read_on (tr_row record) = posted_on reply →
  ∃ s',
    make_thread_read_aware is_date_tracked start_record_rows user thread s
    = (Ok tt, s')
    ∧ read_thread sync_record_rows user thread reply s' = (Ok tt, s').
Proof.
  intros Ht Hc Hf Hlast. unfold make_thread_read_aware, is_anonymous, is_authenticated.
  destruct (user_is_anonymous user); cbn [negb andb]; tsimpl; rewrite ?Ht; tsimpl.
  { eexists. split; [reflexivity|].
    eapply read_thread_guarded with (read := true); cbn;
      [by rewrite !lookup_alter_eq, Ht|done|done|by left]. }
  destruct (is_date_tracked (last_post_on t) user None); tsimpl.
  2:{ eexists. split; [reflexivity|].
      eapply read_thread_guarded with (read := true); cbn;
        [by rewrite !lookup_alter_eq, Ht|done|done|by left]. }
  rewrite Hc. tsimpl.
  destruct (last_post_on t >? cr_last_read_on category_record); tsimpl.
  2:{ eexists. split; [reflexivity|].
      eapply read_thread_guarded with (read := true); cbn;
        [by rewrite !lookup_alter_eq, Ht|done|done|by left]. }
  rewrite Hf. tsimpl.
  destruct (last_post_on t <=? tr_last_read_on (tr_row record)); tsimpl;
    (eexists; split; [reflexivity|]).
  - eapply read_thread_guarded with (read := true); cbn;
      [by rewrite !lookup_alter_eq, Ht|done|done|by left].
  - eapply read_thread_guarded with (read := false); cbn;
      [by rewrite !lookup_alter_eq, Ht|done|done|right; lia].
Qed.

(** C2 (as amended). When a first [read_thread] has advanced the watermark
    of a thread whose attached record is the one the store holds for it, and
    the thread is then annotated anew with [make_thread_read_aware] (a
    [CategoryRead] for its category being stored), a second [read_thread]
    with the same reply returns the state as it got it: no [ThreadRead] row
    is created or changed, nothing is emitted and no notification is
    cleared. *)
Theorem read_thread_again_is_noop user thread reply s t w attached category_record :
  objects s !! thread = Some t →
  is_read t = Some false →
  last_read_on t = Some w →
  w < posted_on reply →
  read_record t = Some attached →
  filter (λ r, tr_thread_id (tr_row r) = pk t)
    (threadread_objects (threadread_set s))
    = match attached with Some record => [record] | None => [] end →
  filter (λ r, cr_category_id r = category_id t)
    (categoriesread_set (read_thread sync_record_rows user thread reply s).2)
    = [category_record] →
  ∃ s1 s2,
    read_thread sync_record_rows user thread reply s = (Ok tt, s1)
    ∧ make_thread_read_aware is_date_tracked start_record_rows user thread s1
      = (Ok tt, s2)
    ∧ read_thread sync_record_rows user thread reply s2 = (Ok tt, s2).
Proof.
  intros Ht Hr Hw Hlt Hrec Hf Hc.
  rewrite (read_thread_advances user thread reply s t w Ht Hr Hw Hlt) in *.
  assert (Hrow : ∀ record, attached = Some record →
            threadread_set s !! tr_pk record = Some (tr_row record)).
  { intros record ->. apply threadread_objects_elem.
    by apply (filter_singleton_elem _ _ _ Hf). }
  destruct (sync_record_run sync_record_rows user thread reply s t attached
              Ht Hrec) as (s1 & Hrun & Hobj & _ & Hrows & _).
  { intros record Hatt. rewrite (Hrow record Hatt). by eexists. }
  rewrite Hrun in Hc. cbn [snd] in Hc.
  exists s1. destruct attached as [record|].
  - rewrite (Hrow record eq_refl) in Hrows.
    destruct (read_thread_noop_after_annotation user thread reply s1
                (set_read_record (Some (advanced_record record
                   (Z.of_nat (length (visible_posts_upto s (pk t)
                      (posted_on reply))) - 1) reply)) t)
                category_record
                {| tr_pk := tr_pk record;
                   tr_row := {| tr_category_id := tr_category_id (tr_row record);
                                tr_thread_id := tr_thread_id (tr_row record);
                                tr_read_replies :=
                                  Z.of_nat (length (visible_posts_upto s (pk t)
                                     (posted_on reply))) - 1;
                                tr_last_read_on := posted_on reply |} |})
      as (s2 & Hann & Hnoop); [| | |done|by exists s2].
    + by rewrite Hobj, lookup_alter_eq, Ht.
    + done.
    + rewrite Hrows, threadread_objects_insert. cbn [pk set_read_record].
      eapply filter_insert_singleton; [exact Hf| |].
      * unfold threadread_objects. rewrite list_lookup_imap, (Hrow record eq_refl).
        by destruct record.
      * cbn. by apply (filter_singleton_elem _ _ _ Hf).
  - destruct (read_thread_noop_after_annotation user thread reply s1 t
                category_record
                {| tr_pk := length (threadread_set s);
                   tr_row := created_row t
                     (Z.of_nat (length (visible_posts_upto s (pk t)
                        (posted_on reply))) - 1) reply |})
      as (s2 & Hann & Hnoop); [| | |done|by exists s2].
    + by rewrite Hobj.
    + done.
    + rewrite Hrows, threadread_objects_app, filter_app, Hf.
      by rewrite filter_cons_True, filter_nil.
Qed.

End advance.

(** *** The watermark of a thread *)

Section thread_watermark.

Variable is_date_tracked : Z → User → option Z → bool.
Variable start_record_rows : User → Z → list CategoryRead → list CategoryRead.
Variable sync_record_rows : User → Z → State → list CategoryRead.

(** The [CategoryRead] table after a completed [sync_record]: the cascade's,
    called on a state with the table as it was, when the reply is the
    thread's last post; unchanged otherwise. *)
Lemma sync_record_categories user thread reply s t attached :
  objects s !! thread = Some t →
  read_record t = Some attached →
  (∀ record, attached = Some record →
     is_Some (threadread_set s !! tr_pk record)) →
  ∃ s0,
    categoriesread_set s0 = categoriesread_set s
    ∧ categoriesread_set (sync_record sync_record_rows user thread reply s).2
      = if posted_on reply =? last_post_on t
        then sync_record_rows user (category_id t) s0
        else categoriesread_set s.
Proof.
  intros Ht Hr Hrow. unfold sync_record, count_read_replies.
  repeat (progress (msimpl; rewrite ?Ht, ?Hr)).
  destruct attached as [record|].
  - destruct (Hrow record eq_refl) as [row Hrow'].
    msimpl. rewrite Hrow'. msimpl.
    destruct (posted_on reply =? last_post_on t); msimpl;
      eexists; (split; [|reflexivity]); done.
  - destruct (posted_on reply =? last_post_on t); msimpl;
      eexists; (split; [|reflexivity]); done.
Qed.

(** [make_thread_read_aware] in a store with one [CategoryRead] for the
    thread's category and at most one [ThreadRead] for the thread: the
    thread comes out read, or unread with what the store holds for it. *)
Lemma make_thread_read_aware_well_kept user thread s t :
  objects s !! thread = Some t →
  well_kept s (category_id t) (pk t) →
  ∃ s1 t1,
    make_thread_read_aware is_date_tracked start_record_rows user thread s
    = (Ok tt, s1)
    ∧ objects s1 !! thread = Some t1
    ∧ pk t1 = pk t ∧ category_id t1 = category_id t
    ∧ threadread_set s1 = threadread_set s
    ∧ categoriesread_set s1 = categoriesread_set s
    ∧ ((∃ w, is_read t1 = Some true ∧ last_read_on t1 = Some w)
       ∨ (∃ w, is_read t1 = Some false ∧ last_read_on t1 = Some w
               ∧ read_record t1 = Some None
               ∧ filter (λ r, tr_thread_id (tr_row r) = pk t)
                   (threadread_objects (threadread_set s)) = [])
       ∨ (∃ record, is_read t1 = Some false
               ∧ last_read_on t1 = Some (tr_last_read_on (tr_row record))
               ∧ read_record t1 = Some (Some record)
               ∧ filter (λ r, tr_thread_id (tr_row r) = pk t)
                   (threadread_objects (threadread_set s)) = [record])).
Proof.
  intros Ht [[category_record Hc] Hlen].
  unfold thread_watermarks in Hlen. rewrite length_fmap in Hlen.
  unfold make_thread_read_aware, is_anonymous, is_authenticated.
  destruct (user_is_anonymous user); cbn [negb andb]; tsimpl; rewrite ?Ht;
    tsimpl.
  { eexists _, _. split; [reflexivity|]. cbn.
    rewrite !lookup_alter_eq, Ht. cbn. repeat (split; [done|]).
    left. by eexists. }
  destruct (is_date_tracked (last_post_on t) user None); tsimpl.
  2:{ eexists _, _. split; [reflexivity|]. cbn.
      rewrite !lookup_alter_eq, Ht. cbn. repeat (split; [done|]).
      left. by eexists. }
  rewrite Hc. tsimpl.
  destruct (last_post_on t >? cr_last_read_on category_record); tsimpl.
  2:{ eexists _, _. split; [reflexivity|]. cbn.
      rewrite !lookup_alter_eq, Ht. cbn. repeat (split; [done|]).
      left. by eexists. }
  destruct (filter (λ r, tr_thread_id (tr_row r) = pk t)
              (threadread_objects (threadread_set s)))
    as [|record [|record' records]] eqn:Hf; [| |cbn in Hlen; lia]; tsimpl.
  - eexists _, _. split; [reflexivity|]. cbn.
    rewrite !lookup_alter_eq, Ht. cbn. repeat (split; [done|]).
    right. left. by eexists.
  - destruct (last_post_on t <=? tr_last_read_on (tr_row record)); tsimpl;
      (eexists _, _; split; [reflexivity|]); cbn;
      rewrite !lookup_alter_eq, Ht; cbn; repeat (split; [done|]).
    + left. by eexists.
    + right. right. by exists record.
Qed.

(** One reply read in turn in a well-kept store. *)
Lemma read_in_turn_step user thread reply s t :
  objects s !! thread = Some t →
  well_kept s (category_id t) (pk t) →
  cascade_keeps_category sync_record_rows user (category_id t) →
  ∃ s2 t2,
    (read_thread sync_record_rows user thread reply
       (make_thread_read_aware is_date_tracked start_record_rows
          user thread s).2).2 = s2
    ∧ objects s2 !! thread = Some t2
    ∧ pk t2 = pk t ∧ category_id t2 = category_id t
    ∧ well_kept s2 (category_id t) (pk t)
    ∧ watermark_never_decreased (thread_watermarks s (pk t))
        (thread_watermarks s2 (pk t)).
Proof.
  intros Ht Hkept Hcascade.
  destruct (make_thread_read_aware_well_kept user thread s t Ht Hkept)
    as (s1 & t1 & Hann & Ht1 & Hpk & Hcat & Hrows & Hcats & Hcases).
  rewrite Hann. cbn [snd].
  assert (Hsame : well_kept s1 (category_id t) (pk t)
                  ∧ watermark_never_decreased (thread_watermarks s (pk t))
                      (thread_watermarks s1 (pk t))).
  { unfold well_kept, thread_watermarks. rewrite Hrows, Hcats.
    split; [done|]. intros w Hw.
    destruct Hkept as [_ Hlen]. unfold thread_watermarks in Hlen.
    destruct (_ <$> filter _ (threadread_objects (threadread_set s)))
      as [|w0 [|w1 ws]]; [by apply not_elem_of_nil in Hw| |cbn in Hlen; lia].
    apply list_elem_of_singleton in Hw as ->. by exists w0. }
  assert (Hskip : ∀ read w, is_read t1 = Some read → last_read_on t1 = Some w →
            read = true ∨ posted_on reply ≤ w →
            ∃ s2 t2,
              (read_thread sync_record_rows user thread reply s1).2 = s2
              ∧ objects s2 !! thread = Some t2
              ∧ pk t2 = pk t ∧ category_id t2 = category_id t
              ∧ well_kept s2 (category_id t) (pk t)
              ∧ watermark_never_decreased (thread_watermarks s (pk t))
                  (thread_watermarks s2 (pk t))).
  { intros read w Hr Hw Hguard.
    rewrite (read_thread_guarded sync_record_rows user thread reply s1 t1
               read w Ht1 Hr Hw Hguard).
    exists s1, t1. by destruct Hsame. }
  destruct Hcases as [(w & Hr & Hw)|[(w & Hr & Hw & Hrec & Hf)
                                    |(record & Hr & Hw & Hrec & Hf)]].
  - apply (Hskip true w); [done|done|by left].
  - destruct (decide (w < posted_on reply)) as [Hlt|Hge];
      [|apply (Hskip false w); [done|done|right; lia]].
    rewrite (read_thread_advances sync_record_rows user thread reply s1 t1 w
               Ht1 Hr Hw Hlt).
    destruct (sync_record_run sync_record_rows user thread reply s1 t1 None
                Ht1 Hrec) as (s2 & Hrun & Hobj & _ & Hrows2 & _); [done|].
    destruct (sync_record_categories user thread reply s1 t1 None Ht1 Hrec)
      as (s0 & Hs0 & Hcats2); [done|].
    rewrite Hrun in Hcats2 |- *. cbn [snd] in Hcats2 |- *.
    exists s2, t1. split; [done|]. split; [by rewrite Hobj|].
    split; [done|]. split; [done|].
    assert (Hws : thread_watermarks s2 (pk t) = [posted_on reply]).
    { unfold thread_watermarks.
      rewrite Hrows2, Hrows, threadread_objects_app, filter_app, Hf.
      rewrite filter_cons_True by (cbn; congruence). by rewrite filter_nil. }
    split; [split|].
    + rewrite Hcats2, Hcat. destruct (posted_on reply =? last_post_on t1).
      * apply Hcascade. rewrite Hs0, Hcats. by destruct Hkept.
      * rewrite Hcats. by destruct Hkept.
    + by rewrite Hws.
    + unfold thread_watermarks at 1. rewrite Hf. by intros ? ?%not_elem_of_nil.
  - destruct (decide (tr_last_read_on (tr_row record) < posted_on reply))
      as [Hlt|Hge];
      [|apply (Hskip false (tr_last_read_on (tr_row record)));
        [done|done|right; lia]].
    rewrite (read_thread_advances sync_record_rows user thread reply s1 t1 _
               Ht1 Hr Hw Hlt).
    assert (Hrow : threadread_set s1 !! tr_pk record = Some (tr_row record)).
    { rewrite Hrows. apply threadread_objects_elem.
      by apply (filter_singleton_elem _ _ _ Hf). }
    destruct (sync_record_run sync_record_rows user thread reply s1 t1
                (Some record) Ht1 Hrec) as (s2 & Hrun & Hobj & _ & Hrows2 & _).
    { intros ? [= <-]. by rewrite Hrow. }
    destruct (sync_record_categories user thread reply s1 t1 (Some record)
                Ht1 Hrec) as (s0 & Hs0 & Hcats2).
    { intros ? [= <-]. by rewrite Hrow. }
    rewrite Hrun in Hcats2 |- *. cbn [snd] in Hcats2 |- *.
    rewrite Hrow in Hrows2.
    eexists s2, _. split; [done|].
    split; [by rewrite Hobj, lookup_alter_eq, Ht1|].
    split; [done|]. split; [done|].
    assert (Hws : thread_watermarks s2 (pk t) = [posted_on reply]).
    { unfold thread_watermarks.
      rewrite Hrows2, Hrows, threadread_objects_insert.
      erewrite filter_insert_singleton; [done|exact Hf| |].
      - unfold threadread_objects. rewrite Hrows in Hrow.
        rewrite list_lookup_imap, Hrow. by destruct record.
      - cbn. by apply (filter_singleton_elem _ _ _ Hf). }
    split; [split|].
    + rewrite Hcats2, Hcat. destruct (posted_on reply =? last_post_on t1).
      * apply Hcascade. rewrite Hs0, Hcats. by destruct Hkept.
      * rewrite Hcats. by destruct Hkept.
    + by rewrite Hws.
    + unfold thread_watermarks at 1. rewrite Hf, Hws. cbn.
      intros w ->%list_elem_of_singleton. exists (posted_on reply).
      split; [done|lia].
Qed.

Lemma watermark_never_decreased_trans ws1 ws2 ws3 :
  watermark_never_decreased ws1 ws2 → watermark_never_decreased ws2 ws3 →
  watermark_never_decreased ws1 ws3.
Proof.
  intros H12 H23 w Hw. destruct (H12 w Hw) as (w2 & -> & Hle2).
  destruct (H23 w2) as (w3 & -> & Hle3); [by left|].
  exists w3. split; [done|lia].
Qed.

(** C3 (as amended). Over any sequence of replies read in turn, each through
    [make_thread_read_aware] followed by [read_thread]: in any store no
    [ThreadRead] row moves back; and in a store that holds one
    [CategoryRead] for the thread's category (the category tracker's cascade
    keeping it so) and at most one [ThreadRead] for the thread, the store
    stays so and the watermark stored for the (user, thread) pair never
    decreases: if the thread had a stored [last_read_on] before, it has
    exactly one afterwards, equal or later. *)
Theorem read_thread_never_regresses user thread replies s :
  rows_never_regress (threadread_set s)
    (threadread_set
       (read_in_turn is_date_tracked start_record_rows sync_record_rows
          user thread replies s))
  ∧ ∀ t,
      objects s !! thread = Some t →
      well_kept s (category_id t) (pk t) →
      cascade_keeps_category sync_record_rows user (category_id t) →
      well_kept
        (read_in_turn is_date_tracked start_record_rows sync_record_rows
           user thread replies s) (category_id t) (pk t)
      ∧ watermark_never_decreased (thread_watermarks s (pk t))
          (thread_watermarks
             (read_in_turn is_date_tracked start_record_rows sync_record_rows
                user thread replies s) (pk t)).
Proof.
  split; [apply read_in_turn_rows|].
  revert s. induction replies as [|reply replies IH];
    intros s t Ht Hkept Hcascade; cbn [read_in_turn].
  - split; [done|]. intros w Hw. destruct Hkept as [_ Hlen].
    destruct (thread_watermarks s (pk t)) as [|w0 [|w1 ws]];
      [by apply not_elem_of_nil in Hw| |cbn in Hlen; lia].
    apply list_elem_of_singleton in Hw as ->. by exists w0.
  - destruct (read_in_turn_step user thread reply s t Ht Hkept Hcascade)
      as (s2 & t2 & -> & Ht2 & Hpk & Hcat & Hkept2 & Hmono).
    destruct (IH s2 t2 Ht2) as [Hkept3 Hmono3].
    + by rewrite Hpk, Hcat.
    + by rewrite Hcat.
    + rewrite Hpk, Hcat in *. split; [done|].
      by eapply watermark_never_decreased_trans.
Qed.

End thread_watermark.

(** ** The annotation paths together *)

(** C1 (as amended). After batch annotation ([make_threads_read_aware], and
    [make_read_aware] on an iterable), every thread of the batch carries
    [is_read] and [unread_replies]; [unread_replies] is 0 when [is_read] is
    true, and at least 1 when [is_read] is false and the thread has a reply
    (as it has when a trackable reply lies past the watermark). *)
Theorem batch_annotation_consistent
    (is_date_tracked : Z → User → option Z → bool)
    (start_record_rows : User → Z → list CategoryRead → list CategoryRead)
    user threads category s :
  (∀ thread, thread ∈ threads → is_Some (objects s !! thread)) →
  (∃ s',
     make_threads_read_aware is_date_tracked user threads category s
     = (Ok tt, s')
     ∧ ∀ thread, thread ∈ threads →
         ∃ t', objects s' !! thread = Some t' ∧ read_state_consistent t')
  ∧ (∃ s',
       make_read_aware is_date_tracked start_record_rows user (Threads threads) s
       = (Ok tt, s')
       ∧ ∀ thread, thread ∈ threads →
           ∃ t', objects s' !! thread = Some t' ∧ read_state_consistent t').
Proof.
  intros Hvalid. split.
  - destruct (make_threads_read_aware_run is_date_tracked user threads
                category s Hvalid) as (s' & Hrun & _ & _ & _ & Hobj).
    exists s'. split; [exact Hrun|]. intros thread Hin.
    destruct (Hvalid thread Hin) as [t Ht].
    destruct (Hobj thread t Hin Ht) as (t' & Ht' & Hcons & _). by exists t'.
  - destruct (make_threads_read_aware_run is_date_tracked user threads
                None s Hvalid) as (s' & Hrun & _ & _ & _ & Hobj).
    exists s'. split; [exact Hrun|]. intros thread Hin.
    destruct (Hvalid thread Hin) as [t Ht].
    destruct (Hobj thread t Hin Ht) as (t' & Ht' & Hcons & _). by exists t'.
Qed.

(** C9 (as amended). For an anonymous user no annotation path touches the
    store or emits anything; batch annotation leaves every thread read, not
    new and with no unread replies; single-thread annotation leaves the
    thread read and not new, and leaves [unread_replies] as it found it. *)
Theorem anonymous_annotation
    (is_date_tracked : Z → User → option Z → bool)
    (start_record_rows : User → Z → list CategoryRead → list CategoryRead)
    user s threads category thread t :
  is_anonymous user = true →
  objects s !! thread = Some t →
  (∃ s',
     make_threads_read_aware is_date_tracked user threads category s
     = (Ok tt, s')
     ∧ log s' = log s
     ∧ categoriesread_set s' = categoriesread_set s
     ∧ threadread_set s' = threadread_set s
     ∧ ∀ thread0 t0, thread0 ∈ threads → objects s !! thread0 = Some t0 →
         ∃ t', objects s' !! thread0 = Some t'
           ∧ is_read t' = Some true ∧ is_new t' = Some false
           ∧ unread_replies t' = Some 0)
  ∧ (∃ s' t',
       make_thread_read_aware is_date_tracked start_record_rows user thread s
       = (Ok tt, s')
       ∧ log s' = log s
       ∧ categoriesread_set s' = categoriesread_set s
       ∧ threadread_set s' = threadread_set s
       ∧ objects s' !! thread = Some t'
       ∧ is_read t' = Some true ∧ is_new t' = Some false
       ∧ unread_replies t' = unread_replies t).
Proof.
  intros Hanon Ht. split.
  - unfold make_threads_read_aware. rewrite Hanon.
    destruct (make_read_run threads s) as (s' & Hrun & Hlog & Hcat & Hrows & Hobj).
    destruct threads as [|l rest] eqn:Hthreads.
    + exists s. repeat (split; [done|]). intros thread0 t0 Hin.
      by apply not_elem_of_nil in Hin.
    + exists s'. split; [exact Hrun|]. repeat (split; [done|]).
      intros thread0 t0 Hin Ht0. exists (marked_read t0).
      rewrite Hobj, Ht0. cbn. by rewrite decide_True.
  - apply (make_thread_read_aware_untracked is_date_tracked start_record_rows
             user thread s t Ht).
    unfold is_authenticated. unfold is_anonymous in Hanon. by rewrite Hanon.
Qed.

Lemma is_date_tracked_before_cutoff content_date user cutoff :
  content_date < reads_cutoff user →
  dates.is_date_tracked content_date user cutoff = false.
Proof.
  intros Hlt. unfold dates.is_date_tracked.
  by replace (content_date <=? reads_cutoff user) with true by lia.
Qed.

(** C7 (as amended). A thread whose last post is earlier than the user's
    [reads_cutoff]: single-thread annotation leaves it read and not new and
    makes no storage lookup (nothing is emitted at all); batch annotation
    leaves it read with no unread replies. *)
Theorem untracked_thread_annotation
    (start_record_rows : User → Z → list CategoryRead → list CategoryRead)
    user thread s t threads category :
  objects s !! thread = Some t →
  last_post_on t < reads_cutoff user →
  thread ∈ threads →
  (∀ thread', thread' ∈ threads → is_Some (objects s !! thread')) →
  (∃ s' t',
     make_thread_read_aware dates.is_date_tracked start_record_rows user thread s
     = (Ok tt, s')
     ∧ log s' = log s
     ∧ objects s' !! thread = Some t'
     ∧ is_read t' = Some true ∧ is_new t' = Some false)
  ∧ (∃ s' t',
       make_threads_read_aware dates.is_date_tracked user threads category s
       = (Ok tt, s')
       ∧ objects s' !! thread = Some t'
       ∧ is_read t' = Some true ∧ unread_replies t' = Some 0).
Proof.
  intros Ht Hold Hin Hvalid. split.
  - destruct (make_thread_read_aware_untracked dates.is_date_tracked
                start_record_rows user thread s t Ht)
      as (s' & t' & Hrun & Hlog & _ & _ & Ht' & Hread & Hnew & _).
    { rewrite is_date_tracked_before_cutoff by done. apply andb_false_r. }
    by exists s', t'.
  - destruct (make_threads_read_aware_run dates.is_date_tracked user threads
                category s Hvalid) as (s' & Hrun & _ & _ & _ & Hobj).
    destruct (Hobj thread t Hin Ht) as (t' & Ht' & _ & _ & Hun).
    destruct Hun as [Hread Hunread].
    { intros cutoff. by apply is_date_tracked_before_cutoff. }
    by exists s', t'.
Qed.

(** ** The properties on the sample data *)

(** On the sample store the attached record's row exists: the call clears
    ["read_thread_7"] only and sends neither signal at reply 6 of 10. *)
Lemma sync_record_triggers_and_signals_witness :
  ∃ s' events triggers,
    sync_record sample.sync_rows sample.member 0%nat (sample.post 7 6 false)
      (sample.store [sample.tracked_thread] sample.category1_read_to_2
         [sample.row7]) = (Ok tt, s')
    ∧ log s' = [] ++ events
    ∧ filter (λ e, is_notification_clear e = true) events
        = [ReadUserNotifications triggers false]
    ∧ "read_thread_" +:+ pretty 7 ∈ triggers
    ∧ ("see_thread_" +:+ pretty 7 ∈ triggers
       ↔ Some {| tr_pk := 0; tr_row := sample.row7 |} = None)
    ∧ (SignalThreadTracked 7 ∈ events
       ↔ Some {| tr_pk := 0; tr_row := sample.row7 |} = None)
    ∧ occurrences (SignalThreadRead 7) events
        = (if decide (6 = 10) then 1 else 0)%nat
    ∧ occurrences (CategorySyncRecord 1) events
        = (if decide (6 = 10) then 1 else 0)%nat.
Proof.
  apply (sync_record_triggers_and_signals sample.sync_rows sample.member 0%nat
           (sample.post 7 6 false)
           (sample.store [sample.tracked_thread] sample.category1_read_to_2
              [sample.row7])
           sample.tracked_thread
           (Some {| tr_pk := 0; tr_row := sample.row7 |})).
  - reflexivity.
  - reflexivity.
  - intros record [= <-]. eexists. reflexivity.
Defined.

(** A reply older than every visible post of thread 7 (its starting post is
    still in moderation, say): the created row holds [-1]. *)
Lemma sync_record_stores_read_replies_witness :
  ∃ s' row,
    sync_record sample.sync_rows sample.member 0%nat (sample.post 7 3 true)
      (sample.store [sample.new_thread] sample.category1_read_to_2 [])
      = (Ok tt, s')
    ∧ threadread_set s' !! 0%nat = Some row
    ∧ tr_read_replies row = -1.
Proof.
  destruct (sync_record_stores_read_replies sample.sync_rows sample.member
              0%nat (sample.post 7 3 true)
              (sample.store [sample.new_thread] sample.category1_read_to_2 [])
              sample.new_thread None eq_refl eq_refl)
    as (s' & row & Hrun & Hrow & _ & Hnone).
  - intros record [=].
  - exists s', row. split; [exact Hrun|]. split; [exact Hrow|].
    apply Hnone. reflexivity.
Defined.

(** Two fresh threads annotated as a batch for [member]. *)
Lemma batch_annotation_consistent_witness :
  (∃ s',
     make_threads_read_aware dates.is_date_tracked sample.member [0; 1]%nat None
       (sample.store [sample.fresh_thread 7 1 10 2; sample.fresh_thread 8 1 0 0]
          sample.category1_read_to_2 [sample.row7]) = (Ok tt, s')
     ∧ ∀ thread, thread ∈ [0; 1]%nat →
         ∃ t', objects s' !! thread = Some t' ∧ read_state_consistent t')
  ∧ (∃ s',
       make_read_aware dates.is_date_tracked sample.start_rows sample.member
         (Threads [0; 1]%nat)
         (sample.store [sample.fresh_thread 7 1 10 2; sample.fresh_thread 8 1 0 0]
            sample.category1_read_to_2 [sample.row7]) = (Ok tt, s')
       ∧ ∀ thread, thread ∈ [0; 1]%nat →
           ∃ t', objects s' !! thread = Some t' ∧ read_state_consistent t').
Proof.
  apply (batch_annotation_consistent dates.is_date_tracked sample.start_rows
           sample.member [0; 1]%nat None).
  intros thread Hin. apply list_elem_of_In in Hin.
  destruct Hin as [<-|[<-|[]]]; eexists; reflexivity.
Defined.

(** C1 as stated fails on the single-thread path, which never sets
    [unread_replies]: a thread the category watermark covers is left read
    with [unread_replies] unset when it comes fresh from the database, and
    with the 10 unread replies of an earlier batch annotation when it
    carries them. *)
Lemma single_annotation_leaves_unread_replies_alone :
  (∃ s' t',
     make_read_aware dates.is_date_tracked sample.start_rows sample.member
       (OneThread 0%nat)
       (sample.store [sample.fresh_thread 7 1 10 10]
          sample.category1_read_to_20 [])
     = (Ok tt, s')
     ∧ objects s' !! 0%nat = Some t'
     ∧ is_read t' = Some true
     ∧ unread_replies t' = None)
  ∧ (∃ s' t',
       make_read_aware dates.is_date_tracked sample.start_rows sample.member
         (OneThread 0%nat)
         (sample.store [sample.batch_thread] sample.category1_read_to_20 [])
       = (Ok tt, s')
       ∧ objects s' !! 0%nat = Some t'
       ∧ is_read t' = Some true
       ∧ unread_replies t' = Some 10).
Proof.
  split.
  - let s' := eval vm_compute in
        (make_read_aware dates.is_date_tracked sample.start_rows sample.member
           (OneThread 0%nat)
           (sample.store [sample.fresh_thread 7 1 10 10]
              sample.category1_read_to_20 [])).2 in
    exists s'; eexists;
      repeat (refine (conj _ _); [vm_compute; reflexivity|]);
      vm_compute; reflexivity.
  - let s' := eval vm_compute in
        (make_read_aware dates.is_date_tracked sample.start_rows sample.member
           (OneThread 0%nat)
           (sample.store [sample.batch_thread]
              sample.category1_read_to_20 [])).2 in
    exists s'; eexists;
      repeat (refine (conj _ _); [vm_compute; reflexivity|]);
      vm_compute; reflexivity.
Qed.

(** Reply 6 read twice on thread 7, annotated anew in between. *)
Lemma read_thread_again_is_noop_witness :
  ∃ s1 s2,
    read_thread sample.sync_rows sample.member 0%nat (sample.post 7 6 false)
      (sample.store [sample.tracked_thread] sample.category1_read_to_2
         [sample.row7]) = (Ok tt, s1)
    ∧ make_thread_read_aware dates.is_date_tracked sample.start_rows
        sample.member 0%nat s1 = (Ok tt, s2)
    ∧ read_thread sample.sync_rows sample.member 0%nat (sample.post 7 6 false) s2
      = (Ok tt, s2).
Proof.
  apply (read_thread_again_is_noop dates.is_date_tracked sample.start_rows
           sample.sync_rows sample.member 0%nat (sample.post 7 6 false)
           (sample.store [sample.tracked_thread] sample.category1_read_to_2
              [sample.row7])
           sample.tracked_thread 4
           (Some {| tr_pk := 0; tr_row := sample.row7 |})
           {| cr_category_id := 1; cr_last_read_on := 2 |}).
  - reflexivity.
  - reflexivity.
  - reflexivity.
  - cbn. lia.
  - reflexivity.
  - reflexivity.
  - reflexivity.
Defined.

(** C2 as stated fails: the second of two [read_thread] calls with the same
    arguments, on the thread object as the first call left it, creates a
    second [ThreadRead] row and clears the notifications again. *)
Lemma read_thread_twice_repeats_sync :
  ∃ s1 s2,
    read_thread sample.sync_rows sample.member 0%nat (sample.post 7 6 false)
      (sample.store [sample.new_thread] sample.category1_read_to_2 [])
    = (Ok tt, s1)
    ∧ read_thread sample.sync_rows sample.member 0%nat (sample.post 7 6 false) s1
      = (Ok tt, s2)
    ∧ length (threadread_set s1) = 1%nat
    ∧ length (threadread_set s2) = 2%nat
    ∧ length (filter (λ e, is_notification_clear e = true) (log s1)) = 1%nat
    ∧ length (filter (λ e, is_notification_clear e = true) (log s2)) = 2%nat.
Proof.
  eexists _, _. split; [reflexivity|]. split; [reflexivity|].
  vm_compute. by repeat split.
Qed.

(** C3 as stated fails: two successive [sync_record] calls, each of them what
    [read_thread] does on the thread object at hand, move the stored
    [last_read_on] from 4 to 10 and then back to 6. *)
Lemma sync_record_moves_watermark_back :
  ∃ s1 s2,
    sync_record sample.sync_rows sample.member 0%nat (sample.post 7 10 false)
      (sample.store [sample.tracked_thread] sample.category1_read_to_2
         [sample.row7]) = (Ok tt, s1)
    ∧ sync_record sample.sync_rows sample.member 0%nat (sample.post 7 6 false) s1
      = (Ok tt, s2)
    ∧ read_thread sample.sync_rows sample.member 0%nat (sample.post 7 10 false)
        (sample.store [sample.tracked_thread] sample.category1_read_to_2
           [sample.row7]) = (Ok tt, s1)
    ∧ read_thread sample.sync_rows sample.member 0%nat (sample.post 7 6 false) s1
      = (Ok tt, s2)
    ∧ tr_last_read_on <$> threadread_set s1 !! 0%nat = Some 10
    ∧ tr_last_read_on <$> threadread_set s2 !! 0%nat = Some 6.
Proof.
  let s1 := eval vm_compute in
      (sync_record sample.sync_rows sample.member 0%nat
         (sample.post 7 10 false)
         (sample.store [sample.tracked_thread] sample.category1_read_to_2
            [sample.row7])).2 in
  let s2 := eval vm_compute in
      (sync_record sample.sync_rows sample.member 0%nat
         (sample.post 7 6 false) s1).2 in
  exists s1, s2;
    repeat (refine (conj _ _); [vm_compute; reflexivity|]);
    vm_compute; reflexivity.
Qed.

(** Scenario D: a record with 3 replies read and a stale watermark, on a
    thread with 10 replies. *)
Lemma make_threads_dict_read_aware_refines_witness :
  ∃ s' t',
    make_threads_dict_read_aware sample.member {[7 := 0%nat]}
      (sample.store [sample.batch_thread] sample.category1_read_to_2
         [sample.row7_three_read]) = (Ok tt, s')
    ∧ objects s' !! 0%nat = Some t'
    ∧ is_new t' = Some false
    ∧ is_read t' = Some false
    ∧ unread_replies t' = Some 7.
Proof.
  destruct (make_threads_dict_read_aware_refines sample.member {[7 := 0%nat]}
              (sample.store [sample.batch_thread] sample.category1_read_to_2
                 [sample.row7_three_read])) as (s' & Hrun & Hall).
  { intros k thread [<- <-]%lookup_singleton_Some. eexists. by split. }
  specialize (Hall 7 0%nat sample.batch_thread eq_refl eq_refl).
  change (matching_record _ 7)
    with (Some {| tr_pk := 0; tr_row := sample.row7_three_read |}) in Hall.
  destruct Hall as (t' & Ht' & Hnew & Hread & Hunread).
  exists s', t'. split; [exact Hrun|]. split; [exact Ht'|].
  split; [exact Hnew|]. split; [exact Hread|exact Hunread].
Defined.

(** Scenarios B and C: no [CategoryRead] for category 1, and one that covers
    the thread's last post. *)
Lemma make_thread_read_aware_category_watermark_witness :
  (∃ s' t',
     make_thread_read_aware dates.is_date_tracked sample.start_rows
       sample.member 0%nat
       (sample.store [sample.fresh_thread 7 1 10 2] [] []) = (Ok tt, s')
     ∧ log s' = [] ++ [CategoryReadGet 1; StartRecord 1]
     ∧ categoriesread_set s' = sample.start_rows sample.member 1 []
     ∧ objects s' !! 0%nat = Some t'
     ∧ is_read t' = Some false ∧ is_new t' = Some true)
  ∧ (∃ s' t' events,
       make_thread_read_aware dates.is_date_tracked sample.start_rows
         sample.member 0%nat
         (sample.store [sample.fresh_thread 7 1 10 2]
            sample.category1_read_to_20 []) = (Ok tt, s')
       ∧ log s' = [] ++ events
       ∧ Forall (λ e, is_thread_read_lookup e = false) events
       ∧ objects s' !! 0%nat = Some t'
       ∧ is_read t' = Some true ∧ is_new t' = Some false).
Proof.
  split.
  - apply (make_thread_read_aware_category_watermark dates.is_date_tracked
             sample.start_rows sample.member 0%nat
             (sample.store [sample.fresh_thread 7 1 10 2] [] [])
             (sample.fresh_thread 7 1 10 2));
      reflexivity.
  - apply (make_thread_read_aware_category_watermark dates.is_date_tracked
             sample.start_rows sample.member 0%nat
             (sample.store [sample.fresh_thread 7 1 10 2]
                sample.category1_read_to_20 [])
             (sample.fresh_thread 7 1 10 2) eq_refl eq_refl eq_refl)
      with (category_record := {| cr_category_id := 1; cr_last_read_on := 20 |}).
    + reflexivity.
    + cbn. lia.
Defined.

(** Scenario A: thread 7, last post at 10, for a member whose horizon is 20. *)
Lemma untracked_thread_annotation_witness :
  (∃ s' t',
     make_thread_read_aware dates.is_date_tracked sample.start_rows
       sample.late_member 0%nat
       (sample.store [sample.fresh_thread 7 1 10 2] [] []) = (Ok tt, s')
     ∧ log s' = []
     ∧ objects s' !! 0%nat = Some t'
     ∧ is_read t' = Some true ∧ is_new t' = Some false)
  ∧ (∃ s' t',
       make_threads_read_aware dates.is_date_tracked sample.late_member
         [0%nat] None
         (sample.store [sample.fresh_thread 7 1 10 2] [] []) = (Ok tt, s')
       ∧ objects s' !! 0%nat = Some t'
       ∧ is_read t' = Some true ∧ unread_replies t' = Some 0).
Proof.
  apply (untracked_thread_annotation sample.start_rows sample.late_member 0%nat
           (sample.store [sample.fresh_thread 7 1 10 2] [] [])
           (sample.fresh_thread 7 1 10 2) [0%nat] None).
  - reflexivity.
  - cbn. lia.
  - apply list_elem_of_here.
  - intros thread' Hin. apply list_elem_of_In in Hin.
    destruct Hin as [<-|[]]. eexists. reflexivity.
Defined.

(** C7 as stated fails on the batch path: the untracked thread is marked
    new, and the categories' watermarks are fetched from the store before any
    thread is looked at. *)
Lemma batch_annotation_of_untracked_thread :
  ∃ s' t',
    make_threads_read_aware dates.is_date_tracked sample.late_member [0%nat] None
      (sample.store [sample.fresh_thread 7 1 10 2] [] []) = (Ok tt, s')
    ∧ objects s' !! 0%nat = Some t'
    ∧ last_post_on t' < reads_cutoff sample.late_member
    ∧ is_read t' = Some true
    ∧ is_new t' = Some true
    ∧ log s' = [CategoryReadFilter [1]]
    ∧ is_storage_access (CategoryReadFilter [1]) = true.
Proof. eexists _, _. split; [reflexivity|]. vm_compute. by repeat split. Qed.

(** The posts of thread 7, read up to 4, for [member]. *)
Lemma make_posts_read_aware_marks_witness :
  make_posts_read_aware dates.is_date_tracked sample.member 0%nat sample.posts
    (sample.store [sample.tracked_thread] sample.category1_read_to_2
       [sample.row7])
  = (Ok (mark_post dates.is_date_tracked sample.member 4 <$> sample.posts),
     sample.store [sample.tracked_thread] sample.category1_read_to_2
       [sample.row7]).
Proof.
  destruct (make_posts_read_aware_marks dates.is_date_tracked sample.member
              0%nat sample.posts
              (sample.store [sample.tracked_thread] sample.category1_read_to_2
                 [sample.row7])
              sample.tracked_thread eq_refl) as (_ & _ & _ & Hunread).
  exact (Hunread 4 eq_refl eq_refl).
Defined.

(** C8 as stated fails: a thread annotated by the batch path carries
    [is_read], so the usage error is not raised, but it carries no
    [last_read_on], and the first tracked post raises [AttributeError]. *)
Lemma make_posts_read_aware_after_batch_annotation :
  ∃ s1 t1 s2,
    make_threads_read_aware dates.is_date_tracked sample.member [0%nat] None
      (sample.store [sample.fresh_thread 7 1 10 2] sample.category1_read_to_2 [])
    = (Ok tt, s1)
    ∧ objects s1 !! 0%nat = Some t1
    ∧ is_read t1 = Some false
    ∧ make_posts_read_aware dates.is_date_tracked sample.member 0%nat
        sample.posts s1
      = (Raise (AttributeError "last_read_on"), s2).
Proof.
  eexists _, _, _. split; [reflexivity|]. split; [reflexivity|].
  split; [reflexivity|]. reflexivity.
Qed.

(** A guest: a batch of one thread, and the thread on its own. *)
Lemma anonymous_annotation_witness :
  (∃ s',
     make_threads_read_aware dates.is_date_tracked sample.guest [0%nat] None
       (sample.store [sample.fresh_thread 7 1 10 2] [] []) = (Ok tt, s')
     ∧ log s' = []
     ∧ categoriesread_set s' = []
     ∧ threadread_set s' = []
     ∧ ∀ thread0 t0, thread0 ∈ [0%nat] →
         objects (sample.store [sample.fresh_thread 7 1 10 2] [] [])
           !! thread0 = Some t0 →
         ∃ t', objects s' !! thread0 = Some t'
           ∧ is_read t' = Some true ∧ is_new t' = Some false
           ∧ unread_replies t' = Some 0)
  ∧ (∃ s' t',
       make_thread_read_aware dates.is_date_tracked sample.start_rows
         sample.guest 0%nat
         (sample.store [sample.fresh_thread 7 1 10 2] [] []) = (Ok tt, s')
       ∧ log s' = []
       ∧ categoriesread_set s' = []
       ∧ threadread_set s' = []
       ∧ objects s' !! 0%nat = Some t'
       ∧ is_read t' = Some true ∧ is_new t' = Some false
       ∧ unread_replies t' = None).
Proof.
  apply (anonymous_annotation dates.is_date_tracked sample.start_rows
           sample.guest
           (sample.store [sample.fresh_thread 7 1 10 2] [] [])
           [0%nat] None 0%nat (sample.fresh_thread 7 1 10 2)).
  - reflexivity.
  - reflexivity.
Defined.

(** C9 as stated fails on the single-thread path: the guest's thread is left
    read and not new, and [unread_replies] is left unset. *)
Lemma anonymous_single_annotation_leaves_unread_replies_unset :
  ∃ s' t',
    make_thread_read_aware dates.is_date_tracked sample.start_rows sample.guest
      0%nat (sample.store [sample.fresh_thread 7 1 10 2] [] []) = (Ok tt, s')
    ∧ objects s' !! 0%nat = Some t'
    ∧ is_read t' = Some true ∧ is_new t' = Some false
    ∧ unread_replies t' ≠ Some 0
    ∧ log s' = [].
Proof. eexists _, _. split; [reflexivity|]. vm_compute. by repeat split. Qed.

(** Thread 7 with [row7] stored, read up to reply 6 and then up to reply 10:
    one watermark is stored for it afterwards, not earlier than 4. *)
Lemma read_thread_never_regresses_witness :
  ∃ w',
    thread_watermarks
      (read_in_turn dates.is_date_tracked sample.start_rows sample.sync_rows
         sample.member 0%nat [sample.post 7 6 false; sample.post 7 10 false]
         (sample.store [sample.fresh_thread 7 1 10 2]
            sample.category1_read_to_2 [sample.row7])) 7 = [w']
    ∧ 4 ≤ w'.
Proof.
  destruct (read_thread_never_regresses dates.is_date_tracked
              sample.start_rows sample.sync_rows sample.member 0%nat
              [sample.post 7 6 false; sample.post 7 10 false]
              (sample.store [sample.fresh_thread 7 1 10 2]
                 sample.category1_read_to_2 [sample.row7]))
    as [_ Hpair].
  destruct (Hpair (sample.fresh_thread 7 1 10 2)) as [_ Hmono].
  - reflexivity.
  - split.
    + eexists. reflexivity.
    + vm_compute. apply le_n.
  - intros s0 Hs0. exact Hs0.
  - apply (Hmono 4). vm_compute. apply list_elem_of_here.
Defined.

(** Without a [CategoryRead] for the category the stored [ThreadRead] is not
    looked at: with thread 7 read up to 8, a fresh annotation leaves the
    thread unread with the user's [reads_cutoff] as [last_read_on], and
    reading reply 5 stores a second row, with 5. *)
Lemma read_in_turn_without_category_record :
  thread_watermarks
    (sample.store [sample.fresh_thread 7 1 10 2] []
       [sample_posts.row7_read_to_8]) 7 = [8]
  ∧ thread_watermarks
      (read_in_turn dates.is_date_tracked sample.start_rows sample.sync_rows
         sample.member 0%nat [sample.post 7 5 false]
         (sample.store [sample.fresh_thread 7 1 10 2] []
            [sample_posts.row7_read_to_8])) 7 = [8; 5].
Proof. split; vm_compute; reflexivity. Qed.

(** C5 as stated fails: the creation branch is not the first creation for
    the pair.  After a first [sync_record] on a thread with no record
    attached a [ThreadRead] of thread 7 is stored; the thread object still
    has no record attached, and a second [sync_record] on it creates another
    row, sends the thread-tracked signal and clears ["see_thread_7"]
    again. *)
Lemma sync_record_tracks_thread_again :
  ∃ s1 s2 events,
    sync_record sample.sync_rows sample.member 0%nat (sample.post 7 6 false)
      (sample.store [sample.new_thread] sample.category1_read_to_2 [])
    = (Ok tt, s1)
    ∧ thread_watermarks s1 7 = [6]
    ∧ sync_record sample.sync_rows sample.member 0%nat
        (sample.post 7 10 false) s1 = (Ok tt, s2)
    ∧ log s2 = log s1 ++ events
    ∧ occurrences (SignalThreadTracked 7) events = 1%nat
    ∧ filter (λ e, is_notification_clear e = true) events
      = [ReadUserNotifications
           ["read_thread_" +:+ pretty 7; "see_thread_" +:+ pretty 7] false]
    ∧ thread_watermarks s2 7 = [6; 10].
Proof.
  let s1 := eval vm_compute in
      (sync_record sample.sync_rows sample.member 0%nat
         (sample.post 7 6 false)
         (sample.store [sample.new_thread] sample.category1_read_to_2 [])).2 in
  let s2 := eval vm_compute in
      (sync_record sample.sync_rows sample.member 0%nat
         (sample.post 7 10 false) s1).2 in
  let events := eval vm_compute in (drop (length (log s1)) (log s2)) in
  exists s1, s2, events;
    repeat (refine (conj _ _); [vm_compute; reflexivity|]);
    vm_compute; reflexivity.
Qed.

(** * Further properties of the tracker *)

(** ** The single-thread path, with a category watermark in store *)

Section single_thread_watermarks.

Variable is_date_tracked : Z → User → option Z → bool.
Variable start_record_rows : User → Z → list CategoryRead → list CategoryRead.

(** X1. For an authenticated user and a tracked thread whose last post is
    later than the category's stored watermark: when exactly one [ThreadRead]
    is stored for the thread, the thread adopts its [last_read_on], is not
    new, is read exactly when its last post is not later than that
    watermark, and carries the record; when none is stored, the thread stays
    unread and new, with the user's [reads_cutoff] as [last_read_on] and no
    record.  Either way the store is only read: one [CategoryRead] lookup and
    one [ThreadRead] lookup, and no row written. *)
Theorem make_thread_read_aware_thread_watermark user thread s t category_record :
  objects s !! thread = Some t →
  is_authenticated user = true →
  is_date_tracked (last_post_on t) user None = true →
  filter (λ r, cr_category_id r = category_id t) (categoriesread_set s)
    = [category_record] →
  cr_last_read_on category_record < last_post_on t →
  (∀ record,
     filter (λ r, tr_thread_id (tr_row r) = pk t)
       (threadread_objects (threadread_set s)) = [record] →
     ∃ s' t',
       make_thread_read_aware is_date_tracked start_record_rows user thread s
       = (Ok tt, s')
       ∧ log s' = log s ++ [CategoryReadGet (category_id t); ThreadReadGet (pk t)]
       ∧ categoriesread_set s' = categoriesread_set s
       ∧ threadread_set s' = threadread_set s
       ∧ objects s' !! thread = Some t'
       ∧ last_read_on t' = Some (tr_last_read_on (tr_row record))
       ∧ is_new t' = Some false
       ∧ is_read t'
           = Some (last_post_on t <=? tr_last_read_on (tr_row record))
       ∧ read_record t' = Some (Some record))
  ∧ (filter (λ r, tr_thread_id (tr_row r) = pk t)
       (threadread_objects (threadread_set s)) = [] →
     ∃ s' t',
       make_thread_read_aware is_date_tracked start_record_rows user thread s
       = (Ok tt, s')
       ∧ log s' = log s ++ [CategoryReadGet (category_id t); ThreadReadGet (pk t)]
       ∧ categoriesread_set s' = categoriesread_set s
       ∧ threadread_set s' = threadread_set s
       ∧ objects s' !! thread = Some t'
       ∧ last_read_on t' = Some (reads_cutoff user)
       ∧ is_new t' = Some true
       ∧ is_read t' = Some false
       ∧ read_record t' = Some None).
Proof.
  intros Ht Hu Hd Hc Hlt.
  unfold make_thread_read_aware, is_authenticated, is_anonymous in *.
  destruct (user_is_anonymous user); [done|]. cbn [negb andb].
  split.
  - intros record Hf. tsimpl. rewrite Ht. tsimpl. rewrite Hd. tsimpl.
    rewrite Hc. tsimpl.
    replace (last_post_on t >? cr_last_read_on category_record) with true by lia.
    tsimpl. rewrite Hf. tsimpl.
    destruct (last_post_on t <=? tr_last_read_on (tr_row record)); tsimpl;
      (eexists _, _; split; [reflexivity|]); cbn;
      rewrite !lookup_alter_eq, Ht, <- app_assoc; cbn; done.
  - intros Hf. tsimpl. rewrite Ht. tsimpl. rewrite Hd. tsimpl.
    rewrite Hc. tsimpl.
    replace (last_post_on t >? cr_last_read_on category_record) with true by lia.
    tsimpl. rewrite Hf. tsimpl.
    eexists _, _. split; [reflexivity|]. cbn.
    rewrite !lookup_alter_eq, Ht, <- app_assoc. cbn. done.
Qed.

(** X2. Rows that are not unique are not "not found": when two or more
    [CategoryRead] rows are stored for the thread's category, or (the
    category's watermark being older than the thread) two or more
    [ThreadRead] rows for the thread, [make_thread_read_aware] raises
    [MultipleObjectsReturned]; [categoriestracker.start_record] is not
    called, no row is written, and the thread is left as the provisional
    pass has it, unread and new. *)
Theorem make_thread_read_aware_multiple_rows user thread s t :
  objects s !! thread = Some t →
  is_authenticated user = true →
  is_date_tracked (last_post_on t) user None = true →
  (∀ r1 r2 rows,
     filter (λ r, cr_category_id r = category_id t) (categoriesread_set s)
       = r1 :: r2 :: rows →
     ∃ s' t',
       make_thread_read_aware is_date_tracked start_record_rows user thread s
       = (Raise MultipleObjectsReturned, s')
       ∧ log s' = log s ++ [CategoryReadGet (category_id t)]
       ∧ categoriesread_set s' = categoriesread_set s
       ∧ threadread_set s' = threadread_set s
       ∧ objects s' !! thread = Some t'
       ∧ is_read t' = Some false ∧ is_new t' = Some true)
  ∧ (∀ category_record o1 o2 records,
       filter (λ r, cr_category_id r = category_id t) (categoriesread_set s)
         = [category_record] →
       cr_last_read_on category_record < last_post_on t →
       filter (λ r, tr_thread_id (tr_row r) = pk t)
         (threadread_objects (threadread_set s)) = o1 :: o2 :: records →
       ∃ s' t',
         make_thread_read_aware is_date_tracked start_record_rows user thread s
         = (Raise MultipleObjectsReturned, s')
         ∧ log s' = log s ++ [CategoryReadGet (category_id t);
                              ThreadReadGet (pk t)]
         ∧ categoriesread_set s' = categoriesread_set s
         ∧ threadread_set s' = threadread_set s
         ∧ objects s' !! thread = Some t'
         ∧ is_read t' = Some false ∧ is_new t' = Some true
         ∧ read_record t' = Some None).
Proof.
  intros Ht Hu Hd.
  unfold make_thread_read_aware, is_authenticated, is_anonymous in *.
  destruct (user_is_anonymous user); [done|]. cbn [negb andb].
  split.
  - intros r1 r2 rows Hc. tsimpl. rewrite Ht. tsimpl. rewrite Hd. tsimpl.
    rewrite Hc. tsimpl.
    eexists _, _. split; [reflexivity|]. cbn.
    rewrite !lookup_alter_eq, Ht. cbn. done.
  - intros cr o1 o2 records Hc Hlt Hf. tsimpl. rewrite Ht. tsimpl.
    rewrite Hd. tsimpl. rewrite Hc. tsimpl.
    replace (last_post_on t >? cr_last_read_on cr) with true by lia.
    tsimpl. rewrite Hf. tsimpl.
    eexists _, _. split; [reflexivity|]. cbn.
    rewrite !lookup_alter_eq, Ht, <- app_assoc. cbn. done.
Qed.

End single_thread_watermarks.

(** ** The write path at its edges *)

Section write_path_edges.

Variable sync_record_rows : User → Z → State → list CategoryRead.

Lemma log_grows_state_differs s s' events :
  log s' = log s ++ events → events ≠ [] → s' ≠ s.
Proof.
  intros Hlog Hne ->. apply Hne.
  apply (f_equal length) in Hlog. rewrite length_app in Hlog.
  destruct events; [done|]. cbn in Hlog. lia.
Qed.

(** X3. On a thread annotated by [make_thread_read_aware], [read_thread]
    returns the state exactly as it got it if and only if the thread is
    read or the reply is not later than the thread's [last_read_on]. *)
Theorem read_thread_unchanged_iff user thread reply s t read w attached :
  objects s !! thread = Some t →
  is_read t = Some read →
  last_read_on t = Some w →
  read_record t = Some attached →
  (∀ record, attached = Some record →
     is_Some (threadread_set s !! tr_pk record)) →
  read_thread sync_record_rows user thread reply s = (Ok tt, s)
  ↔ read = true ∨ posted_on reply ≤ w.
Proof.
  intros Ht Hr Hw Hrec Hrow. split.
  - intros Hrun. destruct read; [by left|]. right.
    destruct (Z.le_gt_cases (posted_on reply) w) as [|Hlt]; [done|].
    exfalso.
    rewrite (read_thread_advances sync_record_rows user thread reply s t w)
      in Hrun by done.
    destruct (sync_record_run sync_record_rows user thread reply s t attached
                Ht Hrec Hrow) as (s' & Hrun' & _ & _ & _ & Hlog).
    rewrite Hrun' in Hrun. injection Hrun as ->.
    by eapply log_grows_state_differs.
  - intros Hguard.
    by eapply (read_thread_guarded sync_record_rows user thread reply s t read w).
Qed.

(** X4. [read_thread] reads [is_read] first and [last_read_on] only for an
    unread thread: without [is_read] it raises [AttributeError]; a read
    thread is left alone even when it carries no [last_read_on]; an unread
    thread without [last_read_on] raises [AttributeError].  In all three
    cases the state is untouched. *)
Theorem read_thread_attribute_errors user thread reply s t :
  objects s !! thread = Some t →
  (is_read t = None →
   read_thread sync_record_rows user thread reply s
   = (Raise (AttributeError "is_read"), s))
  ∧ (is_read t = Some true →
     read_thread sync_record_rows user thread reply s = (Ok tt, s))
  ∧ (is_read t = Some false → last_read_on t = None →
     read_thread sync_record_rows user thread reply s
     = (Raise (AttributeError "last_read_on"), s)).
Proof.
  intros Ht. unfold read_thread. repeat split.
  - intros Hr. msimpl. by rewrite Ht, Hr.
  - intros Hr. msimpl. by rewrite Ht, Hr.
  - intros Hr Hw. repeat (progress (msimpl; cbn [negb]; rewrite ?Ht, ?Hr, ?Hw)).
    done.
Qed.

(** X5. [sync_record] on a thread that carries no [read_record] raises
    [AttributeError] after its count query and before any write; on a thread
    whose attached record has no row left, the save raises [DatabaseError]
    and the transaction leaves both tables as they were.  In neither case is
    a signal sent or a notification cleared. *)
Theorem sync_record_failures user thread reply s t :
  objects s !! thread = Some t →
  (read_record t = None →
   sync_record sync_record_rows user thread reply s
   = (Raise (AttributeError "read_record"),
      with_log (log s ++ [PostCount (pk t) (posted_on reply)]) s))
  ∧ (∀ record,
       read_record t = Some (Some record) →
       threadread_set s !! tr_pk record = None →
       ∃ s' saved,
         sync_record sync_record_rows user thread reply s
         = (Raise DatabaseError, s')
         ∧ threadread_set s' = threadread_set s
         ∧ categoriesread_set s' = categoriesread_set s
         ∧ log s' = log s ++ [PostCount (pk t) (posted_on reply);
                              ThreadReadSave saved]).
Proof.
  intros Ht. unfold sync_record, count_read_replies. split.
  - intros Hr. repeat (progress (msimpl; rewrite ?Ht, ?Hr)). done.
  - intros record Hr Hrow. repeat (progress (msimpl; rewrite ?Ht, ?Hr)).
    rewrite Hrow. msimpl. eexists _, _. split; [reflexivity|]. cbn.
    by rewrite <- app_assoc.
Qed.

(** X6. A completed [sync_record] touches one [ThreadRead] row and nothing
    else in the store: with a record attached, the table keeps its length,
    every other row is as before and the record's row keeps its thread and
    its category; with none attached, one row is appended to the rows as
    they were.  The posts are as before, every other thread object is as
    before, and the thread itself keeps its [is_read] and [last_read_on]:
    the annotation is not refreshed. *)
Theorem sync_record_touches_one_row user thread reply s t attached :
  objects s !! thread = Some t →
  read_record t = Some attached →
  (∀ record, attached = Some record →
     is_Some (threadread_set s !! tr_pk record)) →
  ∃ s' t',
    sync_record sync_record_rows user thread reply s = (Ok tt, s')
    ∧ post_set s' = post_set s
    ∧ match attached with
      | Some record =>
          length (threadread_set s') = length (threadread_set s)
          ∧ (∀ i, i ≠ tr_pk record →
               threadread_set s' !! i = threadread_set s !! i)
          ∧ ∃ row row',
              threadread_set s !! tr_pk record = Some row
              ∧ threadread_set s' !! tr_pk record = Some row'
              ∧ tr_thread_id row' = tr_thread_id row
              ∧ tr_category_id row' = tr_category_id row
              ∧ tr_last_read_on row' = posted_on reply
      | None =>
          ∃ row',
            threadread_set s' = threadread_set s ++ [row']
            ∧ tr_thread_id row' = pk t
            ∧ tr_category_id row' = category_id t
            ∧ tr_last_read_on row' = posted_on reply
      end
    ∧ (∀ other, other ≠ thread → objects s' !! other = objects s !! other)
    ∧ objects s' !! thread = Some t'
    ∧ is_read t' = is_read t
    ∧ last_read_on t' = last_read_on t
    ∧ is_new t' = is_new t
    ∧ unread_replies t' = unread_replies t
    ∧ (attached = None → t' = t).
Proof.
  intros Ht Hrec Hrow.
  destruct (sync_record_run sync_record_rows user thread reply s t attached
              Ht Hrec Hrow) as (s' & Hrun & Hobj & Hposts & Hrows & _).
  destruct attached as [record|].
  - destruct (Hrow record eq_refl) as [row Hrow']. rewrite Hrow' in Hrows.
    exists s'. eexists. split; [exact Hrun|]. split; [exact Hposts|].
    rewrite Hrows, Hobj. split; [|split; [|split]].
    + split; [by rewrite length_insert|]. split.
      * intros i Hi. by rewrite list_lookup_insert_ne.
      * eexists row, _. split; [done|].
        split; [apply list_lookup_insert_eq; by eapply lookup_lt_Some|done].
    + intros other Hne. by rewrite lookup_alter_ne.
    + by rewrite lookup_alter_eq, Ht.
    + done.
  - exists s', t. split; [exact Hrun|]. split; [exact Hposts|].
    rewrite Hrows, Hobj. split; [by eexists|]. done.
Qed.

End write_path_edges.

(** X7. [count_read_replies] asks the store once and returns a number
    between [-1] and the number of stored posts minus one; it returns at
    least 0 when [last_read_reply] itself is a stored post of the thread
    that is not moderated; and a later reply never counts fewer replies. *)
Theorem count_read_replies_bounds user thread reply later s t :
  objects s !! thread = Some t →
  posted_on reply ≤ posted_on later →
  ∃ n n',
    count_read_replies user thread reply s
    = (Ok n, with_log (log s ++ [PostCount (pk t) (posted_on reply)]) s)
    ∧ count_read_replies user thread later s
      = (Ok n', with_log (log s ++ [PostCount (pk t) (posted_on later)]) s)
    ∧ -1 ≤ n ≤ Z.of_nat (length (post_set s)) - 1
    ∧ n ≤ n'
    ∧ (reply ∈ post_set s → post_thread_id reply = pk t →
       is_moderated reply = false → 0 ≤ n).
Proof.
  intros Ht Hle. unfold count_read_replies.
  repeat (progress (msimpl; rewrite ?Ht)). rewrite !post_count_visible.
  eexists _, _. split; [reflexivity|]. split; [reflexivity|].
  unfold visible_posts_upto.
  split; [|split].
  - pose proof (length_filter
      (λ p, post_thread_id p = pk t ∧ is_moderated p = false
            ∧ posted_on p ≤ posted_on reply) (post_set s)). lia.
  - enough (Nat.le
              (length (filter (λ p, post_thread_id p = pk t
                                    ∧ is_moderated p = false
                                    ∧ posted_on p ≤ posted_on reply) (post_set s)))
              (length (filter (λ p, post_thread_id p = pk t
                                    ∧ is_moderated p = false
                                    ∧ posted_on p ≤ posted_on later) (post_set s))))
      by lia.
    induction (post_set s) as [|p ps IH]; [done|].
    rewrite !filter_cons.
    repeat case_decide; cbn [length]; try lia. exfalso. naive_solver lia.
  - intros Hin Htid Hmod.
    assert (reply ∈ filter (λ p, post_thread_id p = pk t ∧ is_moderated p = false
                                 ∧ posted_on p ≤ posted_on reply) (post_set s))
      as Hf by (apply list_elem_of_filter; split; [|done]; split; [done|]; split; [done|lia]).
    destruct (filter _ (post_set s)); [by apply not_elem_of_nil in Hf|].
    cbn [length]. lia.
Qed.

(** ** The batch path as a whole *)

Section batch_as_a_whole.

Variable is_date_tracked : Z → User → option Z → bool.

Lemma collect_category_loop threads : ∀ categories s,
  let acc := foldl collect_category (categories, s) threads in
  acc.2 = s
  ∧ (NoDup categories → NoDup acc.1)
  ∧ ∀ c, c ∈ acc.1 ↔
      c ∈ categories
      ∨ ∃ thread t, thread ∈ threads ∧ objects s !! thread = Some t
                    ∧ category_id t = c.
Proof.
  induction threads as [|l threads IH]; intros categories s; cbn zeta.
  - cbn [foldl fst snd]. split; [done|]. split; [done|].
    intros c. split; [by left|]. intros [|(l & t & Hin & _)]; [done|].
    by apply not_elem_of_nil in Hin.
  - cbn [foldl]. destruct (objects s !! l) as [t|] eqn:Ht.
    + assert (collect_category (categories, s) l
              = (if bool_decide (category_id t ∈ categories) then categories
                 else categories ++ [category_id t], s)) as ->
        by (unfold collect_category; cbn [fst snd]; by rewrite Ht).
      destruct (IH (if bool_decide (category_id t ∈ categories) then categories
                    else categories ++ [category_id t]) s) as (Hs & Hnd & Hin).
      split; [done|]. split.
      * intros Hcat. apply Hnd. case_bool_decide; [done|].
        apply NoDup_app. split; [done|]. split; [|apply NoDup_singleton].
        intros x Hx ->%list_elem_of_singleton. done.
      * intros c. rewrite Hin. split.
        -- intros [Hc|(l' & t' & Hl' & Ht' & Hc)].
           ++ case_bool_decide; [by left|].
              apply elem_of_app in Hc as [Hc|Hc%list_elem_of_singleton];
                [by left|].
              right. exists l, t. split; [left|]. done.
           ++ right. exists l', t'. split; [by right|done].
        -- intros [Hc|(l' & t' & Hl' & Ht' & Hc)].
           ++ left. case_bool_decide; [done|]. apply elem_of_app. by left.
           ++ apply elem_of_cons in Hl' as [->|Hl'].
              ** left. replace t' with t in * by congruence.
                 case_bool_decide; [by subst|].
                 apply elem_of_app. right. subst. by left.
              ** right. by exists l', t'.
    + assert (collect_category (categories, s) l = (categories, s)) as ->
        by (unfold collect_category; cbn [fst snd]; by rewrite Ht).
      destruct (IH categories s) as (Hs & Hnd & Hin).
      split; [done|]. split; [done|]. intros c. rewrite Hin. split.
      * intros [Hc|(l' & t' & Hl' & Ht' & Hc)]; [by left|].
        right. exists l', t'. split; [by right|done].
      * intros [Hc|(l' & t' & Hl' & Ht' & Hc)]; [by left|].
        apply elem_of_cons in Hl' as [->|Hl']; [congruence|].
        right. by exists l', t'.
Qed.

Lemma cutoffs_lookup (records : list CategoryRead) : ∀ (d : gmap Z Z) c,
  foldl (λ categories_dict record,
           <[cr_category_id record := cr_last_read_on record]> categories_dict)
    d records !! c
  = match last (filter (λ r, cr_category_id r = c) records) with
    | Some r => Some (cr_last_read_on r)
    | None => d !! c
    end.
Proof.
  induction records as [|r records IH] using rev_ind; intros d c; [done|].
  rewrite foldl_app, filter_app. cbn [foldl].
  destruct (decide (cr_category_id r = c)) as [<-|Hne].
  - rewrite filter_cons_True by done. rewrite filter_nil, last_snoc.
    by rewrite lookup_insert_eq.
  - rewrite filter_cons_False by done. rewrite filter_nil, app_nil_r.
    rewrite lookup_insert_ne by done. apply IH.
Qed.

Lemma filter_category_in (c : Z) (categories : list Z) (rows : list CategoryRead) :
  filter (λ r, cr_category_id r = c)
    (filter (λ r, cr_category_id r ∈ categories) rows)
  = if decide (c ∈ categories)
    then filter (λ r, cr_category_id r = c) rows else [].
Proof.
  induction rows as [|r rows IH]; [by case_decide|].
  rewrite !filter_cons. destruct (decide (cr_category_id r ∈ categories)) as [Hin|Hnin].
  - rewrite filter_cons, IH.
    destruct (decide (cr_category_id r = c)) as [<-|]; [|done].
    by rewrite !decide_True by done.
  - rewrite IH. destruct (decide (cr_category_id r = c)) as [<-|]; [|done].
    by rewrite !decide_False by done.
Qed.

(** What [fetch_categories_cutoffs_for_threads] returns and leaves. *)
Lemma fetch_categories_cutoffs_for_threads_lookup user threads s :
  (∀ thread, thread ∈ threads → is_Some (objects s !! thread)) →
  ∃ cutoffs categories,
    fetch_categories_cutoffs_for_threads user threads s
    = (Ok cutoffs, with_log (log s ++ [CategoryReadFilter categories]) s)
    ∧ NoDup categories
    ∧ (∀ c, c ∈ categories ↔
         ∃ thread t, thread ∈ threads ∧ objects s !! thread = Some t
                     ∧ category_id t = c)
    ∧ ∀ c, cutoffs !! c
           = if decide (c ∈ categories) then stored_category_cutoff s c
             else None.
Proof.
  intros Hvalid. unfold fetch_categories_cutoffs_for_threads.
  match goal with |- context [for_fold threads ?b0 ?body] =>
    destruct (for_fold_run (λ s', s' = s) threads body collect_category)
      with (b := b0) (s := s) as [Hrun Hs]; [|done|]
  end.
  { intros l b s1 Hl ->. destruct (Hvalid l Hl) as [t Ht].
    unfold collect_category. cbn [fst snd]. rewrite Ht. cbn [fst snd].
    split; [|done]. msimpl. rewrite Ht. by case_bool_decide. }
  destruct (collect_category_loop threads [] s) as (_ & Hnd & Hin).
  rewrite (bind_run _ _ _ _ _ Hrun), Hs. msimpl.
  eexists _, _. split; [reflexivity|]. split; [apply Hnd, NoDup_nil_2|].
  split.
  - intros c. rewrite Hin. split; [|by right].
    intros [Hc|]; [by apply not_elem_of_nil in Hc|done].
  - intros c. rewrite cutoffs_lookup, filter_category_in.
    unfold stored_category_cutoff.
    case_decide; [|done]. by destruct (last _).
Qed.

(** X8. [fetch_categories_cutoffs_for_threads] makes one query, for the
    categories of the batch's threads without repetition, and writes
    nothing; the dictionary it returns maps a category of the batch to the
    stored watermark of that category, and has no entry for a category
    without a stored row or outside the batch. *)
Theorem fetch_categories_cutoffs_for_threads_spec user threads s :
  (∀ thread, thread ∈ threads → is_Some (objects s !! thread)) →
  ∃ cutoffs categories,
    fetch_categories_cutoffs_for_threads user threads s
    = (Ok cutoffs, with_log (log s ++ [CategoryReadFilter categories]) s)
    ∧ NoDup categories
    ∧ (∀ c, c ∈ categories ↔
         ∃ thread t, thread ∈ threads ∧ objects s !! thread = Some t
                     ∧ category_id t = c)
    ∧ (∀ c, c ∈ categories → cutoffs !! c = stored_category_cutoff s c)
    ∧ (∀ c, c ∉ categories → cutoffs !! c = None)
    ∧ (∀ c, (∀ r, r ∈ categoriesread_set s → cr_category_id r ≠ c) →
         cutoffs !! c = None).
Proof.
  intros Hvalid.
  destruct (fetch_categories_cutoffs_for_threads_lookup user threads s Hvalid)
    as (cutoffs & categories & Hrun & Hnd & Hin & Hlookup).
  exists cutoffs, categories. split; [exact Hrun|]. split; [exact Hnd|].
  split; [exact Hin|]. split; [|split].
  - intros c Hc. by rewrite Hlookup, decide_True.
  - intros c Hc. by rewrite Hlookup, decide_False.
  - intros c Hnone. rewrite Hlookup. case_decide; [|done].
    unfold stored_category_cutoff.
    destruct (filter (λ r, cr_category_id r = c) (categoriesread_set s))
      as [|r rows] eqn:Hf; [done|].
    exfalso. assert (r ∈ filter (λ r, cr_category_id r = c) (categoriesread_set s))
      as Hr by (rewrite Hf; left).
    apply list_elem_of_filter in Hr as [Hc Hr]. by eapply Hnone.
Qed.

Lemma same_but_read_state_refl t : same_but_read_state t t.
Proof. by repeat split. Qed.

Lemma same_but_read_state_trans t1 t2 t3 :
  same_but_read_state t1 t2 → same_but_read_state t2 t3 →
  same_but_read_state t1 t3.
Proof.
  intros (? & ? & ? & ? & ? & ?) (? & ? & ? & ? & ? & ?).
  repeat split; congruence.
Qed.

Lemma refine_loop_same threads_dict records : ∀ s thread t',
  objects (foldl (refine_step threads_dict) s records) !! thread = Some t' →
  ∃ t, objects s !! thread = Some t ∧ same_but_read_state t t'.
Proof.
  induction records as [|r records IH]; intros s thread t' Hl.
  - exists t'. split; [done|]. apply same_but_read_state_refl.
  - cbn [foldl] in Hl. apply IH in Hl as (t1 & Hl & Hsame).
    unfold refine_step in Hl.
    destruct (threads_dict !! tr_thread_id (tr_row r)) as [l|];
      [|by exists t1].
    cbn in Hl. apply lookup_alter_Some in Hl as [(-> & x & Hx & ->)|[_ Hl]];
      [|by exists t1].
    exists x. split; [done|].
    eapply same_but_read_state_trans; [|exact Hsame]. by repeat split.
Qed.

Lemma provisional_loop_dom user cutoff_of threads :
  (∀ b t, cutoff_of (provisional b t) = cutoff_of t) →
  ∀ d s,
    let acc := foldl (provisional_step is_date_tracked user cutoff_of)
                 (d, s) threads in
    (∀ k, is_Some (d !! k) → is_Some (acc.1 !! k))
    ∧ ∀ thread t, thread ∈ threads → objects s !! thread = Some t →
        tracked is_date_tracked user cutoff_of t = true →
        is_Some (acc.1 !! pk t).
Proof.
  intros Hcut. induction threads as [|l threads IH]; intros d s; cbn zeta.
  - cbn [foldl fst]. split; [done|]. intros thread t Hin.
    by apply not_elem_of_nil in Hin.
  - cbn [foldl].
    destruct (IH (provisional_step is_date_tracked user cutoff_of (d, s) l).1
                (provisional_step is_date_tracked user cutoff_of (d, s) l).2)
      as [Hkeys Htracked].
    rewrite <- surjective_pairing in *.
    assert (Hd1 : ∀ k, is_Some (d !! k) →
              is_Some ((provisional_step is_date_tracked user cutoff_of
                          (d, s) l).1 !! k)).
    { intros k Hk. unfold provisional_step. cbn [fst snd].
      destruct (objects s !! l) as [t|]; [|done]. cbn [fst].
      destruct (tracked _ _ _ t); [|done].
      destruct (decide (pk t = k)) as [->|];
        [by rewrite lookup_insert_eq|by rewrite lookup_insert_ne]. }
    split; [by intros k Hk; apply Hkeys, Hd1|].
    intros thread t Hin Ht Htr.
    destruct (decide (thread ∈ threads)) as [Hrest|Hrest].
    + destruct (decide (l = thread)) as [->|Hne].
      * specialize (Htracked thread
          (provisional (tracked is_date_tracked user cutoff_of t) t) Hrest).
        apply Htracked.
        -- unfold provisional_step. cbn [fst snd]. rewrite Ht.
           cbn [snd objects with_objects]. by rewrite lookup_alter_eq, Ht.
        -- unfold tracked in *. cbn [last_post_on provisional set_unread_replies
             set_is_new set_is_read]. by rewrite Hcut.
      * apply (Htracked thread t Hrest); [|done].
        unfold provisional_step. cbn [fst snd].
        destruct (objects s !! l); [|done]. cbn [snd objects with_objects].
        by rewrite lookup_alter_ne.
    + apply elem_of_cons in Hin as [->|]; [|done].
      apply Hkeys. unfold provisional_step. cbn [fst snd]. rewrite Ht.
      cbn [fst]. rewrite Htr. by rewrite lookup_insert_eq.
Qed.

(** The two passes of the batch path, for either caller: what is asked of
    the store, what is left alone, and what each thread ends as. *)
Lemma category_pass_full user cutoff_of
    (body : gmap Z nat → nat → M (gmap Z nat)) threads s :
  (∀ b t, cutoff_of (provisional b t) = cutoff_of t) →
  (∀ d thread s t, objects s !! thread = Some t →
     body d thread s
     = (Ok (provisional_step is_date_tracked user cutoff_of (d, s) thread).1,
        (provisional_step is_date_tracked user cutoff_of (d, s) thread).2)) →
  (∀ thread, thread ∈ threads → is_Some (objects s !! thread)) →
  ∃ s',
    (threads_dict ← for_fold threads ∅ body;
     if bool_decide (threads_dict = ∅) then mret tt
     else make_threads_dict_read_aware user threads_dict) s = (Ok tt, s')
    ∧ post_set s' = post_set s
    ∧ (log s' = log s ∨ ∃ keys, log s' = log s ++ [ThreadReadFilter keys])
    ∧ ((∀ thread t, thread ∈ threads → objects s !! thread = Some t →
          tracked is_date_tracked user cutoff_of t = false) →
       log s' = log s)
    ∧ (∀ thread, thread ∉ threads → objects s' !! thread = objects s !! thread)
    ∧ (∀ thread t', objects s' !! thread = Some t' →
         ∃ t, objects s !! thread = Some t ∧ same_but_read_state t t')
    ∧ (distinct_pks threads s →
       ∀ thread t, thread ∈ threads → objects s !! thread = Some t →
         objects s' !! thread
         = Some (if tracked is_date_tracked user cutoff_of t then
                   match matching_record s (pk t) with
                   | Some record => refine record t
                   | None => provisional true t
                   end
                 else provisional false t)).
Proof.
  intros Hcut Hbody Hvalid.
  destruct (for_fold_run (λ s', dom (objects s') = dom (objects s)) threads
              body (provisional_step is_date_tracked user cutoff_of))
    with (b := (∅ : gmap Z nat)) (s := s) as [Hrun _]; [|done|].
  { intros l d s1 Hl Hdom.
    assert (is_Some (objects s1 !! l)) as [t Ht].
    { apply elem_of_dom. rewrite Hdom. apply elem_of_dom. by apply Hvalid. }
    split; [by eapply Hbody|].
    unfold provisional_step. cbn [fst snd]. rewrite Ht. cbn.
    by rewrite dom_alter_L. }
  pose proof (provisional_loop is_date_tracked user cutoff_of Hcut threads ∅ s)
    as Hloop.
  pose proof (provisional_loop_keyed is_date_tracked user cutoff_of Hcut
                threads s) as Hkeyed.
  pose proof (provisional_loop_dom user cutoff_of threads Hcut ∅ s) as Hdom.
  cbn zeta in Hloop, Hdom.
  destruct (foldl (provisional_step is_date_tracked user cutoff_of) (∅, s) threads)
    as [d s1] eqn:Hfold. cbn [fst snd] in *.
  destruct Hloop as (Hlog & Hcat & Hrows & Hposts & Hclock & Hobj & Hdict).
  destruct Hdom as [_ Hdom].
  assert (Hd : ∀ k thread, d !! k = Some thread →
            ∃ t, thread ∈ threads ∧ objects s !! thread = Some t ∧ pk t = k
                 ∧ tracked is_date_tracked user cutoff_of t = true).
  { intros k thread Hk. apply Hdict in Hk as [Hk|(Hin & t & Ht & Hpk & Htr)];
      [by rewrite lookup_empty in Hk|]. by exists t. }
  assert (Hprov : ∀ thread t, thread ∈ threads → objects s !! thread = Some t →
            objects s1 !! thread
            = Some (provisional (tracked is_date_tracked user cutoff_of t) t)).
  { intros thread t Hin Ht. rewrite Hobj, Ht. cbn. by rewrite decide_True. }
  assert (Hout : ∀ thread, thread ∉ threads →
            objects s1 !! thread = objects s !! thread).
  { intros thread Hnin. rewrite Hobj. destruct (objects s !! thread); [|done].
    cbn. by rewrite decide_False. }
  assert (Hsame1 : ∀ thread t1, objects s1 !! thread = Some t1 →
            ∃ t, objects s !! thread = Some t ∧ same_but_read_state t t1).
  { intros thread t1. rewrite Hobj.
    destruct (objects s !! thread) as [t|]; [|done]. cbn. intros [= <-].
    exists t. split; [done|]. case_decide; by repeat split. }
  rewrite (bind_run _ _ _ _ _ Hrun). case_bool_decide as Hempty.
  - exists s1. split; [done|]. split; [done|]. split; [by left|].
    split; [done|]. split; [done|]. split; [done|].
    intros _ thread t Hin Ht. rewrite (Hprov _ _ Hin Ht).
    destruct (tracked is_date_tracked user cutoff_of t) eqn:Htr; [|done].
    destruct (Hdom thread t Hin Ht Htr) as [x Hx].
    by rewrite Hempty, lookup_empty in Hx.
  - rewrite make_threads_dict_read_aware_run.
    2:{ intros k thread Hk. destruct (Hd _ _ Hk) as (t & Hin & Ht & _).
        rewrite (Hprov _ _ Hin Ht). by eexists. }
    eexists. split; [reflexivity|].
    set (s2 := with_log (log s1 ++ [ThreadReadFilter (elements (dom d))]) s1).
    set (records := filter (λ r, tr_thread_id (tr_row r) ∈ elements (dom d))
                      (threadread_objects (threadread_set s1))).
    pose proof (refine_loop_frame d records s2) as Hframe.
    cbn zeta in Hframe.
    destruct Hframe as (Hlog' & _ & _ & Hposts' & _ & Hfr).
    split; [by rewrite Hposts'|].
    split; [right; eexists; by rewrite Hlog', <- Hlog|].
    split.
    { intros Hnone. exfalso. apply Hempty. apply map_empty. intros k.
      destruct (d !! k) as [thread|] eqn:Hk; [|done].
      destruct (Hd _ _ Hk) as (t & Hin & Ht & _ & Htr).
      by rewrite (Hnone _ _ Hin Ht) in Htr. }
    split.
    { intros thread Hnin. rewrite Hfr; [by apply Hout|].
      intros k Hk. destruct (Hd _ _ Hk) as (t & Hin & _). done. }
    split.
    { intros thread t' Ht'.
      apply refine_loop_same in Ht' as (t1 & Ht1 & Hsame).
      destruct (Hsame1 thread t1 Ht1) as (t & Ht & Hsame').
      exists t. split; [done|]. by eapply same_but_read_state_trans. }
    intros Hdistinct thread t Hin Ht.
    destruct (tracked is_date_tracked user cutoff_of t) eqn:Htr.
    + destruct (Hdom thread t Hin Ht Htr) as [l Hl].
      destruct (Hd _ _ Hl) as (t0 & Hin0 & Ht0 & Hpk0 & _).
      assert (l = thread) as -> by (by eapply Hdistinct).
      rewrite (refine_loop_last d s2 Hkeyed records (pk t) thread
                 (provisional true t) Hl).
      2:{ cbn. rewrite (Hprov _ _ Hin Ht). by rewrite Htr. }
      unfold records. rewrite filter_key_in.
      2:{ apply elem_of_elements, elem_of_dom. by eexists. }
      unfold matching_record. rewrite Hrows.
      by destruct (last _).
    + rewrite Hfr.
      * cbn. by rewrite (Hprov _ _ Hin Ht), Htr.
      * intros k Hk. destruct (Hd _ _ Hk) as (t0 & _ & Ht0 & _ & Htr0).
        congruence.
Qed.

Lemma make_read_full threads s :
  ∃ s', make_read threads s = (Ok tt, s')
    ∧ post_set s' = post_set s ∧ log s' = log s
    ∧ (∀ thread, thread ∉ threads → objects s' !! thread = objects s !! thread)
    ∧ (∀ thread t', objects s' !! thread = Some t' →
         ∃ t, objects s !! thread = Some t ∧ same_but_read_state t t')
    ∧ (∀ thread t, thread ∈ threads → objects s !! thread = Some t →
         objects s' !! thread = Some (marked_read t)).
Proof.
  unfold make_read. revert s. induction threads as [|l threads IH]; intros s.
  - exists s. cbn. repeat (split; [done|]). split.
    + intros thread t' Ht'. exists t'. split; [done|by repeat split].
    + intros thread t Hin. by apply not_elem_of_nil in Hin.
  - cbn [for_each]. msimpl. rewrite !alter_alter.
    match goal with |- context [for_each threads _ ?s0] =>
      destruct (IH s0) as (s' & Hrun & Hposts & Hlog & Hout & Hsame & Hin) end.
    exists s'. split; [exact Hrun|]. cbn in Hposts, Hlog, Hout, Hsame, Hin.
    repeat (split; [done|]). split; [|split].
    + intros thread Hnin. rewrite Hout by set_solver.
      apply lookup_alter_ne. set_solver.
    + intros thread t' Ht'. apply Hsame in Ht' as (t1 & Ht1 & Hs1).
      apply lookup_alter_Some in Ht1 as [(-> & x & Hx & ->)|[_ Ht1]];
        [|by exists t1].
      exists x. split; [done|].
      eapply same_but_read_state_trans; [|exact Hs1]. by repeat split.
    + intros thread t Hthread Ht.
      destruct (decide (thread ∈ threads)) as [Hrest|Hrest].
      * destruct (decide (l = thread)) as [->|Hne].
        -- rewrite (Hin thread (marked_read t) Hrest); [done|].
           by rewrite lookup_alter_eq, Ht.
        -- apply Hin; [done|]. by rewrite lookup_alter_ne.
      * apply elem_of_cons in Hthread as [->|]; [|done].
        rewrite Hout by done. by rewrite lookup_alter_eq, Ht.
Qed.

(** Batch annotation as a whole: what it asks of the store, what it leaves
    alone, and what a member's threads end as. *)
Lemma make_threads_read_aware_full user threads category s :
  (∀ thread, thread ∈ threads → is_Some (objects s !! thread)) →
  ∃ s',
    make_threads_read_aware is_date_tracked user threads category s
    = (Ok tt, s')
    ∧ post_set s' = post_set s
    ∧ (∃ category_queries thread_queries,
         log s' = log s ++ category_queries ++ thread_queries
         ∧ (category_queries = []
            ∨ ∃ categories, category = None
                ∧ category_queries = [CategoryReadFilter categories])
         ∧ (thread_queries = []
            ∨ ∃ keys, thread_queries = [ThreadReadFilter keys]))
    ∧ (∀ thread, thread ∉ threads → objects s' !! thread = objects s !! thread)
    ∧ (∀ thread t', objects s' !! thread = Some t' →
         ∃ t, objects s !! thread = Some t ∧ same_but_read_state t t')
    ∧ (is_anonymous user = false →
       (∀ c, category = Some c → category_is_read c = false) →
       distinct_pks threads s →
       ∀ thread t, thread ∈ threads → objects s !! thread = Some t →
         objects s' !! thread
         = Some (batch_annotated is_date_tracked user s category t)).
Proof.
  intros Hvalid.
  assert (Hmake_read : is_anonymous user = true
            ∨ (∃ c, category = Some c ∧ category_is_read c = true) →
    ∃ s',
    make_read threads s = (Ok tt, s')
    ∧ post_set s' = post_set s
    ∧ (∃ category_queries thread_queries,
         log s' = log s ++ category_queries ++ thread_queries
         ∧ (category_queries = []
            ∨ ∃ categories, category = None
                ∧ category_queries = [CategoryReadFilter categories])
         ∧ (thread_queries = []
            ∨ ∃ keys, thread_queries = [ThreadReadFilter keys]))
    ∧ (∀ thread, thread ∉ threads → objects s' !! thread = objects s !! thread)
    ∧ (∀ thread t', objects s' !! thread = Some t' →
         ∃ t, objects s !! thread = Some t ∧ same_but_read_state t t')
    ∧ (is_anonymous user = false →
       (∀ c, category = Some c → category_is_read c = false) →
       distinct_pks threads s →
       ∀ thread t, thread ∈ threads → objects s !! thread = Some t →
         objects s' !! thread
         = Some (batch_annotated is_date_tracked user s category t))).
  { intros Hwhy.
    destruct (make_read_full threads s)
      as (s' & Hrun & Hposts & Hlog & Hout & Hsame & _).
    exists s'. split; [exact Hrun|]. split; [exact Hposts|]. split.
    { exists [], []. rewrite app_nil_r. split; [done|]. split; by left. }
    split; [exact Hout|]. split; [exact Hsame|].
    intros Hmember Hunread. exfalso.
    destruct Hwhy as [Hanon|(c & -> & Hc)]; [congruence|].
    specialize (Hunread c eq_refl). congruence. }
  unfold make_threads_read_aware. destruct threads as [|l0 threads'] eqn:Hthreads.
  { exists s. repeat (split; [done|]). split.
    { exists [], []. rewrite app_nil_r. split; [done|]. split; by left. }
    split; [done|]. split.
    { intros thread t' Ht'. exists t'. split; [done|by repeat split]. }
    intros _ _ _ thread t Hin. by apply not_elem_of_nil in Hin. }
  rewrite <- Hthreads in *. clear Hthreads l0 threads'.
  destruct (is_anonymous user) eqn:Hanon; [apply Hmake_read; by left|].
  destruct category as [category|].
  - unfold make_category_threads_read_aware.
    destruct (category_is_read category) eqn:Hread;
      [apply Hmake_read; right; by exists category|].
    destruct (category_pass_full user (λ _, category_last_read_on category)
                (λ threads_dict thread,
                   annotate_from_cutoff is_date_tracked user
                     (category_last_read_on category) threads_dict thread)
                threads s)
      as (s' & Hrun & Hposts & Hlog & _ & Hout & Hsame & Hres);
      [done| |done|].
    { intros d thread s1 t Ht. rewrite (annotate_from_cutoff_run _ _ _ _ _ _ t Ht).
      unfold provisional_step, tracked. cbn [fst snd]. by rewrite Ht. }
    exists s'. split; [exact Hrun|]. split; [exact Hposts|]. split.
    { destruct Hlog as [Hlog|[keys Hlog]].
      - exists [], []. rewrite app_nil_r. split; [done|]. split; by left.
      - exists [], [ThreadReadFilter keys]. split; [done|].
        split; [by left|]. right. by eexists. }
    split; [exact Hout|]. split; [exact Hsame|].
    intros _ _ Hdistinct thread t Hin Ht.
    rewrite (Hres Hdistinct thread t Hin Ht). done.
  - unfold make_categories_threads_read_aware.
    destruct (fetch_categories_cutoffs_for_threads_lookup user threads s Hvalid)
      as (cutoffs & categories & Hfetch & _ & Hcats & Hlookup).
    rewrite (bind_run _ _ _ _ _ Hfetch).
    destruct (category_pass_full user (λ t, cutoffs !! category_id t)
                (λ threads_dict thread,
                   t ← deref thread;
                   annotate_from_cutoff is_date_tracked user
                     (cutoffs !! category_id t) threads_dict thread)
                threads (with_log (log s ++ [CategoryReadFilter categories]) s))
      as (s' & Hrun & Hposts & Hlog & _ & Hout & Hsame & Hres);
      [done| |done|].
    { intros d thread s1 t Ht. msimpl. rewrite Ht.
      rewrite (annotate_from_cutoff_run _ _ _ _ _ _ t Ht).
      unfold provisional_step, tracked. cbn [fst snd]. by rewrite Ht. }
    exists s'. split; [exact Hrun|]. split; [exact Hposts|]. split.
    { cbn [log with_log] in Hlog. destruct Hlog as [Hlog|[keys Hlog]].
      - exists [CategoryReadFilter categories], []. rewrite app_nil_r.
        split; [done|]. split; [right; by eexists|by left].
      - exists [CategoryReadFilter categories], [ThreadReadFilter keys].
        rewrite Hlog, <- app_assoc. split; [done|].
        split; right; by eexists. }
    split; [exact Hout|]. split; [exact Hsame|].
    intros _ _ Hdistinct thread t Hin Ht.
    rewrite (Hres Hdistinct thread t Hin Ht).
    unfold batch_annotated, batch_cutoff, tracked.
    rewrite Hlookup, decide_True; [done|].
    apply Hcats. by exists thread, t.
Qed.

(** X9. Batch annotation asks the store at most twice, whatever the size of
    the batch: at most one [CategoryRead] query, and none when the category
    is known; then at most one [ThreadRead] query.  It writes no row and
    leaves the posts alone. *)
Theorem batch_annotation_queries user threads category s :
  (∀ thread, thread ∈ threads → is_Some (objects s !! thread)) →
  ∃ s' category_queries thread_queries,
    make_threads_read_aware is_date_tracked user threads category s
    = (Ok tt, s')
    ∧ log s' = log s ++ category_queries ++ thread_queries
    ∧ (category_queries = []
       ∨ ∃ categories, category = None
           ∧ category_queries = [CategoryReadFilter categories])
    ∧ (thread_queries = [] ∨ ∃ keys, thread_queries = [ThreadReadFilter keys])
    ∧ categoriesread_set s' = categoriesread_set s
    ∧ threadread_set s' = threadread_set s
    ∧ post_set s' = post_set s.
Proof.
  intros Hvalid.
  destruct (make_threads_read_aware_full user threads category s Hvalid)
    as (s' & Hrun & Hposts & (cq & tq & Hlog & Hcq & Htq) & _).
  destruct (make_threads_read_aware_run is_date_tracked user threads category
              s Hvalid) as (s'' & Hrun' & Hrows & Hcat & _).
  rewrite Hrun in Hrun'. injection Hrun' as <-.
  by exists s', cq, tq.
Qed.

(** X10. Batch annotation for a member, the known category (if any) not
    being read, on threads with distinct primary keys: a thread the date
    policy does not track for its category's cutoff ends read, new and with
    no unread replies; a tracked thread with no stored record ends unread,
    new and with all its replies unread; a tracked thread with a stored
    record ends as the refinement by that record leaves it. *)
Theorem batch_annotation_result user threads category s :
  (∀ thread, thread ∈ threads → is_Some (objects s !! thread)) →
  is_anonymous user = false →
  (∀ c, category = Some c → category_is_read c = false) →
  distinct_pks threads s →
  ∃ s',
    make_threads_read_aware is_date_tracked user threads category s
    = (Ok tt, s')
    ∧ ∀ thread t, thread ∈ threads → objects s !! thread = Some t →
        ∃ t', objects s' !! thread = Some t'
          ∧ t' = batch_annotated is_date_tracked user s category t
          ∧ (is_date_tracked (last_post_on t) user (batch_cutoff s category t)
               = false →
             is_read t' = Some true ∧ is_new t' = Some true
             ∧ unread_replies t' = Some 0)
          ∧ (is_date_tracked (last_post_on t) user (batch_cutoff s category t)
               = true →
             matching_record s (pk t) = None →
             is_read t' = Some false ∧ is_new t' = Some true
             ∧ unread_replies t' = Some (replies t))
          ∧ (∀ record,
               is_date_tracked (last_post_on t) user (batch_cutoff s category t)
                 = true →
               matching_record s (pk t) = Some record →
               is_new t' = Some false
               ∧ is_read t'
                   = Some (tr_last_read_on (tr_row record) >=? last_post_on t)
               ∧ unread_replies t'
                   = Some (if tr_last_read_on (tr_row record)
                              >=? last_post_on t
                           then 0
                           else Z.max 1 (replies t
                                           - tr_read_replies (tr_row record)))).
Proof.
  intros Hvalid Hmember Hunread Hdistinct.
  destruct (make_threads_read_aware_full user threads category s Hvalid)
    as (s' & Hrun & _ & _ & _ & _ & Hres).
  exists s'. split; [exact Hrun|]. intros thread t Hin Ht.
  eexists. split; [by apply Hres|]. split; [done|].
  unfold batch_annotated. split; [|split].
  - by intros ->.
  - by intros -> ->.
  - by intros record -> ->.
Qed.

(** X11. Batch annotation touches only the threads of the batch, and of
    those only [is_read], [is_new] and [unread_replies]: every other thread
    object is as before, and a thread of the batch keeps its model fields
    and whatever [last_read_on] and [read_record] it had; it gives it
    neither. *)
Theorem batch_annotation_frame user threads category s :
  (∀ thread, thread ∈ threads → is_Some (objects s !! thread)) →
  ∃ s',
    make_threads_read_aware is_date_tracked user threads category s
    = (Ok tt, s')
    ∧ (∀ thread, thread ∉ threads → objects s' !! thread = objects s !! thread)
    ∧ ∀ thread t, objects s !! thread = Some t →
        ∃ t', objects s' !! thread = Some t'
          ∧ pk t' = pk t ∧ category_id t' = category_id t
          ∧ last_post_on t' = last_post_on t ∧ replies t' = replies t
          ∧ last_read_on t' = last_read_on t
          ∧ read_record t' = read_record t.
Proof.
  intros Hvalid.
  destruct (make_threads_read_aware_full user threads category s Hvalid)
    as (s' & Hrun & _ & _ & Hout & Hsame & _).
  exists s'. split; [exact Hrun|]. split; [exact Hout|].
  intros thread t Ht.
  destruct (decide (thread ∈ threads)) as [Hin|Hnin].
  - destruct (make_threads_read_aware_run is_date_tracked user threads category
                s Hvalid) as (s'' & Hrun' & _ & _ & _ & Hobj).
    rewrite Hrun in Hrun'. injection Hrun' as <-.
    destruct (Hobj thread t Hin Ht) as (t' & Ht' & _).
    exists t'. split; [done|].
    destruct (Hsame thread t' Ht') as (t0 & Ht0 & Hs).
    by replace t0 with t in Hs by congruence.
  - exists t. rewrite Hout by done. by repeat split.
Qed.

End batch_as_a_whole.

Section batch_then_read.

Variable is_date_tracked : Z → User → option Z → bool.
Variable sync_record_rows : User → Z → State → list CategoryRead.

(** X12. Batch annotation is not enough for [read_thread]: on a thread that
    had no [last_read_on] before batch annotation, [read_thread] afterwards
    does nothing if the batch marked the thread read, and raises
    [AttributeError] for [last_read_on] if it marked it unread; either way
    it leaves the state as batch annotation left it. *)
Theorem read_thread_after_batch_annotation user threads category thread reply s t :
  (∀ thread', thread' ∈ threads → is_Some (objects s !! thread')) →
  thread ∈ threads →
  objects s !! thread = Some t →
  last_read_on t = None →
  ∃ s' t' read,
    make_threads_read_aware is_date_tracked user threads category s
    = (Ok tt, s')
    ∧ objects s' !! thread = Some t'
    ∧ is_read t' = Some read
    ∧ read_thread sync_record_rows user thread reply s'
      = (if read then Ok tt else Raise (AttributeError "last_read_on"), s').
Proof.
  intros Hvalid Hin Ht Hnone.
  destruct (make_threads_read_aware_full is_date_tracked user threads category
              s Hvalid) as (s' & Hrun & _ & _ & _ & Hsame & _).
  destruct (make_threads_read_aware_run is_date_tracked user threads category
              s Hvalid) as (s'' & Hrun' & _ & _ & _ & Hobj).
  rewrite Hrun in Hrun'. injection Hrun' as <-.
  destruct (Hobj thread t Hin Ht) as (t' & Ht' & (read & unread & Hr & _) & _).
  destruct (Hsame thread t' Ht') as (t0 & Ht0 & Hs).
  replace t0 with t in Hs by congruence.
  destruct Hs as (_ & _ & _ & _ & Hlast & _).
  exists s', t', read. split; [exact Hrun|]. split; [exact Ht'|].
  split; [exact Hr|]. unfold read_thread.
  destruct read;
    repeat (progress (msimpl; cbn [negb]; rewrite ?Ht', ?Hr, ?Hlast, ?Hnone));
    done.
Qed.

End batch_then_read.

(** ** The single-thread path as a whole, and the posts after it *)

Section single_thread_as_a_whole.

Variable is_date_tracked : Z → User → option Z → bool.
Variable start_record_rows : User → Z → list CategoryRead → list CategoryRead.

Lemma alter_as_insert (f : Thread → Thread) (m : gmap nat Thread) i x :
  m !! i = Some x → alter f i m = <[i := f x]> m.
Proof.
  intros Hx. apply map_eq. intros j. destruct (decide (i = j)) as [<-|Hne].
  - by rewrite lookup_alter_eq, lookup_insert_eq, Hx.
  - by rewrite lookup_alter_ne, lookup_insert_ne.
Qed.

(** What [make_thread_read_aware] leaves behind, however it ends. *)
Lemma make_thread_read_aware_effect user thread s t :
  objects s !! thread = Some t →
  ∃ r s' t',
    make_thread_read_aware is_date_tracked start_record_rows user thread s
    = (r, s')
    ∧ (r = Ok tt ∨ r = Raise MultipleObjectsReturned)
    ∧ objects s' = <[thread := t']> (objects s)
    ∧ fully_annotated t'
    ∧ unread_replies t' = unread_replies t
    ∧ (pk t' = pk t ∧ category_id t' = category_id t
       ∧ last_post_on t' = last_post_on t ∧ replies t' = replies t)
    ∧ threadread_set s' = threadread_set s
    ∧ post_set s' = post_set s
    ∧ clock s' = clock s
    ∧ (categoriesread_set s' = categoriesread_set s
       ∨ (is_anonymous user = false
          ∧ filter (λ r, cr_category_id r = category_id t)
              (categoriesread_set s) = []
          ∧ categoriesread_set s'
            = start_record_rows user (category_id t) (categoriesread_set s))).
Proof.
  intros Ht. unfold make_thread_read_aware, is_authenticated, is_anonymous.
  assert (Hdone : ∀ (r : Result unit) (f : Thread → Thread) cats evs,
    (r = Ok tt ∨ r = Raise MultipleObjectsReturned) →
    fully_annotated (f t) → unread_replies (f t) = unread_replies t →
    (pk (f t) = pk t ∧ category_id (f t) = category_id t
     ∧ last_post_on (f t) = last_post_on t ∧ replies (f t) = replies t) →
    (cats = categoriesread_set s
     ∨ (user_is_anonymous user = false
        ∧ filter (λ r, cr_category_id r = category_id t)
            (categoriesread_set s) = []
        ∧ cats = start_record_rows user (category_id t)
                   (categoriesread_set s))) →
    ∃ r0 s' t',
      (r, {| objects := alter f thread (objects s);
             categoriesread_set := cats;
             threadread_set := threadread_set s; post_set := post_set s;
             clock := clock s; log := evs |}) = (r0, s')
      ∧ (r0 = Ok tt ∨ r0 = Raise MultipleObjectsReturned)
      ∧ objects s' = <[thread := t']> (objects s)
      ∧ fully_annotated t'
      ∧ unread_replies t' = unread_replies t
      ∧ (pk t' = pk t ∧ category_id t' = category_id t
         ∧ last_post_on t' = last_post_on t ∧ replies t' = replies t)
      ∧ threadread_set s' = threadread_set s
      ∧ post_set s' = post_set s
      ∧ clock s' = clock s
      ∧ (categoriesread_set s' = categoriesread_set s
         ∨ (user_is_anonymous user = false
            ∧ filter (λ r, cr_category_id r = category_id t)
                (categoriesread_set s) = []
            ∧ categoriesread_set s'
              = start_record_rows user (category_id t)
                  (categoriesread_set s)))).
  { intros r f cats evs Hr Hf Hu Hm Hc. eexists r, _, (f t).
    split; [reflexivity|]. split; [exact Hr|]. cbn.
    split; [by apply alter_as_insert|]. done. }
  destruct (user_is_anonymous user) eqn:Hanon; cbn [negb andb]; tsimpl;
    rewrite ?Ht; tsimpl.
  { rewrite !alter_alter. apply Hdone; cbn; solve [auto | by unfold fully_annotated; cbn; repeat split]. }
  destruct (is_date_tracked (last_post_on t) user None); tsimpl.
  2:{ rewrite !alter_alter. apply Hdone; cbn; solve [auto | by unfold fully_annotated; cbn; repeat split]. }
  destruct (filter (λ r, cr_category_id r = category_id t)
              (categoriesread_set s)) as [|cr [|cr' crs]] eqn:Hc; tsimpl;
    rewrite ?alter_alter; try (apply Hdone; cbn; solve [auto | by unfold fully_annotated; cbn; repeat split]).
  destruct (last_post_on t >? cr_last_read_on cr); tsimpl;
    rewrite ?alter_alter; try (apply Hdone; cbn; solve [auto | by unfold fully_annotated; cbn; repeat split]).
  destruct (filter (λ r, tr_thread_id (tr_row r) = pk t)
              (threadread_objects (threadread_set s)))
    as [|obj [|obj' objs]] eqn:Hf; tsimpl;
    rewrite ?alter_alter; try (apply Hdone; cbn; solve [auto | by unfold fully_annotated; cbn; repeat split]).
  destruct (last_post_on t <=? tr_last_read_on (tr_row obj)); tsimpl;
    rewrite ?alter_alter; apply Hdone; cbn; solve [auto | by unfold fully_annotated; cbn; repeat split].
Qed.

(** X13. However [make_thread_read_aware] ends, and it ends either normally
    or with [MultipleObjectsReturned], the thread carries [is_read],
    [is_new], [last_read_on] and [read_record] afterwards, its
    [unread_replies] is what it was (unset if it was unset), and its model
    fields are unchanged. *)
Theorem make_thread_read_aware_sets_attributes user thread s t :
  objects s !! thread = Some t →
  ∃ r s' t',
    make_thread_read_aware is_date_tracked start_record_rows user thread s
    = (r, s')
    ∧ (r = Ok tt ∨ r = Raise MultipleObjectsReturned)
    ∧ objects s' !! thread = Some t'
    ∧ fully_annotated t'
    ∧ unread_replies t' = unread_replies t
    ∧ pk t' = pk t ∧ category_id t' = category_id t
    ∧ last_post_on t' = last_post_on t ∧ replies t' = replies t.
Proof.
  intros Ht.
  destruct (make_thread_read_aware_effect user thread s t Ht)
    as (r & s' & t' & Hrun & Hr & Hobj & Hfull & Hunread & Hmodel & _).
  exists r, s', t'. rewrite Hobj, lookup_insert_eq.
  destruct Hmodel as (? & ? & ? & ?). done.
Qed.

(** X14. [make_thread_read_aware] writes nothing but the one thread object
    and, through [categoriestracker.start_record], the [CategoryRead] table:
    every other thread object, the [ThreadRead] table and the posts are as
    before, and the [CategoryRead] table changes only for a member whose
    category has no stored row, into what [start_record] makes of it. *)
Theorem make_thread_read_aware_frame user thread s t :
  objects s !! thread = Some t →
  ∃ r s',
    make_thread_read_aware is_date_tracked start_record_rows user thread s
    = (r, s')
    ∧ (∀ other, other ≠ thread → objects s' !! other = objects s !! other)
    ∧ threadread_set s' = threadread_set s
    ∧ post_set s' = post_set s
    ∧ (categoriesread_set s' = categoriesread_set s
       ∨ (is_anonymous user = false
          ∧ filter (λ r, cr_category_id r = category_id t)
              (categoriesread_set s) = []
          ∧ categoriesread_set s'
            = start_record_rows user (category_id t) (categoriesread_set s))).
Proof.
  intros Ht.
  destruct (make_thread_read_aware_effect user thread s t Ht)
    as (r & s' & t' & Hrun & _ & Hobj & _ & _ & _ & Hrows & Hposts & _ & Hcat).
  exists r, s'. split; [exact Hrun|]. split; [|done].
  intros other Hne. by rewrite Hobj, lookup_insert_ne.
Qed.

(** X17. After [make_thread_read_aware], however it ended,
    [make_posts_read_aware] neither raises its usage error nor fails on a
    missing attribute: it returns every post marked read if the thread came
    out read, and otherwise every post marked against the thread's
    [last_read_on]. *)
Theorem make_posts_read_aware_after_annotation user thread posts s t :
  objects s !! thread = Some t →
  ∃ r s' t' read w,
    make_thread_read_aware is_date_tracked start_record_rows user thread s
    = (r, s')
    ∧ objects s' !! thread = Some t'
    ∧ is_read t' = Some read ∧ last_read_on t' = Some w
    ∧ make_posts_read_aware is_date_tracked user thread posts s'
      = (Ok (if read then set_post_is_read true <$> posts
             else mark_post is_date_tracked user w <$> posts), s').
Proof.
  intros Ht.
  destruct (make_thread_read_aware_effect user thread s t Ht)
    as (r & s' & t' & Hrun & _ & Hobj & Hfull & _).
  destruct Hfull as ([read Hr] & _ & [w Hw] & _).
  assert (Ht' : objects s' !! thread = Some t')
    by by rewrite Hobj, lookup_insert_eq.
  exists r, s', t', read, w. repeat (split; [done|]).
  destruct read.
  - unfold make_posts_read_aware. msimpl. by rewrite Ht', Hr.
  - unfold make_posts_read_aware. msimpl. rewrite Ht', Hr. msimpl.
    exact (posts_loop_run is_date_tracked user thread s' t' w posts [] Ht' Hw).
Qed.

End single_thread_as_a_whole.

(** ** The posts marked in place *)

Section posts_marked_in_place.

Variable is_date_tracked : Z → User → option Z → bool.

Lemma mark_posts_read_lookup posts : ∀ post_objects k,
  mark_posts_read posts post_objects !! k
  = if decide (k ∈ posts) then set_post_is_read true <$> post_objects !! k
    else post_objects !! k.
Proof.
  induction posts as [|post posts IH]; intros post_objects k;
    cbn [mark_posts_read].
  - by rewrite decide_False by apply not_elem_of_nil.
  - rewrite IH. destruct (decide (k = post)) as [->|Hne].
    + rewrite lookup_alter_eq, (decide_True (P := post ∈ post :: posts))
        by (by left).
      destruct (decide (post ∈ posts)); [|done].
      by destruct (post_objects !! post).
    + rewrite lookup_alter_ne by done.
      destruct (decide (k ∈ posts)) as [Hin|Hnin].
      * by rewrite decide_True by (by right).
      * rewrite decide_False; [done|]. by intros [?|?]%elem_of_cons.
Qed.

Lemma mark_post_again user w p :
  mark_post is_date_tracked user w (mark_post is_date_tracked user w p)
  = mark_post is_date_tracked user w p.
Proof. done. Qed.

(** The loop over the posts of an unread thread that has a [last_read_on]. *)
Lemma mark_posts_with_watermark user thread s t w posts : ∀ post_objects,
  objects s !! thread = Some t →
  last_read_on t = Some w →
  (∀ post, post ∈ posts → is_Some (post_objects !! post)) →
  ∃ post_objects',
    mark_posts is_date_tracked user thread s posts post_objects
    = (Ok tt, post_objects')
    ∧ ∀ k, post_objects' !! k
           = if decide (k ∈ posts)
             then mark_post is_date_tracked user w <$> post_objects !! k
             else post_objects !! k.
Proof.
  induction posts as [|post posts IH]; intros post_objects Ht Hw Hvalid;
    cbn [mark_posts].
  - exists post_objects. split; [done|]. intros k.
    by rewrite decide_False by apply not_elem_of_nil.
  - destruct (Hvalid post) as [p Hp]; [by left|]. rewrite Hp.
    assert (Hget : (getattr "last_read_on" last_read_on thread s).1 = Ok w)
      by (by msimpl; rewrite Ht, Hw).
    rewrite Hget.
    assert (Hstep :
      (if is_date_tracked (posted_on p) user None
       then mark_posts is_date_tracked user thread s posts
              (alter (set_post_is_read (posted_on p <=? w)) post post_objects)
       else mark_posts is_date_tracked user thread s posts
              (alter (set_post_is_read true) post post_objects))
      = mark_posts is_date_tracked user thread s posts
          (alter (mark_post is_date_tracked user w) post post_objects)).
    { unfold mark_post.
      destruct (is_date_tracked (posted_on p) user None) eqn:Htracked;
        f_equal; apply alter_ext; intros x Hx;
        replace x with p by congruence; by rewrite Htracked. }
    rewrite Hstep.
    destruct (IH (alter (mark_post is_date_tracked user w) post post_objects)
                Ht Hw) as (post_objects' & Hrun & Hlookup).
    { intros x Hx. destruct (decide (x = post)) as [->|Hne].
      - rewrite lookup_alter_eq, Hp. by eexists.
      - rewrite lookup_alter_ne by done. apply Hvalid. by right. }
    exists post_objects'. split; [exact Hrun|]. intros k. rewrite Hlookup.
    destruct (decide (k = post)) as [->|Hne].
    + rewrite lookup_alter_eq, Hp,
        (decide_True (P := post ∈ post :: posts)) by (by left).
      by destruct (decide (post ∈ posts)).
    + rewrite lookup_alter_ne by done.
      destruct (decide (k ∈ posts)) as [Hin|Hnin].
      * by rewrite decide_True by (by right).
      * rewrite decide_False; [done|]. by intros [?|?]%elem_of_cons.
Qed.

(** The loop goes through the posts that are not tracked as the loop of a
    read thread does. *)
Lemma mark_posts_untracked user thread s before : ∀ post_objects rest,
  Forall (untracked is_date_tracked user post_objects) before →
  mark_posts is_date_tracked user thread s (before ++ rest) post_objects
  = mark_posts is_date_tracked user thread s rest
      (mark_posts_read before post_objects).
Proof.
  induction before as [|post before IH]; intros post_objects rest Hall;
    [done|].
  apply Forall_cons in Hall as [(p & Hp & Htracked) Hall].
  cbn [app mark_posts mark_posts_read]. rewrite Hp, Htracked.
  apply IH. eapply Forall_impl; [exact Hall|].
  intros x (px & Hx & Hpx). destruct (decide (x = post)) as [->|Hne].
  - exists (set_post_is_read true p). rewrite lookup_alter_eq, Hp.
    split; [done|]. cbn. congruence.
  - exists px. by rewrite lookup_alter_ne.
Qed.

Lemma mark_posts_all_untracked user thread s posts post_objects :
  Forall (untracked is_date_tracked user post_objects) posts →
  mark_posts is_date_tracked user thread s posts post_objects
  = (Ok tt, mark_posts_read posts post_objects).
Proof.
  intros Hall.
  pose proof (mark_posts_untracked user thread s posts post_objects [] Hall)
    as Hrun.
  by rewrite app_nil_r in Hrun.
Qed.

(** The posts are all untracked, or there is a first tracked one. *)
Lemma first_tracked_post user posts : ∀ post_objects,
  (∀ post, post ∈ posts → is_Some (post_objects !! post)) →
  Forall (untracked is_date_tracked user post_objects) posts
  ∨ ∃ before post after p,
      posts = before ++ post :: after
      ∧ Forall (untracked is_date_tracked user post_objects) before
      ∧ post_objects !! post = Some p
      ∧ is_date_tracked (posted_on p) user None = true.
Proof.
  induction posts as [|post posts IH]; intros post_objects Hvalid;
    [by left|].
  destruct (Hvalid post) as [p Hp]; [by left|].
  destruct (is_date_tracked (posted_on p) user None) eqn:Htracked.
  - right. by exists [], post, posts, p.
  - destruct (IH post_objects) as [Hall|(before & x & after & px & -> & Hall
                                        & Hx & Hpx)].
    + intros x Hx. apply Hvalid. by right.
    + left. constructor; [by exists p|done].
    + right. exists (post :: before), x, after, px.
      split; [done|]. split; [|done]. constructor; [by exists p|done].
Qed.

Lemma listed_fmap (f : Post → Post) post_objects post_objects' posts :
  (∀ post, post ∈ posts → post_objects' !! post = f <$> post_objects !! post) →
  listed post_objects' posts = f <$> listed post_objects posts.
Proof.
  unfold listed. induction posts as [|post posts IH]; intros Hf; [done|].
  cbn [omap list_omap]. rewrite (Hf post) by (by left).
  rewrite IH by (intros x Hx; apply Hf; by right).
  by destruct (post_objects !! post).
Qed.

Lemma listed_app post_objects before after :
  listed post_objects (before ++ after)
  = listed post_objects before ++ listed post_objects after.
Proof.
  unfold listed. induction before as [|post before IH]; [done|].
  cbn [app omap list_omap]. rewrite IH. by destruct (post_objects !! post).
Qed.

Lemma listed_untracked user post_objects posts :
  Forall (untracked is_date_tracked user post_objects) posts →
  forallb (λ post, negb (is_date_tracked (posted_on post) user None))
    (listed post_objects posts) = true.
Proof.
  unfold listed. induction 1 as [|post posts (p & Hp & Htracked) _ IH];
    [done|].
  cbn [omap list_omap]. rewrite Hp. cbn. by rewrite Htracked, IH.
Qed.

(** The loop of [make_posts_read_aware] over the posts of an unread thread
    that has no [last_read_on]. *)
Lemma posts_loop_without_watermark user thread s t posts : ∀ marked,
  objects s !! thread = Some t →
  last_read_on t = None →
  for_fold posts marked (λ marked post,
    if is_date_tracked (posted_on post) user None then
      thread_last_read_on ← getattr "last_read_on" last_read_on thread;
      mret (marked ++ [set_post_is_read
                       (posted_on post <=? thread_last_read_on) post])
    else mret (marked ++ [set_post_is_read true post])) s
  = (if forallb (λ post, negb (is_date_tracked (posted_on post) user None))
          posts
     then Ok (marked ++ (set_post_is_read true <$> posts))
     else Raise (AttributeError "last_read_on"), s).
Proof.
  intros marked Ht Hw. revert marked.
  induction posts as [|post posts IH]; intros marked.
  - cbn. by rewrite app_nil_r.
  - cbn [for_fold forallb fmap list_fmap].
    destruct (is_date_tracked (posted_on post) user None) eqn:Htracked;
      cbn [negb andb].
    + msimpl. by rewrite Ht, Hw.
    + rewrite (bind_run _ _ s (marked ++ [set_post_is_read true post]) s)
        by reflexivity.
      rewrite IH, <- app_assoc. done.
Qed.

(** What [make_posts_read_aware] leaves of the post objects: it has marked
    some of the posts it was given, all of them if it returns, and it ends
    as the value-returning reading of it does. *)
Lemma make_posts_read_aware_in_place_run user thread posts s post_objects :
  (∀ post, post ∈ posts → is_Some (post_objects !! post)) →
  ∃ r marked (mark : Post → Post) post_objects',
    make_posts_read_aware_in_place is_date_tracked user thread posts s
      post_objects = (r, post_objects')
    ∧ (∀ k, k ∈ marked → k ∈ posts)
    ∧ (∀ p, ∃ b, mark p = set_post_is_read b p)
    ∧ (∀ k, post_objects' !! k
            = if decide (k ∈ marked) then mark <$> post_objects !! k
              else post_objects !! k)
    ∧ (r = Ok tt → marked = posts)
    ∧ match (make_posts_read_aware is_date_tracked user thread
               (listed post_objects posts) s).1 with
      | Ok result => r = Ok tt ∧ listed post_objects' posts = result
      | Raise e => r = Raise e
      end.
Proof.
  intros Hvalid.
  unfold make_posts_read_aware_in_place, make_posts_read_aware.
  assert (Hnone : ∀ (mark : Post → Post) (objs : gmap nat Post) k,
            objs !! k = if decide (k ∈ []) then mark <$> objs !! k
                        else objs !! k).
  { intros mark objs k. by rewrite decide_False by apply not_elem_of_nil. }
  destruct (objects s !! thread) as [t|] eqn:Ht.
  2:{ msimpl. rewrite Ht. cbn.
      exists (Raise InvalidReference), [], (set_post_is_read true),
        post_objects.
      split; [done|]. split; [by intros ? ?%not_elem_of_nil|].
      split; [by eexists|]. split; [apply Hnone|]. done. }
  destruct (is_read t) as [[]|] eqn:Hr.
  - assert (Hget :
      try_except (getattr "is_read" is_read thread)
        (λ e, match e with AttributeError _ => true | _ => false end)
        (raise (ValueError
           "thread passed make_posts_read_aware should be read aware too via make_thread_read_aware"))
        s = (Ok true, s)) by (by msimpl; rewrite Ht, Hr).
    rewrite Hget, (bind_run _ _ _ _ _ Hget). cbn [fst].
    exists (Ok tt), posts, (set_post_is_read true),
      (mark_posts_read posts post_objects).
    split; [done|]. split; [done|]. split; [by eexists|].
    split; [apply mark_posts_read_lookup|]. split; [done|].
    split; [done|]. apply listed_fmap. intros post Hpost.
    by rewrite mark_posts_read_lookup, decide_True.
  - assert (Hget :
      try_except (getattr "is_read" is_read thread)
        (λ e, match e with AttributeError _ => true | _ => false end)
        (raise (ValueError
           "thread passed make_posts_read_aware should be read aware too via make_thread_read_aware"))
        s = (Ok false, s)) by (by msimpl; rewrite Ht, Hr).
    rewrite Hget, (bind_run _ _ _ _ _ Hget). cbn [fst].
    destruct (last_read_on t) as [w|] eqn:Hw.
    + destruct (mark_posts_with_watermark user thread s t w posts post_objects
                  Ht Hw Hvalid) as (post_objects' & Hrun & Hlookup).
      rewrite Hrun.
      rewrite (posts_loop_run is_date_tracked user thread s t w
                 (listed post_objects posts) [] Ht Hw). cbn [fst app].
      exists (Ok tt), posts, (mark_post is_date_tracked user w), post_objects'.
      split; [done|]. split; [done|]. split; [by eexists|].
      split; [exact Hlookup|]. split; [done|]. split; [done|].
      apply listed_fmap. intros post Hpost.
      by rewrite Hlookup, decide_True.
    + rewrite (posts_loop_without_watermark user thread s t
                 (listed post_objects posts) [] Ht Hw). cbn [fst app].
      destruct (first_tracked_post user posts post_objects Hvalid)
        as [Hall|(before & post & after & p & -> & Hall & Hp & Htracked)].
      * rewrite (mark_posts_all_untracked user thread s posts post_objects
                   Hall).
        rewrite (listed_untracked user post_objects posts Hall).
        exists (Ok tt), posts, (set_post_is_read true),
          (mark_posts_read posts post_objects).
        split; [done|]. split; [done|]. split; [by eexists|].
        split; [apply mark_posts_read_lookup|]. split; [done|].
        split; [done|]. apply listed_fmap. intros x Hx.
        by rewrite mark_posts_read_lookup, decide_True.
      * rewrite (mark_posts_untracked user thread s before post_objects
                   (post :: after) Hall). cbn [mark_posts].
        rewrite mark_posts_read_lookup, Hp.
        assert (Hraise :
          (getattr "last_read_on" last_read_on thread s).1
          = Raise (AttributeError "last_read_on"))
          by (by msimpl; rewrite Ht, Hw).
        assert (Hthere :
          (if decide (post ∈ before)
           then set_post_is_read true <$> Some p else Some p)
          = Some (if decide (post ∈ before) then set_post_is_read true p
                  else p)) by (by destruct (decide (post ∈ before))).
        rewrite Hthere.
        replace (posted_on (if decide (post ∈ before)
                            then set_post_is_read true p else p))
          with (posted_on p) by (by destruct (decide (post ∈ before))).
        rewrite Htracked, Hraise.
        rewrite listed_app, forallb_app. cbn [listed omap list_omap].
        rewrite Hp. cbn [forallb]. rewrite Htracked. cbn [negb andb].
        rewrite andb_false_r.
        exists (Raise (AttributeError "last_read_on")), before,
          (set_post_is_read true), (mark_posts_read before post_objects).
        split; [done|].
        split; [intros k Hk; apply elem_of_app; by left|].
        split; [by eexists|].
        split; [apply mark_posts_read_lookup|]. done.
  - msimpl. rewrite Ht, Hr. cbn.
    eexists (Raise _), [], (set_post_is_read true), post_objects.
    split; [done|]. split; [by intros ? ?%not_elem_of_nil|].
    split; [by eexists|]. split; [apply Hnone|]. done.
Qed.

(** X15. [make_posts_read_aware] marks the post objects in place and touches
    nothing of them but [is_read]: however it ends, a post object that is
    not among the posts is as before and every post object keeps its model
    fields; it raises exactly when the value-returning reading of it
    ([make_posts_read_aware] above) raises, with the same exception; and
    when it returns, every post it was given carries [is_read], and the post
    objects read in order are the posts that reading returns. *)
Theorem posts_marked_in_place user thread posts s post_objects :
  (∀ post, post ∈ posts → is_Some (post_objects !! post)) →
  ∃ r post_objects',
    make_posts_read_aware_in_place is_date_tracked user thread posts s
      post_objects = (r, post_objects')
    ∧ (∀ post, post ∉ posts → post_objects' !! post = post_objects !! post)
    ∧ (∀ post p, post_objects !! post = Some p →
         ∃ p', post_objects' !! post = Some p' ∧ same_post p p')
    ∧ (r = Ok tt →
       ∀ post, post ∈ posts →
         ∃ p' b, post_objects' !! post = Some p' ∧ post_is_read p' = Some b)
    ∧ match (make_posts_read_aware is_date_tracked user thread
               (listed post_objects posts) s).1 with
      | Ok result => r = Ok tt ∧ listed post_objects' posts = result
      | Raise e => r = Raise e
      end.
Proof.
  intros Hvalid.
  destruct (make_posts_read_aware_in_place_run user thread posts s
              post_objects Hvalid)
    as (r & marked & mark & post_objects' & Hrun & Hsub & Hmark & Hlookup
        & Hall & Hagree).
  exists r, post_objects'. split; [exact Hrun|]. split; [|split; [|split]].
  - intros post Hpost. rewrite Hlookup, decide_False; [done|].
    intros Hin. by apply Hpost, Hsub.
  - intros post p Hp. rewrite Hlookup, Hp.
    destruct (decide (post ∈ marked)); [|by exists p].
    destruct (Hmark p) as [b Hb]. exists (mark p). split; [done|].
    rewrite Hb. by repeat split.
  - intros Hr post Hpost. rewrite (Hall Hr) in Hlookup.
    destruct (Hvalid post Hpost) as [p Hp].
    rewrite Hlookup, Hp, decide_True by done.
    destruct (Hmark p) as [b Hb]. exists (mark p), b. split; [done|].
    by rewrite Hb.
  - exact Hagree.
Qed.

(** X16. On an unread thread that has no [last_read_on], as batch annotation
    leaves an unread thread it did not find annotated:
    [make_posts_read_aware] marks every post read and returns when the date
    policy tracks none of the posts; and when it tracks one, the call raises
    [AttributeError] for [last_read_on] at the first tracked post, the posts
    before it carry [is_read = True] by then, and every other post object is
    as before. *)
Theorem posts_marked_before_attribute_error user thread posts s t post_objects :
  objects s !! thread = Some t →
  is_read t = Some false →
  last_read_on t = None →
  (Forall (untracked is_date_tracked user post_objects) posts →
   ∃ post_objects',
     make_posts_read_aware_in_place is_date_tracked user thread posts s
       post_objects = (Ok tt, post_objects')
     ∧ ∀ k, post_objects' !! k
            = if decide (k ∈ posts)
              then set_post_is_read true <$> post_objects !! k
              else post_objects !! k)
  ∧ (∀ before post after p,
       posts = before ++ post :: after →
       Forall (untracked is_date_tracked user post_objects) before →
       post_objects !! post = Some p →
       is_date_tracked (posted_on p) user None = true →
       ∃ post_objects',
         make_posts_read_aware_in_place is_date_tracked user thread posts s
           post_objects
         = (Raise (AttributeError "last_read_on"), post_objects')
         ∧ ∀ k, post_objects' !! k
                = if decide (k ∈ before)
                  then set_post_is_read true <$> post_objects !! k
                  else post_objects !! k).
Proof.
  intros Ht Hr Hw.
  assert (Hget :
    (try_except (getattr "is_read" is_read thread)
       (λ e, match e with AttributeError _ => true | _ => false end)
       (raise (ValueError
          "thread passed make_posts_read_aware should be read aware too via make_thread_read_aware"))
       s).1 = Ok false) by (by msimpl; rewrite Ht, Hr).
  unfold make_posts_read_aware_in_place. rewrite Hget. split.
  - intros Hall.
    rewrite (mark_posts_all_untracked user thread s posts post_objects Hall).
    eexists. split; [done|]. apply mark_posts_read_lookup.
  - intros before post after p -> Hall Hp Htracked.
    rewrite (mark_posts_untracked user thread s before post_objects
               (post :: after) Hall). cbn [mark_posts].
    rewrite mark_posts_read_lookup, Hp.
    assert (Hraise :
      (getattr "last_read_on" last_read_on thread s).1
      = Raise (AttributeError "last_read_on"))
      by (by msimpl; rewrite Ht, Hw).
    destruct (decide (post ∈ before)); cbn [fmap option_fmap option_map];
      cbn [posted_on set_post_is_read]; rewrite Htracked, Hraise;
      (eexists; split; [done|]); apply mark_posts_read_lookup.
Qed.

End posts_marked_in_place.

(** ** A watermark written and read back *)

Section write_then_read.

Variable is_date_tracked : Z → User → option Z → bool.
Variable start_record_rows : User → Z → list CategoryRead → list CategoryRead.
Variable sync_record_rows : User → Z → State → list CategoryRead.

(** The single-thread path on a tracked thread newer than its category's
    watermark, with exactly one [ThreadRead] stored for it. *)
Lemma make_thread_read_aware_with_record user thread s t category_record record :
  objects s !! thread = Some t →
  is_authenticated user = true →
  is_date_tracked (last_post_on t) user None = true →
  filter (λ r, cr_category_id r = category_id t) (categoriesread_set s)
    = [category_record] →
  cr_last_read_on category_record < last_post_on t →
  filter (λ r, tr_thread_id (tr_row r) = pk t)
    (threadread_objects (threadread_set s)) = [record] →
  ∃ s' t',
    make_thread_read_aware is_date_tracked start_record_rows user thread s
    = (Ok tt, s')
    ∧ threadread_set s' = threadread_set s
    ∧ objects s' !! thread = Some t'
    ∧ last_read_on t' = Some (tr_last_read_on (tr_row record))
    ∧ is_new t' = Some false
    ∧ is_read t' = Some (last_post_on t <=? tr_last_read_on (tr_row record))
    ∧ read_record t' = Some (Some record).
Proof.
  intros Ht Hu Hd Hc Hlt Hf.
  unfold make_thread_read_aware, is_authenticated, is_anonymous in *.
  destruct (user_is_anonymous user); [done|]. cbn [negb andb].
  tsimpl. rewrite Ht. tsimpl. rewrite Hd. tsimpl. rewrite Hc. tsimpl.
  replace (last_post_on t >? cr_last_read_on category_record) with true by lia.
  tsimpl. rewrite Hf. tsimpl.
  destruct (last_post_on t <=? tr_last_read_on (tr_row record)); tsimpl;
    (eexists _, _; split; [reflexivity|]); cbn;
    rewrite !lookup_alter_eq, Ht; cbn; done.
Qed.

(** X22. What [read_thread] writes, the next [make_thread_read_aware] reads
    back.  On a tracked thread of a member whose attached record is the one
    the store holds for it, a [read_thread] that advances, followed by
    [make_thread_read_aware] (the category's stored watermark still being
    older than the thread's last post), leaves the thread with the reply's
    date as [last_read_on], not new, read exactly when the reply is not
    older than the thread's last post, and carrying the stored record of the
    thread, whose [read_replies] is the count the write made. *)
Theorem read_thread_then_annotation_reads_back user thread reply s t w attached
    category_record :
  objects s !! thread = Some t →
  is_authenticated user = true →
  is_date_tracked (last_post_on t) user None = true →
  is_read t = Some false →
  last_read_on t = Some w →
  w < posted_on reply →
  read_record t = Some attached →
  filter (λ r, tr_thread_id (tr_row r) = pk t)
    (threadread_objects (threadread_set s))
    = match attached with Some record => [record] | None => [] end →
  filter (λ r, cr_category_id r = category_id t)
    (categoriesread_set (read_thread sync_record_rows user thread reply s).2)
    = [category_record] →
  cr_last_read_on category_record < last_post_on t →
  ∃ s1 s2 t2 record,
    read_thread sync_record_rows user thread reply s = (Ok tt, s1)
    ∧ make_thread_read_aware is_date_tracked start_record_rows user thread s1
      = (Ok tt, s2)
    ∧ objects s2 !! thread = Some t2
    ∧ last_read_on t2 = Some (posted_on reply)
    ∧ is_new t2 = Some false
    ∧ is_read t2 = Some (last_post_on t <=? posted_on reply)
    ∧ read_record t2 = Some (Some record)
    ∧ threadread_set s2 !! tr_pk record = Some (tr_row record)
    ∧ tr_thread_id (tr_row record) = pk t
    ∧ tr_read_replies (tr_row record)
      = Z.of_nat (length (visible_posts_upto s (pk t) (posted_on reply))) - 1.
Proof.
  intros Ht Hu Hd Hr Hw Hlt Hrec Hf Hc Hcat.
  rewrite (read_thread_advances sync_record_rows user thread reply s t w
             Ht Hr Hw Hlt) in *.
  assert (Hrow : ∀ record, attached = Some record →
            threadread_set s !! tr_pk record = Some (tr_row record)).
  { intros record ->. apply threadread_objects_elem.
    by apply (filter_singleton_elem _ _ _ Hf). }
  destruct (sync_record_run sync_record_rows user thread reply s t attached
              Ht Hrec) as (s1 & Hrun & Hobj & _ & Hrows & _).
  { intros record Hatt. rewrite (Hrow record Hatt). by eexists. }
  rewrite Hrun in Hc. cbn [snd] in Hc.
  exists s1. destruct attached as [record|].
  - rewrite (Hrow record eq_refl) in Hrows.
    destruct (make_thread_read_aware_with_record user thread s1
                (set_read_record (Some (advanced_record record
                   (Z.of_nat (length (visible_posts_upto s (pk t)
                      (posted_on reply))) - 1) reply)) t)
                category_record
                {| tr_pk := tr_pk record;
                   tr_row := {| tr_category_id := tr_category_id (tr_row record);
                                tr_thread_id := tr_thread_id (tr_row record);
                                tr_read_replies :=
                                  Z.of_nat (length (visible_posts_upto s (pk t)
                                     (posted_on reply))) - 1;
                                tr_last_read_on := posted_on reply |} |})
      as (s2 & t2 & Hann & Hrows2 & Ht2 & Hlast & Hnew & Hread & Hrec2);
      [by rewrite Hobj, lookup_alter_eq, Ht|done|done|done|done| |].
    + rewrite Hrows, threadread_objects_insert. cbn [pk set_read_record].
      eapply filter_insert_singleton; [exact Hf| |].
      * unfold threadread_objects.
        rewrite list_lookup_imap, (Hrow record eq_refl). by destruct record.
      * cbn. by apply (filter_singleton_elem _ _ _ Hf).
    + eexists s2, t2, _. split; [done|]. split; [exact Hann|].
      split; [exact Ht2|]. split; [exact Hlast|]. split; [exact Hnew|].
      split; [exact Hread|]. split; [exact Hrec2|]. cbn.
      rewrite Hrows2, Hrows. split; [|split; [|done]].
      * apply list_lookup_insert_eq. by eapply lookup_lt_Some, Hrow.
      * by apply (filter_singleton_elem _ _ _ Hf).
  - destruct (make_thread_read_aware_with_record user thread s1 t
                category_record
                {| tr_pk := length (threadread_set s);
                   tr_row := created_row t
                     (Z.of_nat (length (visible_posts_upto s (pk t)
                        (posted_on reply))) - 1) reply |})
      as (s2 & t2 & Hann & Hrows2 & Ht2 & Hlast & Hnew & Hread & Hrec2);
      [by rewrite Hobj|done|done|done|done| |].
    + rewrite Hrows, threadread_objects_app, filter_app, Hf.
      by rewrite filter_cons_True, filter_nil.
    + eexists s2, t2, _. split; [done|]. split; [exact Hann|].
      split; [exact Ht2|]. split; [exact Hlast|]. split; [exact Hnew|].
      split; [exact Hread|]. split; [exact Hrec2|]. cbn.
      rewrite Hrows2, Hrows. split; [|done].
      by rewrite lookup_app_r, Nat.sub_diag.
Qed.

End write_then_read.

(** ** The forms *)

Section forum_forms.

Import forms.

Variable set_name : Value → Forum → Forum.
Variable set_description : Value → Forum → Forum.

Lemma no_redirect_key (data : gmap string Value) :
  (∀ key, is_Some (data !! key) → key ∈ ForumFormBase.fields) →
  data !! "redirect" = None.
Proof.
  intros Hkeys. destruct (data !! "redirect") as [v|] eqn:Hv; [|done].
  exfalso. assert (Hin : "redirect" ∈ ForumFormBase.fields)
    by (apply Hkeys; by rewrite Hv).
  unfold ForumFormBase.fields in Hin.
  repeat (apply elem_of_cons in Hin as [Hin|Hin]; [discriminate|]).
  by apply not_elem_of_nil in Hin.
Qed.

(** What [ForumFormBase.clean] does, by role and parent. *)
Lemma ForumFormBase_clean_run instance data r :
  (∀ key, is_Some (data !! key) → key ∈ ForumFormBase.fields) →
  data !! "role" = Some (VStr r) →
  (ForumFormBase.clean set_name set_description instance data).1
  = if bool_decide (r = "category") then Returns data
    else match data !! "new_parent" with
         | None => Raises (KeyError "new_parent")
         | Some (VForum parent) =>
             if bool_decide (level parent = 0) then
               Raises (ValidationError
                         (Text "Only categories can have no parent category."))
             else if bool_decide (r = "redirect") then
               Raises (ValidationError
                         (Text "This forum is redirect, yet you haven't specified URL to which it should redirect after click."))
             else Returns data
         | Some _ => Raises (AttributeError "level")
         end.
Proof.
  intros Hkeys Hrole. apply no_redirect_key in Hkeys.
  unfold ForumFormBase.clean. cbn [fst].
  cbv beta iota zeta delta
    [mbind Outcome_bind mret Outcome_ret item get as_forum default truthy negb].
  rewrite Hrole, Hkeys.
  destruct (data !! "new_parent") as [[| | | |parent]|];
    repeat case_bool_decide; simplify_eq; try done;
    destruct (Z.eqb_spec (level parent) 0); done.
Qed.

(** X18. On data cleaned from the form's own fields, [ForumFormBase.clean]
    accepts a category whatever its parent, and anything else exactly when
    it is not a redirect and its new parent is a forum below the tree's
    root level. *)
Theorem ForumFormBase_clean_accepts instance data r :
  (∀ key, is_Some (data !! key) → key ∈ ForumFormBase.fields) →
  data !! "role" = Some (VStr r) →
  (ForumFormBase.clean set_name set_description instance data).1
  = Returns data
  ↔ r = "category"
    ∨ (r ≠ "redirect"
       ∧ ∃ parent, data !! "new_parent" = Some (VForum parent)
                   ∧ level parent ≠ 0).
Proof.
  intros Hkeys Hrole.
  rewrite (ForumFormBase_clean_run instance data r Hkeys Hrole).
  case_bool_decide as Hcat; [by split; [left|]|].
  destruct (data !! "new_parent") as [[| | | |parent]|];
    try (split; [done|]; intros [?|(_ & ? & ? & _)]; done).
  repeat case_bool_decide; split; try done.
  - intros [?|(_ & ? & [= <-] & ?)]; done.
  - intros [?|(? & _)]; done.
  - intros _. right. split; [done|]. by exists parent.
Qed.

(** X19. A redirect never passes [ForumFormBase.clean]: the URL is looked
    up under the key [redirect], which data cleaned from the form's fields
    (the field is [redirect_url]) does not have.  The call raises whatever
    the data, and the instance has been given the new name and description
    all the same. *)
Theorem ForumFormBase_clean_refuses_redirects instance data :
  (∀ key, is_Some (data !! key) → key ∈ ForumFormBase.fields) →
  data !! "role" = Some (VStr "redirect") →
  ∃ e,
    ForumFormBase.clean set_name set_description instance data
    = (Raises e,
       set_description (get data "description")
         (set_name (get data "name") instance))
    ∧ (∀ parent, data !! "new_parent" = Some (VForum parent) →
         level parent ≠ 0 →
         e = ValidationError
               (Text "This forum is redirect, yet you haven't specified URL to which it should redirect after click."))
    ∧ (∀ parent, data !! "new_parent" = Some (VForum parent) →
         level parent = 0 →
         e = ValidationError
               (Text "Only categories can have no parent category."))
    ∧ (data !! "new_parent" = None → e = KeyError "new_parent").
Proof.
  intros Hkeys Hrole.
  pose proof (ForumFormBase_clean_run instance data "redirect" Hkeys Hrole)
    as Hrun.
  destruct (ForumFormBase.clean set_name set_description instance data)
    as [outcome instance'] eqn:Hclean.
  assert (instance' = set_description (get data "description")
                        (set_name (get data "name") instance)) as ->
    by (by injection Hclean as _ <-).
  cbn [fst] in Hrun. subst outcome.
  destruct (data !! "new_parent") as [[| | | |parent]|];
    repeat case_bool_decide; try done;
    (eexists; split; [reflexivity|]);
    (split; [|split]); try done;
    intros ? [= <-] ?; done.
Qed.

End forum_forms.

Section delete_forum_forms.

Import forms.

Variable has_child : Forum → Forum → bool.
Variable get_children : Forum → list Forum.

Lemma for_all_categories (children : list Forum) :
  for_all children (λ child,
    if negb (bool_decide (role child = "category")) then
      Raises (ValidationError
                (Text "One or more child forums in forum are not categories and thus cannot be made root categories."))
    else mret tt)
  = if bool_decide (Forall (λ child, role child = "category") children)
    then Returns tt
    else Raises (ValidationError
                   (Text "One or more child forums in forum are not categories and thus cannot be made root categories.")).
Proof.
  induction children as [|child children IH].
  - by rewrite bool_decide_eq_true_2.
  - cbn [for_all]. rewrite IH.
    cbv beta iota delta [mbind Outcome_bind mret Outcome_ret negb].
    repeat case_bool_decide; try done; exfalso;
      rewrite Forall_cons in *; naive_solver.
Qed.

(** X20. [DeleteForumFormBase.clean] on data whose two targets are each
    missing, [None] or a forum: it accepts exactly when the threads' target,
    if any, is another forum than the one deleted, is neither a category nor
    a redirect, and is not a child of it unless the children are moved too;
    and when the children, if they are moved to the root category, are all
    categories. *)
Theorem DeleteForumFormBase_clean_accepts instance data :
  (∀ v, data !! "move_threads_to" = Some v → v = VNone ∨ ∃ f, v = VForum f) →
  (∀ v, data !! "move_children_to" = Some v → v = VNone ∨ ∃ f, v = VForum f) →
  DeleteForumFormBase.clean has_child get_children instance data
  = Returns data
  ↔ (∀ target, data !! "move_threads_to" = Some (VForum target) →
       forum_pk target ≠ forum_pk instance
       ∧ role target ≠ "category" ∧ role target ≠ "redirect"
       ∧ (has_child instance target = true →
          ∃ new_parent, data !! "move_children_to" = Some (VForum new_parent)))
    ∧ (∀ new_parent,
         data !! "move_children_to" = Some (VForum new_parent) →
         special_role new_parent = Some "root_category" →
         ∀ child, child ∈ get_children instance → role child = "category").
Proof.
  intros Hthreads Hchildren. unfold DeleteForumFormBase.clean.
  match goal with
  | |- (?m ≫= (λ _, ?n ≫= _)) = _ ↔ ?P ∧ ?Q =>
      assert (H1 : m = Returns tt ↔ P);
      [|assert (H2 : n = Returns tt ↔ Q);
        [|destruct H1 as [H1 H1'], H2 as [H2 H2'];
          destruct m as [[]|?], n as [[]|?];
          cbv beta iota delta [mbind Outcome_bind mret Outcome_ret];
          (split; [intros Hr|intros [HP HQ]]);
          try done; try (split; [by apply H1|by apply H2]);
          try (by specialize (H1' HP)); by specialize (H2' HQ)]]
  end.
  - cbv beta iota zeta delta
      [mbind Outcome_bind mret Outcome_ret item get as_forum default truthy
       negb andb].
    destruct (data !! "move_threads_to") as [v|] eqn:Hv; [|by split].
    destruct (Hthreads v eq_refl) as [->|[f ->]]; [by split|].
    repeat case_bool_decide;
      try (split; [done|]; intros Hc;
           by destruct (Hc f eq_refl) as (? & ? & ? & _)).
    destruct (has_child instance f) eqn:Hchild.
    + destruct (data !! "move_children_to") as [w|] eqn:Hw.
      * destruct (Hchildren w eq_refl) as [->|[g ->]].
        -- split; [done|]. intros Hc.
           destruct (Hc f eq_refl) as (_ & _ & _ & Hmoved).
           by destruct (Hmoved Hchild) as [? ?].
        -- split; [|done]. intros _ ? [= <-].
           repeat split; try done. intros _. by exists g.
      * split; [done|]. intros Hc.
        destruct (Hc f eq_refl) as (_ & _ & _ & Hmoved).
        by destruct (Hmoved Hchild) as [? ?].
    + split; [|done]. intros _ ? [= <-]. repeat split; try done.
      intros ?. congruence.
  - clear H1. rewrite for_all_categories.
    cbv beta iota zeta delta
      [mbind Outcome_bind mret Outcome_ret item get as_forum default truthy].
    destruct (data !! "move_children_to") as [v|] eqn:Hv; [|by split].
    destruct (Hchildren v eq_refl) as [->|[g ->]]; [by split|].
    repeat case_bool_decide.
    + split; [|done]. intros _ ? [= <-] _. by apply Forall_forall.
    + split; [done|]. intros Hcond. exfalso.
      match goal with
      | Hn : ¬ Forall _ _ |- _ => by apply Hn, Forall_forall, (Hcond g)
      end.
    + split; [|done]. by intros _ ? [= <-] ?.
Qed.

End delete_forum_forms.

(** X21. [BanForm.clean_valid_until], at an instant of the years 1 to
    9999, returns the date it was given or raises.  For a moderator with a
    ban-length limit: a ban without end is refused (with [OverflowError]
    instead when the limit is beyond what [timedelta] holds); a date is
    judged against today plus the limit's days when that day lies in the
    years 1 to 9999, accepted exactly when it is not later, a date in the
    past included, and the call raises [OverflowError] when that day lies
    outside.  For a moderator without limit a ban without end is accepted,
    and a date exactly when it is not before today. *)
Theorem BanForm_clean_valid_until_window max_ban_length now data :
  BanForm.date_min ≤ BanForm.date now ≤ BanForm.date_max →
  (max_ban_length ≠ 0 → ∀ d, data = Some d →
     (BanForm.date_min ≤ BanForm.date now + max_ban_length
        ≤ BanForm.date_max →
      (BanForm.clean_valid_until max_ban_length now data
       = forms.Returns data
       ↔ d ≤ BanForm.date now + max_ban_length)
      ∧ (BanForm.date now + max_ban_length < d →
         BanForm.clean_valid_until max_ban_length now data
         = forms.Raises
             (forms.ValidationError
                (forms.Plural "You can't set bans longer than %(days)s day."
                   "You can't set bans longer than %(days)s days."
                   max_ban_length))))
     ∧ (¬ (BanForm.date_min ≤ BanForm.date now + max_ban_length
             ≤ BanForm.date_max) →
        BanForm.clean_valid_until max_ban_length now data
        = forms.Raises forms.OverflowError))
  ∧ (max_ban_length ≠ 0 → data = None →
     BanForm.clean_valid_until max_ban_length now data
     = forms.Raises
         (if Z.abs max_ban_length >? 999999999 then forms.OverflowError
          else forms.ValidationError
                 (forms.Plural "You can't set bans longer than %(days)s day."
                    "You can't set bans longer than %(days)s days."
                    max_ban_length)))
  ∧ (max_ban_length = 0 →
     (BanForm.clean_valid_until max_ban_length now data = forms.Returns data
      ↔ data = None ∨ ∃ d, data = Some d ∧ BanForm.date now ≤ d))
  ∧ (∀ d, 0 < max_ban_length →
       BanForm.date now + max_ban_length ≤ BanForm.date_max →
       d < BanForm.date now →
       BanForm.clean_valid_until max_ban_length now (Some d)
       = forms.Returns (Some d)
       ∧ BanForm.clean_valid_until 0 now (Some d)
         = forms.Raises
             (forms.ValidationError
                (forms.Text "Expiration date is in past.")))
  ∧ (∀ result,
       BanForm.clean_valid_until max_ban_length now data
       = forms.Returns result → result = data).
Proof.
  intros Hnow.
  assert (Hdate : ∀ n, BanForm.date (now + n * BanForm.microseconds_per_day)
                       = BanForm.date now + n).
  { intros n. unfold BanForm.date, BanForm.microseconds_per_day.
    by rewrite Z.div_add by lia. }
  assert (Hlimited : ∀ n d, n ≠ 0 →
    BanForm.clean_valid_until n now (Some d)
    = if (Z.abs n >? 999999999)
         || (BanForm.date now + n <? BanForm.date_min)
         || (BanForm.date now + n >? BanForm.date_max)
      then forms.Raises forms.OverflowError
      else if d >? BanForm.date now + n
           then forms.Raises
                  (forms.ValidationError
                     (forms.Plural
                        "You can't set bans longer than %(days)s day."
                        "You can't set bans longer than %(days)s days." n))
           else forms.Returns (Some d)).
  { intros n d Hn.
    unfold BanForm.clean_valid_until, BanForm.timedelta, BanForm.datetime_add.
    destruct (Z.eqb_spec n 0); [done|]. cbn [negb].
    destruct (Z.abs n >? 999999999); [done|].
    cbn [mbind forms.Outcome_bind mret forms.Outcome_ret orb].
    rewrite !Hdate.
    destruct ((BanForm.date now + n <? BanForm.date_min)
              || (BanForm.date now + n >? BanForm.date_max)); [done|].
    cbn [mbind forms.Outcome_bind mret forms.Outcome_ret]. rewrite Hdate.
    by destruct (d >? BanForm.date now + n). }
  unfold BanForm.date_min, BanForm.date_max in *.
  split; [|split; [|split; [|split]]].
  - intros Hn d ->. rewrite (Hlimited max_ban_length d Hn). split.
    + intros Hrange.
      replace (Z.abs max_ban_length >? 999999999) with false by lia.
      replace (BanForm.date now + max_ban_length <? 1) with false by lia.
      replace (BanForm.date now + max_ban_length >? 3652059) with false
        by lia.
      cbn [orb].
      destruct (Z.gtb_spec d (BanForm.date now + max_ban_length));
        (split; [split|]); try done; lia.
    + intros Hout.
      destruct (Z.abs max_ban_length >? 999999999); [done|].
      destruct (Z.ltb_spec (BanForm.date now + max_ban_length) 1); [done|].
      destruct (Z.gtb_spec (BanForm.date now + max_ban_length) 3652059);
        [done|]. lia.
  - intros Hn ->. unfold BanForm.clean_valid_until, BanForm.timedelta.
    destruct (Z.eqb_spec max_ban_length 0); [done|]. cbn [negb].
    by destruct (Z.abs max_ban_length >? 999999999).
  - intros ->. unfold BanForm.clean_valid_until. cbn [Z.eqb negb].
    destruct data as [d|]; [|by split; [left|]].
    destruct (Z.ltb_spec d (BanForm.date now)); split; try done.
    + intros [?|(? & [= <-] & ?)]; [done|lia].
    + intros _. right. exists d. split; [done|lia].
  - intros d Hpos Hmax Hpast. split.
    + rewrite (Hlimited max_ban_length d) by lia.
      replace (Z.abs max_ban_length >? 999999999) with false by lia.
      replace (BanForm.date now + max_ban_length <? 1) with false by lia.
      replace (BanForm.date now + max_ban_length >? 3652059) with false
        by lia.
      cbn [orb].
      by replace (d >? BanForm.date now + max_ban_length) with false by lia.
    + unfold BanForm.clean_valid_until. cbn [Z.eqb negb].
      by replace (d <? BanForm.date now) with true by lia.
  - intros result. destruct (decide (max_ban_length = 0)) as [->|Hn].
    + unfold BanForm.clean_valid_until. cbn [Z.eqb negb].
      destruct data as [d|]; [destruct (d <? BanForm.date now)|];
        congruence.
    + destruct data as [d|].
      * rewrite (Hlimited max_ban_length d Hn).
        repeat case_match; congruence.
      * unfold BanForm.clean_valid_until, BanForm.timedelta.
        destruct (Z.eqb_spec max_ban_length 0); [done|]. cbn [negb].
        by destruct (Z.abs max_ban_length >? 999999999).
Qed.

(** ** The further properties on the sample data *)

Ltac batch_valid :=
  let Hin := fresh "Hin" in
  intros ? Hin; apply list_elem_of_In in Hin;
  repeat (destruct Hin as [<-|Hin]; [eexists; reflexivity|]);
  destruct Hin.

(** Thread 7 with [row7] stored and category 1 read up to 2: the thread takes
    the row's watermark and stays unread. *)
Lemma make_thread_read_aware_thread_watermark_witness :
  ∃ s' t',
    make_thread_read_aware dates.is_date_tracked sample.start_rows
      sample.member 0%nat
      (sample.store [sample.fresh_thread 7 1 10 2] sample.category1_read_to_2
         [sample.row7]) = (Ok tt, s')
    ∧ objects s' !! 0%nat = Some t'
    ∧ last_read_on t' = Some 4
    ∧ is_read t' = Some false.
Proof.
  destruct (make_thread_read_aware_thread_watermark dates.is_date_tracked
              sample.start_rows sample.member 0%nat
              (sample.store [sample.fresh_thread 7 1 10 2]
                 sample.category1_read_to_2 [sample.row7])
              (sample.fresh_thread 7 1 10 2)
              {| cr_category_id := 1; cr_last_read_on := 2 |})
    as [Hone _].
  - reflexivity.
  - reflexivity.
  - reflexivity.
  - reflexivity.
  - cbn. lia.
  - destruct (Hone {| tr_pk := 0; tr_row := sample.row7 |} eq_refl)
      as (s' & t' & Hrun & _ & _ & _ & Ht' & Hlast & _ & Hread & _).
    exists s', t'. split; [exact Hrun|]. split; [exact Ht'|].
    split; [exact Hlast|exact Hread].
Defined.

(** Two [CategoryRead] rows for category 1. *)
Lemma make_thread_read_aware_multiple_rows_witness :
  ∃ s' t',
    make_thread_read_aware dates.is_date_tracked sample.start_rows
      sample.member 0%nat
      (sample.store [sample.fresh_thread 7 1 10 2]
         (sample.category1_read_to_2 ++ sample.category1_read_to_20) [])
    = (Raise MultipleObjectsReturned, s')
    ∧ objects s' !! 0%nat = Some t'
    ∧ is_read t' = Some false ∧ is_new t' = Some true.
Proof.
  destruct (make_thread_read_aware_multiple_rows dates.is_date_tracked
              sample.start_rows sample.member 0%nat
              (sample.store [sample.fresh_thread 7 1 10 2]
                 (sample.category1_read_to_2 ++ sample.category1_read_to_20)
                 [])
              (sample.fresh_thread 7 1 10 2))
    as [Hmany _].
  - reflexivity.
  - reflexivity.
  - reflexivity.
  - destruct (Hmany {| cr_category_id := 1; cr_last_read_on := 2 |}
                {| cr_category_id := 1; cr_last_read_on := 20 |} [] eq_refl)
      as (s' & t' & Hrun & _ & _ & _ & Ht' & Hread & Hnew).
    exists s', t'. split; [exact Hrun|]. split; [exact Ht'|].
    split; [exact Hread|exact Hnew].
Defined.

(** Thread 7 read up to 4, and a reply posted at 3. *)
Lemma read_thread_unchanged_iff_witness :
  read_thread sample.sync_rows sample.member 0%nat (sample.post 7 3 false)
    (sample.store [sample.tracked_thread] sample.category1_read_to_2
       [sample.row7])
  = (Ok tt,
     sample.store [sample.tracked_thread] sample.category1_read_to_2
       [sample.row7]).
Proof.
  apply (read_thread_unchanged_iff sample.sync_rows sample.member 0%nat
           (sample.post 7 3 false)
           (sample.store [sample.tracked_thread] sample.category1_read_to_2
              [sample.row7])
           sample.tracked_thread false 4
           (Some {| tr_pk := 0; tr_row := sample.row7 |})).
  - reflexivity.
  - reflexivity.
  - reflexivity.
  - reflexivity.
  - intros record [= <-]. eexists. reflexivity.
  - right. cbn. lia.
Defined.

(** Thread 7 as batch annotation leaves it, unread. *)
Lemma read_thread_attribute_errors_witness :
  read_thread sample.sync_rows sample.member 0%nat (sample.post 7 6 false)
    (sample.store [sample.batch_thread] [] [])
  = (Raise (AttributeError "last_read_on"),
     sample.store [sample.batch_thread] [] []).
Proof.
  destruct (read_thread_attribute_errors sample.sync_rows sample.member 0%nat
              (sample.post 7 6 false)
              (sample.store [sample.batch_thread] [] [])
              sample.batch_thread)
    as (_ & _ & Hunread).
  - reflexivity.
  - apply Hunread; reflexivity.
Defined.

Lemma sync_record_failures_witness :
  sync_record sample.sync_rows sample.member 0%nat (sample.post 7 6 false)
    (sample.store [sample.batch_thread] [] [])
  = (Raise (AttributeError "read_record"),
     with_log ([] ++ [PostCount 7 6])
       (sample.store [sample.batch_thread] [] [])).
Proof.
  destruct (sync_record_failures sample.sync_rows sample.member 0%nat
              (sample.post 7 6 false)
              (sample.store [sample.batch_thread] [] [])
              sample.batch_thread)
    as [Hnone _].
  - reflexivity.
  - apply Hnone. reflexivity.
Defined.

(** The first [sync_record] for thread 7: one row appended. *)
Lemma sync_record_touches_one_row_witness :
  ∃ s' row',
    sync_record sample.sync_rows sample.member 0%nat (sample.post 7 6 false)
      (sample.store [sample.new_thread] sample.category1_read_to_2 [])
    = (Ok tt, s')
    ∧ threadread_set s' = [] ++ [row']
    ∧ tr_last_read_on row' = 6
    ∧ objects s' !! 0%nat = Some sample.new_thread.
Proof.
  destruct (sync_record_touches_one_row sample.sync_rows sample.member 0%nat
              (sample.post 7 6 false)
              (sample.store [sample.new_thread] sample.category1_read_to_2 [])
              sample.new_thread None)
    as (s' & t' & Hrun & _ & (row' & Hrows & _ & _ & Hlast) & _ & Ht' & _ & _
        & _ & _ & Hsame).
  - reflexivity.
  - reflexivity.
  - intros record [=].
  - exists s', row'. split; [exact Hrun|]. split; [exact Hrows|].
    split; [exact Hlast|]. rewrite <- (Hsame eq_refl). exact Ht'.
Defined.

(** The replies of thread 7 up to its first and up to its last post. *)
Lemma count_read_replies_bounds_witness :
  ∃ n n',
    count_read_replies sample.member 0%nat (sample.post 7 4 false)
      (sample.store [sample.new_thread] [] []) = (Ok n, with_log ([] ++ [PostCount 7 4]) (sample.store [sample.new_thread] [] []))
    ∧ -1 ≤ n ≤ 4 ∧ n ≤ n' ∧ 0 ≤ n.
Proof.
  destruct (count_read_replies_bounds sample.member 0%nat
              (sample.post 7 4 false) (sample.post 7 10 false)
              (sample.store [sample.new_thread] [] []) sample.new_thread)
    as (n & n' & Hrun & _ & Hbounds & Hle & Hpos).
  - reflexivity.
  - cbn. lia.
  - exists n, n'. split; [exact Hrun|]. split; [exact Hbounds|].
    split; [exact Hle|]. apply Hpos.
    + apply list_elem_of_here.
    + reflexivity.
    + reflexivity.
Defined.

(** Threads 7 and 8, both in category 1. *)
Lemma fetch_categories_cutoffs_for_threads_spec_witness :
  ∃ cutoffs categories,
    fetch_categories_cutoffs_for_threads sample.member [0; 1]%nat
      (sample.store [sample.fresh_thread 7 1 10 2; sample.fresh_thread 8 1 0 0]
         sample.category1_read_to_2 [])
    = (Ok cutoffs,
       with_log ([] ++ [CategoryReadFilter categories])
         (sample.store
            [sample.fresh_thread 7 1 10 2; sample.fresh_thread 8 1 0 0]
            sample.category1_read_to_2 []))
    ∧ NoDup categories
    ∧ cutoffs !! 5 = None.
Proof.
  destruct (fetch_categories_cutoffs_for_threads_spec sample.member [0; 1]%nat
              (sample.store
                 [sample.fresh_thread 7 1 10 2; sample.fresh_thread 8 1 0 0]
                 sample.category1_read_to_2 []))
    as (cutoffs & categories & Hrun & Hnodup & _ & _ & _ & Hnone).
  - batch_valid.
  - exists cutoffs, categories. split; [exact Hrun|]. split; [exact Hnodup|].
    apply Hnone. intros r Hr. apply list_elem_of_In in Hr.
    destruct Hr as [<-|[]]. discriminate.
Defined.

Lemma batch_annotation_queries_witness :
  ∃ s' category_queries thread_queries,
    make_threads_read_aware dates.is_date_tracked sample.member [0; 1]%nat None
      (sample.store [sample.fresh_thread 7 1 10 2; sample.fresh_thread 8 1 0 0]
         sample.category1_read_to_2 [sample.row7]) = (Ok tt, s')
    ∧ log s' = [] ++ category_queries ++ thread_queries
    ∧ Nat.le (length (category_queries ++ thread_queries)) 2.
Proof.
  destruct (batch_annotation_queries dates.is_date_tracked sample.member
              [0; 1]%nat None
              (sample.store
                 [sample.fresh_thread 7 1 10 2; sample.fresh_thread 8 1 0 0]
                 sample.category1_read_to_2 [sample.row7]))
    as (s' & cq & tq & Hrun & Hlog & Hcq & Htq & _).
  - batch_valid.
  - exists s', cq, tq. split; [exact Hrun|]. split; [exact Hlog|].
    rewrite length_app.
    destruct Hcq as [->|(categories & _ & ->)], Htq as [->|(keys & ->)];
      cbn; lia.
Defined.

(** Thread 7 with [row7_three_read] stored: two replies, three read, one
    unread reply all the same. *)
Lemma batch_annotation_result_witness :
  ∃ s' t',
    make_threads_read_aware dates.is_date_tracked sample.member [0%nat] None
      (sample.store [sample.fresh_thread 7 1 10 2] sample.category1_read_to_2
         [sample.row7_three_read]) = (Ok tt, s')
    ∧ objects s' !! 0%nat = Some t'
    ∧ is_new t' = Some false
    ∧ is_read t' = Some false
    ∧ unread_replies t' = Some 1.
Proof.
  destruct (batch_annotation_result dates.is_date_tracked sample.member
              [0%nat] None
              (sample.store [sample.fresh_thread 7 1 10 2]
                 sample.category1_read_to_2 [sample.row7_three_read]))
    as (s' & Hrun & Hres).
  - batch_valid.
  - reflexivity.
  - intros c [=].
  - intros thread1 thread2 t1 t2 H1 H2 _ _ _.
    apply list_elem_of_In in H1, H2.
    destruct H1 as [<-|[]], H2 as [<-|[]]. reflexivity.
  - destruct (Hres 0%nat (sample.fresh_thread 7 1 10 2))
      as (t' & Ht' & _ & _ & _ & Hrec).
    + apply list_elem_of_here.
    + reflexivity.
    + destruct (Hrec {| tr_pk := 0; tr_row := sample.row7_three_read |})
        as (Hnew & Hread & Hunread).
      * reflexivity.
      * reflexivity.
      * exists s', t'. split; [exact Hrun|]. split; [exact Ht'|].
        split; [exact Hnew|]. split; [exact Hread|exact Hunread].
Defined.

(** Thread 7 annotated singly, then as a batch of one: its [last_read_on]
    and [read_record] are still there. *)
Lemma batch_annotation_frame_witness :
  ∃ s' t',
    make_threads_read_aware dates.is_date_tracked sample.member [0%nat] None
      (sample.store [sample.tracked_thread; sample.new_thread]
         sample.category1_read_to_2 [sample.row7]) = (Ok tt, s')
    ∧ objects s' !! 1%nat = Some sample.new_thread
    ∧ objects s' !! 0%nat = Some t'
    ∧ last_read_on t' = Some 4.
Proof.
  destruct (batch_annotation_frame dates.is_date_tracked sample.member
              [0%nat] None
              (sample.store [sample.tracked_thread; sample.new_thread]
                 sample.category1_read_to_2 [sample.row7]))
    as (s' & Hrun & Hout & Hkeep).
  - batch_valid.
  - destruct (Hkeep 0%nat sample.tracked_thread eq_refl)
      as (t' & Ht' & _ & _ & _ & _ & Hlast & _).
    exists s', t'. split; [exact Hrun|]. split; [|split; [exact Ht'|exact Hlast]].
    rewrite Hout; [reflexivity|].
    intros Hin. apply list_elem_of_In in Hin. destruct Hin as [Hin|[]].
    discriminate.
Defined.

Lemma read_thread_after_batch_annotation_witness :
  ∃ s' t' read,
    make_threads_read_aware dates.is_date_tracked sample.member [0%nat] None
      (sample.store [sample.fresh_thread 7 1 10 2] [] []) = (Ok tt, s')
    ∧ objects s' !! 0%nat = Some t'
    ∧ is_read t' = Some read
    ∧ read_thread sample.sync_rows sample.member 0%nat (sample.post 7 6 false)
        s'
      = (if read then Ok tt else Raise (AttributeError "last_read_on"), s').
Proof.
  apply (read_thread_after_batch_annotation dates.is_date_tracked
           sample.sync_rows sample.member [0%nat] None 0%nat
           (sample.post 7 6 false)
           (sample.store [sample.fresh_thread 7 1 10 2] [] [])
           (sample.fresh_thread 7 1 10 2)).
  - batch_valid.
  - apply list_elem_of_here.
  - reflexivity.
  - reflexivity.
Defined.

Lemma make_thread_read_aware_sets_attributes_witness :
  ∃ r s' t',
    make_thread_read_aware dates.is_date_tracked sample.start_rows
      sample.member 0%nat
      (sample.store [sample.batch_thread] [] []) = (r, s')
    ∧ objects s' !! 0%nat = Some t'
    ∧ fully_annotated t'
    ∧ unread_replies t' = Some 10.
Proof.
  destruct (make_thread_read_aware_sets_attributes dates.is_date_tracked
              sample.start_rows sample.member 0%nat
              (sample.store [sample.batch_thread] [] []) sample.batch_thread)
    as (r & s' & t' & Hrun & _ & Ht' & Hfull & Hunread & _).
  - reflexivity.
  - exists r, s', t'. split; [exact Hrun|]. split; [exact Ht'|].
    split; [exact Hfull|exact Hunread].
Defined.

Lemma make_thread_read_aware_frame_witness :
  ∃ r s',
    make_thread_read_aware dates.is_date_tracked sample.start_rows
      sample.member 0%nat
      (sample.store [sample.fresh_thread 7 1 10 2; sample.new_thread] []
         [sample.row7]) = (r, s')
    ∧ objects s' !! 1%nat = Some sample.new_thread
    ∧ threadread_set s' = [sample.row7]
    ∧ post_set s' = sample.posts.
Proof.
  destruct (make_thread_read_aware_frame dates.is_date_tracked
              sample.start_rows sample.member 0%nat
              (sample.store [sample.fresh_thread 7 1 10 2; sample.new_thread]
                 [] [sample.row7])
              (sample.fresh_thread 7 1 10 2))
    as (r & s' & Hrun & Hout & Hrows & Hposts & _).
  - reflexivity.
  - exists r, s'. split; [exact Hrun|]. split; [|split; [exact Hrows|exact Hposts]].
    rewrite Hout; [reflexivity|discriminate].
Defined.

Lemma make_posts_read_aware_after_annotation_witness :
  ∃ r s' t' read w,
    make_thread_read_aware dates.is_date_tracked sample.start_rows
      sample.member 0%nat
      (sample.store [sample.batch_thread] [] []) = (r, s')
    ∧ objects s' !! 0%nat = Some t'
    ∧ is_read t' = Some read ∧ last_read_on t' = Some w
    ∧ make_posts_read_aware dates.is_date_tracked sample.member 0%nat
        sample.posts s'
      = (Ok (if read then set_post_is_read true <$> sample.posts
             else mark_post dates.is_date_tracked sample.member w
                    <$> sample.posts), s').
Proof.
  apply (make_posts_read_aware_after_annotation dates.is_date_tracked
           sample.start_rows sample.member 0%nat sample.posts
           (sample.store [sample.batch_thread] [] []) sample.batch_thread).
  reflexivity.
Defined.

(** Thread 7 read up to 4, and the three sample post objects. *)
Lemma posts_marked_in_place_witness :
  ∃ r post_objects' p',
    make_posts_read_aware_in_place dates.is_date_tracked sample.member 0%nat
      [0; 1; 2]%nat
      (sample.store [sample.tracked_thread] sample.category1_read_to_2
         [sample.row7])
      sample_posts.post_objects = (r, post_objects')
    ∧ post_objects' !! 5%nat = None
    ∧ post_objects' !! 1%nat = Some p'
    ∧ same_post (sample.post 7 6 false) p'.
Proof.
  destruct (posts_marked_in_place dates.is_date_tracked sample.member 0%nat
              [0; 1; 2]%nat
              (sample.store [sample.tracked_thread]
                 sample.category1_read_to_2 [sample.row7])
              sample_posts.post_objects)
    as (r & post_objects' & Hrun & Hout & Hsame & _).
  - intros post Hin. apply list_elem_of_In in Hin.
    destruct Hin as [<-|[<-|[<-|[]]]]; eexists; reflexivity.
  - destruct (Hsame 1%nat (sample.post 7 6 false) eq_refl) as (p' & Hp' & Hs).
    exists r, post_objects', p'. split; [exact Hrun|].
    split; [|split; [exact Hp'|exact Hs]].
    rewrite Hout; [reflexivity|].
    intros Hin. apply list_elem_of_In in Hin.
    destruct Hin as [Hin|[Hin|[Hin|[]]]]; discriminate.
Defined.

(** Thread 7 as batch annotation leaves it: the old post is marked read, and
    the call raises at the post of 6. *)
Lemma posts_marked_before_attribute_error_witness :
  ∃ post_objects',
    make_posts_read_aware_in_place dates.is_date_tracked sample.member 0%nat
      [0; 1; 2]%nat (sample.store [sample.batch_thread] [] [])
      sample_posts.post_objects
    = (Raise (AttributeError "last_read_on"), post_objects')
    ∧ post_objects' !! 0%nat
      = Some (set_post_is_read true sample_posts.old_post)
    ∧ post_objects' !! 1%nat = Some (sample.post 7 6 false).
Proof.
  destruct (posts_marked_before_attribute_error dates.is_date_tracked
              sample.member 0%nat [0; 1; 2]%nat
              (sample.store [sample.batch_thread] [] []) sample.batch_thread
              sample_posts.post_objects)
    as [_ Hraise].
  - reflexivity.
  - reflexivity.
  - reflexivity.
  - destruct (Hraise [0%nat] 1%nat [2%nat] (sample.post 7 6 false))
      as (post_objects' & Hrun & Hlookup).
    + reflexivity.
    + constructor; [|constructor]. eexists. split; reflexivity.
    + reflexivity.
    + reflexivity.
    + exists post_objects'. split; [exact Hrun|]. rewrite !Hlookup.
      split; reflexivity.
Defined.

(** Thread 7 read up to 4; reply 6 is read, and the thread annotated anew. *)
Lemma read_thread_then_annotation_reads_back_witness :
  ∃ s1 s2 t2,
    read_thread sample.sync_rows sample.member 0%nat (sample.post 7 6 false)
      (sample.store [sample.tracked_thread] sample.category1_read_to_2
         [sample.row7]) = (Ok tt, s1)
    ∧ make_thread_read_aware dates.is_date_tracked sample.start_rows
        sample.member 0%nat s1 = (Ok tt, s2)
    ∧ objects s2 !! 0%nat = Some t2
    ∧ last_read_on t2 = Some 6
    ∧ is_read t2 = Some false.
Proof.
  destruct (read_thread_then_annotation_reads_back dates.is_date_tracked
              sample.start_rows sample.sync_rows sample.member 0%nat
              (sample.post 7 6 false)
              (sample.store [sample.tracked_thread] sample.category1_read_to_2
                 [sample.row7])
              sample.tracked_thread 4
              (Some {| tr_pk := 0; tr_row := sample.row7 |})
              {| cr_category_id := 1; cr_last_read_on := 2 |})
    as (s1 & s2 & t2 & record & Hread & Hann & Ht2 & Hlast & _ & Hisread & _).
  - reflexivity.
  - reflexivity.
  - reflexivity.
  - reflexivity.
  - reflexivity.
  - cbn. lia.
  - reflexivity.
  - reflexivity.
  - vm_compute. reflexivity.
  - cbn. lia.
  - exists s1, s2, t2. split; [exact Hread|]. split; [exact Hann|].
    split; [exact Ht2|]. split; [exact Hlast|exact Hisread].
Defined.

(** ** The forms on sample data *)

Ltac form_keys :=
  let Hv := fresh "Hv" in
  intros ? [? Hv];
  unfold sample_forms.forum_data, sample_forms.redirect_data in Hv;
  repeat (apply lookup_insert_Some in Hv as [[<- _]|[_ Hv]];
          [apply list_elem_of_In; vm_compute; tauto|]);
  by rewrite lookup_empty in Hv.

Lemma ForumFormBase_clean_accepts_witness :
  (ForumFormBase.clean sample_forms.keep sample_forms.keep sample_forms.forum
     sample_forms.forum_data).1
  = forms.Returns sample_forms.forum_data.
Proof.
  apply (ForumFormBase_clean_accepts sample_forms.keep sample_forms.keep
           sample_forms.forum sample_forms.forum_data "forum").
  - form_keys.
  - reflexivity.
  - right. split; [discriminate|]. exists sample_forms.category.
    split; [reflexivity|]. cbn. lia.
Defined.

Lemma ForumFormBase_clean_refuses_redirects_witness :
  ∃ e,
    ForumFormBase.clean sample_forms.keep sample_forms.keep sample_forms.forum
      sample_forms.redirect_data
    = (forms.Raises e, sample_forms.forum)
    ∧ e = forms.ValidationError
            (forms.Text "This forum is redirect, yet you haven't specified URL to which it should redirect after click.").
Proof.
  destruct (ForumFormBase_clean_refuses_redirects sample_forms.keep
              sample_forms.keep sample_forms.forum sample_forms.redirect_data)
    as (e & Hrun & Hurl & _).
  - form_keys.
  - reflexivity.
  - exists e. split; [exact Hrun|].
    apply (Hurl sample_forms.category); [reflexivity|cbn; lia].
Defined.

Lemma DeleteForumFormBase_clean_accepts_witness :
  DeleteForumFormBase.clean (λ _ _, false) (λ _, []) sample_forms.forum
    sample_forms.delete_data
  = forms.Returns sample_forms.delete_data.
Proof.
  apply (DeleteForumFormBase_clean_accepts (λ _ _, false) (λ _, [])
           sample_forms.forum sample_forms.delete_data).
  - intros v [= <-]. right. by eexists.
  - intros v [=].
  - split.
    + intros target [= <-]. repeat split; discriminate.
    + intros new_parent [=].
Defined.

(** A moderator limited to 7 days, on day 740000 (a day of the year 2027),
    sets a ban that ended on day 3. *)
Lemma BanForm_clean_valid_until_window_witness :
  BanForm.clean_valid_until 7 (740000 * 86400000000 + 5) (Some 3)
  = forms.Returns (Some 3).
Proof.
  destruct (BanForm_clean_valid_until_window 7 (740000 * 86400000000 + 5)
              (Some 3))
    as (_ & _ & _ & Hpast & _).
  - vm_compute. split; discriminate.
  - apply Hpast.
    + lia.
    + vm_compute. discriminate.
    + vm_compute. reflexivity.
Defined.
